(** * ERP dashboard: the ingestion-and-normalization pipeline of [src/dataUtils.ts]

    A shallow embedding of [determineDepartment], [parseDate], [normalize],
    [findColumnKey] and of the [complete] callback of [fetchAndProcessData],
    followed by the properties of the pipeline.

    Conventions of the embedding
    - a JavaScript string is the sequence of its UTF-16 code units; a
      [string] holds the code units below 256 (Basic Latin and Latin-1
      Supplement), one per character, and on these [toLowerCase] (A-Z and
      the capital letters U+00C0 to U+00DE but the sign U+00D7), [trim]
      (U+0009 to U+000D, the space and the no-break space U+00A0) and the
      character class of [normalize] are those of the language; text with
      other code units is outside the model;
    - [undefined] is [None]; the truthiness of a [string | undefined] value
      is [truthy];
    - a parsed CSV row is an object with string cells, kept as an association
      list in insertion order ([Row]); rows longer than the header (Papa's
      [__parsed_extra] array) are outside the model;
    - a valid [Date] is its time value in milliseconds, a [Z];
    - what the host and date-fns provide ([parse], [new Date], the clock,
      binary64 rounding) is gathered in the records [DateHost] and
      [Binary64], over which the pipeline is parameterised. *)

From Stdlib Require Import String Ascii List Bool Arith ZArith QArith Qround Qpower.
From Stdlib Require Import DecimalString DecimalNat Lia Lqa Permutation Sorted.
Import ListNotations.
Open Scope string_scope.
Open Scope list_scope.

(** ** Host primitives on strings and arrays *)

Module JS.

Definition is_upper (c : ascii) : bool :=
  let n := nat_of_ascii c in (65 <=? n)%nat && (n <=? 90)%nat.

Definition is_lower (c : ascii) : bool :=
  let n := nat_of_ascii c in (97 <=? n)%nat && (n <=? 122)%nat.

Definition is_digit (c : ascii) : bool :=
  let n := nat_of_ascii c in (48 <=? n)%nat && (n <=? 57)%nat.

(** The capital letters of the Latin-1 Supplement: U+00C0 to U+00DE but the
    multiplication sign U+00D7. *)
Definition is_upper_latin1 (c : ascii) : bool :=
  let n := nat_of_ascii c in
  ((192 <=? n)%nat && (n <=? 214)%nat) || ((216 <=? n)%nat && (n <=? 222)%nat).

Definition lower_char (c : ascii) : ascii :=
  if is_upper c || is_upper_latin1 c then ascii_of_nat (nat_of_ascii c + 32) else c.

(** [String.prototype.toLowerCase] *)
Fixpoint toLowerCase (s : string) : string :=
  match s with
  | EmptyString => EmptyString
  | String c r => String (lower_char c) (toLowerCase r)
  end.

(** [String.prototype.includes] *)
Fixpoint includes (s sub : string) : bool :=
  if prefix sub s then true
  else match s with
       | EmptyString => false
       | String _ r => includes r sub
       end.

(** [str.replace(/[^a-z0-9]/g, '')] *)
Fixpoint strip_non_alnum (s : string) : string :=
  match s with
  | EmptyString => EmptyString
  | String c r =>
      if is_lower c || is_digit c then String c (strip_non_alnum r)
      else strip_non_alnum r
  end.

(** White space and line terminators: tab, line feed, vertical tab, form
    feed, carriage return, space and no-break space. *)
Definition is_space (c : ascii) : bool :=
  let n := nat_of_ascii c in
  (n =? 32)%nat || ((9 <=? n)%nat && (n <=? 13)%nat) || (n =? 160)%nat.

Fixpoint trimStart (s : string) : string :=
  match s with
  | EmptyString => EmptyString
  | String c r => if is_space c then trimStart r else s
  end.

Fixpoint trimEnd (s : string) : string :=
  match s with
  | EmptyString => EmptyString
  | String c r =>
      match trimEnd r with
      | EmptyString => if is_space c then EmptyString else String c EmptyString
      | r' => String c r'
      end
  end.

(** [String.prototype.trim] *)
Definition trim (s : string) : string := trimEnd (trimStart s).

(** Truthiness of a string: every string but the empty one. *)
Definition truthy (s : string) : bool :=
  match s with EmptyString => false | _ => true end.

(** Truthiness of a [string | undefined] value. *)
Definition truthy_opt (v : option string) : bool :=
  match v with Some s => truthy s | None => false end.

(** [a || b] where [b] is a string. *)
Definition or_else (a : option string) (b : string) : string :=
  match a with
  | Some s => if truthy s then s else b
  | None => b
  end.

(** [a || b] where [b] may be undefined as well. *)
Definition or_else_opt (a b : option string) : option string :=
  if truthy_opt a then a else b.

(** [Array.prototype.sort] with a comparator returning a number: the sort is
    stable; it is kept as a stable insertion sort. [insert x l] puts [x],
    which comes before the elements of [l] in the array, behind the elements
    that compare strictly less than it. *)
Section Sort.
Context {A : Type} (cmp : A -> A -> Z).

Fixpoint insert (x : A) (l : list A) : list A :=
  match l with
  | [] => [x]
  | y :: r => if (cmp y x <? 0)%Z then y :: insert x r else x :: l
  end.

Definition sort (l : list A) : list A := fold_right insert [] l.
End Sort.

(** [array.map((x, index) => ...)] *)
Fixpoint mapi_from {A B : Type} (f : A -> nat -> B) (i : nat) (l : list A) : list B :=
  match l with
  | [] => []
  | x :: r => f x i :: mapi_from f (S i) r
  end.

Definition mapi {A B : Type} (f : A -> nat -> B) (l : list A) : list B :=
  mapi_from f 0 l.

End JS.

Import JS.

(** ** Rows: plain objects with string cells *)

Definition Row := list (string * string).

(** The property key used by [row[k]]: an undefined key is the property
    named "undefined". *)
Definition prop_key (k : option string) : string :=
  match k with Some s => s | None => "undefined" end.

(** [row[k]] *)
Definition get (row : Row) (k : option string) : option string :=
  option_map snd (find (fun kv => fst kv =? prop_key k) row).

(** Own property order of an object: array-index keys first, by ascending
    value, then the other keys in insertion order. *)
Fixpoint digits_value (acc : N) (s : string) : option N :=
  match s with
  | EmptyString => Some acc
  | String c r =>
      if is_digit c
      then digits_value (acc * 10 + (N_of_ascii c - 48))%N r
      else None
  end.

Definition array_index (k : string) : option N :=
  match k with
  | EmptyString => None
  | String c r =>
      if (10 <? String.length k)%nat then None
      else if (nat_of_ascii c =? 48)%nat && truthy r then None
      else match digits_value 0%N k with
           | Some n => if (n <? 4294967295)%N then Some n else None
           | None => None
           end
  end.

Definition index_entries (row : Row) : list (N * (string * string)) :=
  flat_map (fun kv => match array_index (fst kv) with
                      | Some n => [(n, kv)]
                      | None => []
                      end) row.

Definition named_entries (row : Row) : Row :=
  filter (fun kv => match array_index (fst kv) with
                    | Some _ => false
                    | None => true
                    end) row.

Definition own_entries (row : Row) : Row :=
  map snd (sort (fun a b => (Z.of_N (fst a) - Z.of_N (fst b))%Z) (index_entries row))
  ++ named_entries row.

(** [Object.keys(row)] and [Object.values(row)] *)
Definition Object_keys (row : Row) : list string := map fst (own_entries row).
Definition Object_values (row : Row) : list string := map snd (own_entries row).

(** ** Column resolver *)

(** [normalize]: lowercase, then drop every character outside [a-z0-9]. *)
Definition normalize (str : string) : string :=
  strip_non_alnum (toLowerCase str).

Record NormHeader := { original : string; norm : string }.

(** The predicate of the [find] call in [findColumnKey]. *)
Definition header_matches (normCandidate : string) (h : NormHeader) : bool :=
  (norm h =? normCandidate) || includes (norm h) normCandidate.

(** The [for (const candidate of candidates)] loop of [findColumnKey]. *)
Fixpoint findColumnKey_loop (normalizedHeaders : list NormHeader)
    (candidates : list string) : option string :=
  match candidates with
  | [] => None
  | candidate :: rest =>
      let normCandidate := normalize candidate in
      match find (header_matches normCandidate) normalizedHeaders with
      | Some m => Some (original m)
      | None => findColumnKey_loop normalizedHeaders rest
      end
  end.

Definition findColumnKey (headers candidates : list string) : option string :=
  match headers with
  | [] => None
  | _ =>
      let normalizedHeaders :=
        map (fun h => {| original := h; norm := normalize h |}) headers in
      findColumnKey_loop normalizedHeaders candidates
  end.

Definition descCandidates : list string :=
  ["Work Breakdown Structure Task Description"; "Task Description";
   "Description"; "Task"].

Definition statusCandidates : list string := ["Current Status"; "Status"].

Definition dateCandidates : list string :=
  ["EDD at Site"; "EDD"; "Target Date"; "Deadline"; "Date"].

(** [findColumnKey(headers, [...]) || headers[0]] *)
Definition resolveDescKey (headers : list string) : option string :=
  or_else_opt (findColumnKey headers descCandidates) (nth_error headers 0).

(** [findColumnKey(headers, ['Current Status', 'Status']) || 'Status'] *)
Definition resolveStatusKey (headers : list string) : string :=
  or_else (findColumnKey headers statusCandidates) "Status".

(** [headers.length > 23 ? headers[23] : undefined] *)
Definition colXHeader (headers : list string) : option string :=
  if (23 <? List.length headers)%nat then nth_error headers 23 else None.

(** The two statements that compute [dateKey]. *)
Definition resolveDateKey (headers : list string) : option string :=
  let colX := colXHeader headers in
  let dateKey :=
    if match colX with
       | Some h => truthy h && includes (normalize h) "edd"
       | None => false
       end
    then colX
    else findColumnKey headers dateCandidates in
  if negb (truthy_opt dateKey) && truthy_opt colX then colX else dateKey.

(** ** Data model *)

Inductive DepartmentType :=
| HR_Payroll | Finance | Procurement | Inventory_Stores
| Equipment_Workshop | Projects_Sales | Setup_Admin | General.

(** The string each department stands for in the source. *)
Definition dept_name (d : DepartmentType) : string :=
  match d with
  | HR_Payroll => "HR & Payroll"
  | Finance => "Finance"
  | Procurement => "Procurement"
  | Inventory_Stores => "Inventory & Stores"
  | Equipment_Workshop => "Equipment & Workshop"
  | Projects_Sales => "Projects & Sales"
  | Setup_Admin => "Setup & Admin"
  | General => "General"
  end.

Definition dept_eqb (a b : DepartmentType) : bool :=
  match a, b with
  | HR_Payroll, HR_Payroll | Finance, Finance | Procurement, Procurement
  | Inventory_Stores, Inventory_Stores | Equipment_Workshop, Equipment_Workshop
  | Projects_Sales, Projects_Sales | Setup_Admin, Setup_Admin
  | General, General => true
  | _, _ => false
  end.

Inductive Status := Done | Pending | In_Progress.

Definition status_eqb (a b : Status) : bool :=
  match a, b with
  | Done, Done | Pending, Pending | In_Progress, In_Progress => true
  | _, _ => false
  end.

(** A valid [Date], as its time value in milliseconds. *)
Definition Date := Z.

Record Task := {
  id : string;
  description : string;
  status : Status;
  date : string;
  parsedDate : option Date;
  department : DepartmentType;
  raw : Row
}.

Record DepartmentStats := {
  name : DepartmentType;
  totalTasks : nat;
  completedTasks : nat;
  percentage : Z;
  nextDeadline : option Date;
  overdueCount : nat
}.

Record DashboardData := {
  tasks : list Task;
  departmentStats : list DepartmentStats;
  overallProgress : Z
}.

(** ** Department classification *)

Definition KEYWORDS : list (DepartmentType * list string) :=
  [ (HR_Payroll, ["employee"; "payroll"; "leave"; "salary"; "wps"; "recruit";
                  "candidate"; "personnel"; "hr"]);
    (Finance, ["finance"; "account"; "payment"; "voucher"; "ledger"; "asset";
               "bank"; "tax"; "p&l"; "balance"; "audit"]);
    (Procurement, ["purchase"; "supplier"; "lpo"; "quotation"; "procurement";
                   "vendor"]);
    (Inventory_Stores, ["stock"; "inventory"; "material"; "store"; "warehouse";
                        "item"]);
    (Equipment_Workshop, ["equipment"; "workshop"; "vehicle"; "service";
                          "maintenance"; "repair"; "machinery"]);
    (Projects_Sales, ["project"; "boq"; "job"; "costing"; "estimate"; "tender";
                      "sales"; "crm"; "contract"]);
    (Setup_Admin, ["srs"; "database"; "master"; "installation"; "setup";
                   "admin"; "user"; "role"; "configuration"; "meeting";
                   "kickoff"]) ].

(** The loop over [Object.entries(KEYWORDS)], with its early return. *)
Fixpoint determineDepartment_loop (lowerDesc : string)
    (entries : list (DepartmentType * list string)) : DepartmentType :=
  match entries with
  | [] => General
  | (dept, words) :: rest =>
      if existsb (fun word => includes lowerDesc word) words then dept
      else determineDepartment_loop lowerDesc rest
  end.

Definition determineDepartment (desc : string) : DepartmentType :=
  determineDepartment_loop (toLowerCase desc) KEYWORDS.

(** ** The map of tasks per department

    A [Map] keeps its keys in insertion order; [set] on a key that is present
    replaces the value in place. *)

Definition DeptMap := list (DepartmentType * list Task).

Fixpoint map_set (m : DeptMap) (k : DepartmentType) (v : list Task) : DeptMap :=
  match m with
  | [] => [(k, v)]
  | (k', v') :: r =>
      if dept_eqb k k' then (k, v) :: r else (k', v') :: map_set r k v
  end.

Definition map_get (m : DeptMap) (k : DepartmentType) : option (list Task) :=
  option_map snd (find (fun kv => dept_eqb k (fst kv)) m).

(** ** What the host and the date library provide *)

(** [dfParse s fmt] is date-fns [parse(s, fmt, new Date())] when [isValid]
    holds of the result, [newDate s] is [new Date(s)] when [isValid] holds of
    it; [now] is the current moment and [startOfToday] the first instant of
    the current day, both held fixed during one run. *)
Record DateHost := {
  dfParse : string -> string -> option Date;
  newDate : string -> option Date;
  now : Date;
  startOfToday : Date
}.

(** Arithmetic on Numbers: the exact result rounded to binary64. Rounding is
    monotone and leaves the integers up to 2^53 as they are. *)
Record Binary64 := {
  rnd : Q -> Q;
  rnd_mono : forall x y : Q, x <= y -> rnd x <= rnd y;
  rnd_exact : forall n : Z, (Z.abs n <= 2 ^ 53)%Z -> rnd (inject_Z n) == inject_Z n
}.

(** ** The pipeline *)

Section Pipeline.

Context (host : DateHost) (fp : Binary64).

(** The formats of [parseDate], in the order they are tried. *)
Definition formats : list string :=
  ["d-MMM-yy"; "dd-MMM-yy"; "d-MMM-yyyy"; "dd-MMM-yyyy";
   "dd/MM/yyyy"; "d/M/yyyy"; "MM/dd/yyyy"; "M/d/yyyy";
   "yyyy-MM-dd";
   "d MMM yyyy"; "d MMMM yyyy";
   "MMM d, yyyy"].

(** The [for (const fmt of formats)] loop, with its early return. *)
Fixpoint parseDate_loop (cleanStr : string) (fmts : list string) : option Date :=
  match fmts with
  | [] => None
  | fmt :: rest =>
      match dfParse host cleanStr fmt with
      | Some parsed => Some parsed
      | None => parseDate_loop cleanStr rest
      end
  end.

Definition parseDate (dateStr : string) : option Date :=
  if negb (truthy dateStr) then None
  else
    let cleanStr := trim dateStr in
    if negb (truthy cleanStr) then None
    else
      match parseDate_loop cleanStr formats with
      | Some parsed => Some parsed
      | None => newDate host cleanStr
      end.

(** [isFuture], [isBefore(_, startOfToday())] and [compareAsc] of date-fns. *)
Definition isFuture (d : Date) : bool := (now host <? d)%Z.

Definition isBeforeToday (d : Date) : bool := (d <? startOfToday host)%Z.

Definition compareAsc (a b : Date) : Z :=
  if (a - b <? 0)%Z then (-1)%Z else if (0 <? a - b)%Z then 1%Z else (a - b)%Z.

(** Division and multiplication of Numbers, and [Math.round]. *)
Definition fdiv (a b : Q) : Q := rnd fp (a / b).
Definition fmul (a b : Q) : Q := rnd fp (a * b).
Definition Math_round (x : Q) : Z := Qfloor (x + (1 # 2)).

(** [total === 0 ? 0 : Math.round((completed / total) * 100)] *)
Definition percent (completed total : nat) : Z :=
  if (total =? 0)%nat then 0%Z
  else Math_round (fmul (fdiv (inject_Z (Z.of_nat completed))
                              (inject_Z (Z.of_nat total)))
                        (inject_Z 100)).

(** *** Record normalizer: the body of [results.data.map] *)

Definition statusRaw_of (statusKey : string) (row : Row) : string :=
  or_else (get row (Some statusKey)) "Pending".

Definition dateRaw_of (dateKey : option string) (row : Row) : string :=
  let rowValues := Object_values row in
  let dateRaw := or_else (get row dateKey) "" in
  if negb (truthy dateRaw) && (23 <? List.length rowValues)%nat
  then nth 23 rowValues ""
  else dateRaw.

Definition mkTask (descKey : option string) (statusKey : string)
    (dateKey : option string) (row : Row) (index : nat) : Task :=
  let description := or_else (get row descKey) "Untitled Task" in
  let statusRaw := statusRaw_of statusKey row in
  let dateRaw := dateRaw_of dateKey row in
  let isDone := includes (toLowerCase statusRaw) "done"
                || includes (toLowerCase statusRaw) "completed" in
  let status := if isDone then Done else Pending in
  let parsedDate := parseDate dateRaw in
  {| id := "task-" ++ NilZero.string_of_uint (Nat.to_uint index);
     description := description;
     status := status;
     date := dateRaw;
     parsedDate := parsedDate;
     department := determineDepartment description;
     raw := row |}.

(** *** Aggregator *)

(** [Object.keys(KEYWORDS)] followed by ['General']. *)
Definition allDepts : list DepartmentType := map fst KEYWORDS ++ [General].

(** The two [forEach] loops that fill [deptMap]. *)
Definition groupByDept (ts : list Task) : DeptMap :=
  let deptMap := fold_left (fun m d => map_set m d []) allDepts [] in
  fold_left
    (fun m t =>
       let current := match map_get m (department t) with
                      | Some l => l
                      | None => []
                      end in
       map_set m (department t) (current ++ [t]))
    ts deptMap.

(** [t.status === 'Done'] and [t.status !== 'Done'] *)
Definition doneTask (t : Task) : bool := status_eqb (status t) Done.

Definition notDone (t : Task) : bool := negb (doneTask t).

(** The predicate that selects [futureTasks]. *)
Definition isUpcoming (t : Task) : bool :=
  notDone t && match parsedDate t with
               | Some d => isFuture d
               | None => false
               end.

(** The predicate that selects the overdue tasks. *)
Definition isOverdue (t : Task) : bool :=
  notDone t && match parsedDate t with
               | Some d => isBeforeToday d
               | None => false
               end.

(** The comparator handed to [sort]; a missing date makes [compareAsc]
    return NaN, which [sort] reads as 0. *)
Definition byDate (a b : Task) : Z :=
  match parsedDate a, parsedDate b with
  | Some x, Some y => compareAsc x y
  | _, _ => 0%Z
  end.

(** The body of [deptMap.forEach], for an entry that is not skipped. *)
Definition statsOf (name : DepartmentType) (deptTasks : list Task) : DepartmentStats :=
  let total := List.length deptTasks in
  let completed := List.length (filter doneTask deptTasks) in
  let futureTasks := sort byDate (filter isUpcoming deptTasks) in
  let overdue := List.length (filter isOverdue deptTasks) in
  {| name := name;
     totalTasks := total;
     completedTasks := completed;
     percentage := percent completed total;
     nextDeadline := match futureTasks with
                     | t :: _ => parsedDate t
                     | [] => None
                     end;
     overdueCount := overdue |}.

Definition collectStats (deptMap : DeptMap) : list DepartmentStats :=
  flat_map
    (fun entry =>
       let '(name, deptTasks) := entry in
       if (List.length deptTasks =? 0)%nat && dept_eqb name General then []
       else [statsOf name deptTasks])
    deptMap.

(** *** The [complete] callback of [fetchAndProcessData]

    [fields] is [results.meta.fields], [data] is [results.data]. *)

(** [results.meta.fields || Object.keys(results.data[0])] *)
Definition headersOf (fields : option (list string)) (first : Row) : list string :=
  match fields with
  | Some f => f
  | None => Object_keys first
  end.

Definition processResults (fields : option (list string)) (data : list Row)
    : DashboardData :=
  match data with
  | [] => {| tasks := []; departmentStats := []; overallProgress := 0 |}
  | first :: _ =>
      let headers := headersOf fields first in
      let descKey := resolveDescKey headers in
      let statusKey := resolveStatusKey headers in
      let dateKey := resolveDateKey headers in
      let tasks := mapi (mkTask descKey statusKey dateKey) data in
      let departmentStats := collectStats (groupByDept tasks) in
      let totalAll := List.length tasks in
      let completedAll := List.length (filter doneTask tasks) in
      {| tasks := tasks;
         departmentStats :=
           filter (fun d => (0 <? totalTasks d)%nat) departmentStats;
         overallProgress := percent completedAll totalAll |}
  end.

End Pipeline.

(** ** The presentation layer

    The parts of the components that compute: the colour and the overdue
    total of [Dashboard], the filter, the sort and the overdue flag of
    [DepartmentDetails], the choice of badge of [StatusBadge], the width of
    [ProgressBar], the loading state of [App]. A piece of React state is a
    value passed in and returned; what is rendered is kept as the condition
    under which it is rendered. *)

(** The string a status stands for in the source. *)
Definition status_name (s : Status) : string :=
  match s with
  | Done => "Done"
  | Pending => "Pending"
  | In_Progress => "In Progress"
  end.

Module Dashboard.

Definition getDeptColor (name : string) : string :=
  if includes name "Finance" then "border-l-blue-500"
  else if includes name "HR" then "border-l-violet-500"
  else if includes name "Procurement" then "border-l-amber-500"
  else if includes name "Inventory" then "border-l-orange-500"
  else if includes name "Setup" then "border-l-slate-500"
  else if includes name "Project" then "border-l-indigo-500"
  else "border-l-emerald-500".

(** [data.departmentStats.reduce((acc, curr) => acc + curr.overdueCount, 0)] *)
Definition overdueTotal (data : DashboardData) : nat :=
  fold_left (fun acc curr => (acc + overdueCount curr)%nat) (departmentStats data) 0%nat.

End Dashboard.

Module DepartmentDetails.

Inductive SortKey := ByDescription | ByDate | ByStatus.

Inductive SortDirection := Asc | Desc.

(** ['all' | 'done' | 'pending'] *)
Inductive StatusFilter := AllStatuses | DoneOnly | PendingOnly.

Record SortConfig := { key : SortKey; direction : SortDirection }.

Definition sortKey_eqb (a b : SortKey) : bool :=
  match a, b with
  | ByDescription, ByDescription | ByDate, ByDate | ByStatus, ByStatus => true
  | _, _ => false
  end.

(** The initial value of [sortConfig]. *)
Definition initialSort : SortConfig := {| key := ByDate; direction := Asc |}.

(** The state update of [handleSort]. *)
Definition handleSort (k : SortKey) (current : SortConfig) : SortConfig :=
  {| key := k;
     direction := if sortKey_eqb (key current) k
                     && match direction current with Asc => true | Desc => false end
                  then Desc else Asc |}.

Section View.

(** [localeCompare] is [String.prototype.localeCompare], which depends on the
    locale of the host. *)
Context (host : DateHost) (localeCompare : string -> string -> Z).

(** The predicate of [tasks.filter]. *)
Definition shown (filter : string) (statusFilter : StatusFilter) (task : Task) : bool :=
  let matchesSearch :=
    includes (toLowerCase (description task)) (toLowerCase filter) in
  let matchesStatus :=
    match statusFilter with
    | AllStatuses => true
    | DoneOnly => status_eqb (status task) Done
    | PendingOnly => negb (status_eqb (status task) Done)
    end in
  matchesSearch && matchesStatus.

(** The comparator of [result.sort]. *)
Definition compareTasks (sortConfig : SortConfig) (a b : Task) : Z :=
  let directionMultiplier :=
    match direction sortConfig with Asc => 1%Z | Desc => (-1)%Z end in
  match key sortConfig with
  | ByDate =>
      match parsedDate a, parsedDate b with
      | None, None => 0%Z
      | None, Some _ => 1%Z
      | Some _, None => (-1)%Z
      | Some x, Some y => (compareAsc x y * directionMultiplier)%Z
      end
  | ByDescription =>
      (localeCompare (description a) (description b) * directionMultiplier)%Z
  | ByStatus =>
      (localeCompare (status_name (status a)) (status_name (status b))
       * directionMultiplier)%Z
  end.

Definition processedTasks (tasks : list Task) (filter : string)
    (statusFilter : StatusFilter) (sortConfig : SortConfig) : list Task :=
  sort (compareTasks sortConfig) (List.filter (shown filter statusFilter) tasks).

(** The flag computed for each row of the table. *)
Definition isOverdue (task : Task) : bool :=
  negb (status_eqb (status task) Done)
  && match parsedDate task with
     | Some d => isBeforeToday host d
     | None => false
     end.

End View.

End DepartmentDetails.

Module StatusBadge.

Inductive Badge :=
| DoneBadge
| OverdueBadge
| StatusText (status : string).

(** Which of the three badges the component returns. *)
Definition render (status : string) (isOverdue : bool) : Badge :=
  if status =? "Done" then DoneBadge
  else if isOverdue then OverdueBadge
  else StatusText status.

End StatusBadge.

Module ProgressBar.

(** [Math.min(100, Math.max(0, percentage))], on an integer percentage. *)
Definition width (percentage : Z) : Z := Z.min 100 (Z.max 0 percentage).

End ProgressBar.

Module App.

Record State := {
  data : option DashboardData;
  loading : bool;
  error : option string;
  selectedDept : option DepartmentStats
}.

(** The initial values of the four [useState] cells. *)
Definition initial : State :=
  {| data := None; loading := true; error := None; selectedDept := None |}.

Definition loadError : string :=
  "Failed to load data from Google Sheets. Please ensure the link is public and valid.".

(** [loadData], up to the [await]. *)
Definition loadData_start (s : State) : State :=
  {| data := data s; loading := true; error := None;
     selectedDept := selectedDept s |}.

(** [loadData], from the [await] on: [result] is the value
    [fetchAndProcessData] resolves to, or [None] when it rejects. *)
Definition loadData_settle (result : option DashboardData) (s : State) : State :=
  match result with
  | Some r =>
      {| data := Some r; loading := false; error := error s;
         selectedDept := selectedDept s |}
  | None =>
      {| data := data s; loading := false; error := Some loadError;
         selectedDept := selectedDept s |}
  end.

(** One call of [loadData] that is not overlapped by another. *)
Definition loadData (result : option DashboardData) (s : State) : State :=
  loadData_settle result (loadData_start s).

(** The calls of [loadData] one after the other, from the initial state. *)
Definition loads (results : list (option DashboardData)) : State :=
  fold_left (fun s r => loadData r s) results initial.

Definition setSelectedDept (d : option DepartmentStats) (s : State) : State :=
  {| data := data s; loading := loading s; error := error s; selectedDept := d |}.

(** The conditions under which the spinner, the error banner and the
    dashboard are rendered. *)
Definition showsSpinner (s : State) : bool :=
  loading s && match data s with Some _ => false | None => true end.

Definition showsError (s : State) : bool := truthy_opt (error s).

Definition showsDashboard (s : State) : bool :=
  negb (loading s) && match data s with Some _ => true | None => false end.

(** The props of [DepartmentDetails], when the modal is rendered. *)
Definition modal (s : State) : option (DepartmentStats * list Task) :=
  match selectedDept s, data s with
  | Some d, Some dat =>
      Some (d, List.filter (fun t => dept_eqb (department t) (name d)) (tasks dat))
  | _, _ => None
  end.

End App.

(** ** Reference hosts

    Concrete instances of [DateHost] and [Binary64], on which the pipeline
    can be run: the twelve formats read the way date-fns (locale en-US) reads
    them, in UTC, and [new Date] reading the ISO calendar-date form only,
    once rejecting a day the month does not have ([strict]) and once carrying
    it over into the next month ([lenient]); the ECMAScript standard leaves
    this choice to the engine. *)

Module Reference.

Definition isLeapYear (y : Z) : bool :=
  (((y mod 4 =? 0) && negb (y mod 100 =? 0)) || (y mod 400 =? 0))%Z.

Definition daysInMonth (y m : Z) : Z :=
  (if m =? 2 then (if isLeapYear y then 29 else 28)
   else if (m =? 4) || (m =? 6) || (m =? 9) || (m =? 11) then 30
   else 31)%Z.

(** Days between 1970-01-01 and the given day of the proleptic Gregorian
    calendar. *)
Definition daysFromCivil (y m d : Z) : Z :=
  (let y' := if m <=? 2 then y - 1 else y in
   let era := y' / 400 in
   let yoe := y' - era * 400 in
   let mp := (m + 9) mod 12 in
   let doy := (153 * mp + 2) / 5 + d - 1 in
   let doe := yoe * 365 + yoe / 4 - yoe / 100 + doy in
   era * 146097 + doe - 719468)%Z.

Definition msPerDay : Z := 86400000.

Definition msOfCivil (y m d : Z) : Date := (daysFromCivil y m d * msPerDay)%Z.

(** *** Format strings *)

Inductive Token :=
| Field (c : ascii) (width : nat)
| Literal (c : ascii).

Definition is_letter (c : ascii) : bool := is_upper c || is_lower c.

Fixpoint tokenize_from (cur : option (ascii * nat)) (fmt : string) : list Token :=
  let flush := match cur with
               | Some (c, n) => [Field c n]
               | None => []
               end in
  match fmt with
  | EmptyString => flush
  | String c r =>
      match cur with
      | Some (c0, n) =>
          if Ascii.eqb c c0 then tokenize_from (Some (c0, S n)) r
          else if is_letter c then flush ++ tokenize_from (Some (c, 1%nat)) r
          else flush ++ Literal c :: tokenize_from None r
      | None =>
          if is_letter c then tokenize_from (Some (c, 1%nat)) r
          else Literal c :: tokenize_from None r
      end
  end.

Definition tokenize (fmt : string) : list Token := tokenize_from None fmt.

(** *** Readers of one field *)

Definition digit_of (c : ascii) : option Z :=
  if is_digit c then Some (Z.of_nat (nat_of_ascii c) - 48)%Z else None.

(** The pattern [^\d{1,n}]. *)
Fixpoint read_digits_from (n : nat) (acc : Z) (s : string) : Z * string :=
  match n, s with
  | S k, String c r =>
      match digit_of c with
      | Some v => read_digits_from k (acc * 10 + v)%Z r
      | None => (acc, s)
      end
  | _, _ => (acc, s)
  end.

Definition read_digits (n : nat) (s : string) : option (Z * string) :=
  match s with
  | String c r =>
      match digit_of c with
      | Some v => Some (read_digits_from (Nat.pred n) v r)
      | None => None
      end
  | EmptyString => None
  end.

(** The pattern [^(3[0-1]|[0-2]?\d)] of the token [d]. *)
Definition read_day (s : string) : option (Z * string) :=
  match s with
  | String c1 r1 =>
      match digit_of c1 with
      | Some v1 =>
          match r1 with
          | String c2 r2 =>
              match digit_of c2 with
              | Some v2 =>
                  if ((v1 <=? 2) || ((v1 =? 3) && (v2 <=? 1)))%Z
                  then Some (v1 * 10 + v2, r2)%Z
                  else Some (v1, r1)
              | None => Some (v1, r1)
              end
          | EmptyString => Some (v1, r1)
          end
      | None => None
      end
  | EmptyString => None
  end.

(** The pattern [^(1[0-2]|0?\d)] of the token [M]. *)
Definition read_month (s : string) : option (Z * string) :=
  match s with
  | String c1 r1 =>
      match digit_of c1 with
      | Some v1 =>
          match r1 with
          | String c2 r2 =>
              match digit_of c2 with
              | Some v2 =>
                  if ((v1 =? 0) || ((v1 =? 1) && (v2 <=? 2)))%Z
                  then Some (v1 * 10 + v2, r2)%Z
                  else Some (v1, r1)
              | None => Some (v1, r1)
              end
          | EmptyString => Some (v1, r1)
          end
      | None => None
      end
  | EmptyString => None
  end.

Fixpoint drop (n : nat) (s : string) : string :=
  match n, s with
  | S k, String _ r => drop k r
  | _, _ => s
  end.

(** The first name, in the order of the list, the text starts with. *)
Fixpoint read_name_from (i : Z) (names : list string) (s : string)
    : option (Z * string) :=
  match names with
  | [] => None
  | nm :: rest =>
      if prefix nm (toLowerCase s) then Some (i, drop (String.length nm) s)
      else read_name_from (i + 1)%Z rest s
  end.

Definition wideMonths : list string :=
  ["january"; "february"; "march"; "april"; "may"; "june"; "july";
   "august"; "september"; "october"; "november"; "december"].

Definition abbreviatedMonths : list string :=
  ["jan"; "feb"; "mar"; "apr"; "may"; "jun"; "jul"; "aug"; "sep"; "oct";
   "nov"; "dec"].

Definition narrowMonths : list string :=
  ["j"; "f"; "m"; "a"; "m"; "j"; "j"; "a"; "s"; "o"; "n"; "d"].

Definition first_of {A : Type} (a b : option A) : option A :=
  match a with Some _ => a | None => b end.

Definition read_month_name (wide : bool) (s : string) : option (Z * string) :=
  let short := first_of (read_name_from 1 abbreviatedMonths s)
                        (read_name_from 1 narrowMonths s) in
  if wide then first_of (read_name_from 1 wideMonths s) short else short.

(** *** Reading a text against a format *)

Record Fields := {
  f_year : option (Z * bool);
  f_month : option Z;
  f_day : option Z
}.

Definition noFields : Fields :=
  {| f_year := None; f_month := None; f_day := None |}.

Definition read_field (c : ascii) (width : nat) (fs : Fields) (s : string)
    : option (Fields * string) :=
  if Ascii.eqb c "d" then
    match (if (width =? 1)%nat then read_day s else read_digits width s) with
    | Some (v, r) => Some ({| f_year := f_year fs; f_month := f_month fs;
                             f_day := Some v |}, r)
    | None => None
    end
  else if Ascii.eqb c "M" then
    match (if (width =? 1)%nat then read_month s
           else if (width =? 2)%nat then read_digits 2 s
           else read_month_name (4 <=? width)%nat s) with
    | Some (v, r) => Some ({| f_year := f_year fs; f_month := Some v;
                             f_day := f_day fs |}, r)
    | None => None
    end
  else if Ascii.eqb c "y" then
    match read_digits (if (width =? 1)%nat then 4 else width) s with
    | Some (v, r) => Some ({| f_year := Some (v, (width =? 2)%nat);
                             f_month := f_month fs; f_day := f_day fs |}, r)
    | None => None
    end
  else None.

Fixpoint read_tokens (toks : list Token) (fs : Fields) (s : string)
    : option (Fields * string) :=
  match toks with
  | [] => Some (fs, s)
  | Field c width :: rest =>
      match read_field c width fs s with
      | Some (fs', r) => read_tokens rest fs' r
      | None => None
      end
  | Literal c :: rest =>
      match s with
      | String c' r => if Ascii.eqb c c' then read_tokens rest fs r else None
      | EmptyString => None
      end
  end.

(** A two-digit year is the year within fifty years of the current one. *)
Definition normalizeTwoDigitYear (twoDigitYear currentYear : Z) : Z :=
  (if currentYear <=? 50 then (if twoDigitYear =? 0 then 100 else twoDigitYear)
   else
     let rangeEnd := currentYear + 50 in
     let rangeEndCentury := rangeEnd / 100 * 100 in
     let isPreviousCentury := rangeEnd mod 100 <=? twoDigitYear in
     twoDigitYear + rangeEndCentury - (if isPreviousCentury then 100 else 0))%Z.

Definition all_space (s : string) : bool := negb (truthy (trimStart s)).

Definition parse (currentYear : Z) (s fmt : string) : option Date :=
  match read_tokens (tokenize fmt) noFields s with
  | Some ({| f_year := Some (y, twoDigits); f_month := Some m; f_day := Some d |},
          rest) =>
      let year := if twoDigits then normalizeTwoDigitYear y currentYear else y in
      if all_space rest
         && (twoDigits || (0 <? y)%Z)
         && ((1 <=? m)%Z && (m <=? 12)%Z)
         && ((1 <=? d)%Z && (d <=? daysInMonth year m)%Z)
      then Some (msOfCivil year m d)
      else None
  | _ => None
  end.

(** *** [new Date(text)] on the form YYYY-MM-DD *)

Definition isoDate (lenient : bool) (s : string) : option Date :=
  match read_tokens (tokenize "yyyy-MM-dd") noFields s with
  | Some ({| f_year := Some (y, _); f_month := Some m; f_day := Some d |},
          EmptyString) =>
      if (String.length s =? 10)%nat
         && ((1 <=? m)%Z && (m <=? 12)%Z)
         && ((1 <=? d)%Z && (d <=? (if lenient then 31 else daysInMonth y m))%Z)
      then Some (msOfCivil y m 1 + (d - 1) * msPerDay)%Z
      else None
  | _ => None
  end.

(** The clock of the reference hosts: 2024-06-15, 12:00 UTC. *)
Definition strict : DateHost :=
  {| dfParse := parse 2024;
     newDate := isoDate false;
     now := (msOfCivil 2024 6 15 + 12 * 3600000)%Z;
     startOfToday := msOfCivil 2024 6 15 |}.

Definition lenient : DateHost :=
  {| dfParse := parse 2024;
     newDate := isoDate true;
     now := (msOfCivil 2024 6 15 + 12 * 3600000)%Z;
     startOfToday := msOfCivil 2024 6 15 |}.

(** The strict host a month later, 2024-07-16, 12:00 UTC. *)
Definition aMonthLater : DateHost :=
  {| dfParse := parse 2024;
     newDate := isoDate false;
     now := (msOfCivil 2024 7 16 + 12 * 3600000)%Z;
     startOfToday := msOfCivil 2024 7 16 |}.

(** *** Rounding to binary64

    Rounding to the nearest number with a significand of 53 bits, ties to
    the even significand, the exponent being unbounded: this is binary64
    rounding wherever neither overflow nor subnormal numbers occur, as for
    the quotients and products of counts the pipeline computes. *)

Definition pow2 (e : Z) : Q := Qpower 2 e.

(** The nearest integer, ties to the even one. *)
Definition roundHalfEven (x : Q) : Z :=
  let f := Qfloor x in
  match Qcompare (x - inject_Z f) (1 # 2) with
  | Lt => f
  | Gt => (f + 1)%Z
  | Eq => if Z.even f then f else (f + 1)%Z
  end.

(** The exponent [e] with [2^e <= x < 2^(e+1)], for a positive [x]. *)
Definition ilog2 (x : Q) : Z :=
  let d := (Z.log2 (Qnum x) - Z.log2 (Zpos (Qden x)))%Z in
  if Qle_bool (pow2 d) x then d else (d - 1)%Z.

Definition round_pos (x : Q) : Q :=
  let e := (ilog2 x - 52)%Z in
  inject_Z (roundHalfEven (x * pow2 (- e))) * pow2 e.

Definition roundToBinary64 (x : Q) : Q :=
  match Qnum x with
  | Z0 => 0
  | Zpos _ => round_pos x
  | Zneg _ => - round_pos (- x)
  end.

(** Arithmetic without rounding error. *)
Definition exact : Binary64.
Proof.
  refine {| rnd := fun x => x |}.
  - intros x y H; exact H.
  - intros n _; reflexivity.
Defined.

End Reference.

(** ** Rows of the scenarios *)

Module Scenario.

Definition payrollRow : Row :=
  [("Task", "Process payroll adjustments"); ("Status", "Completed");
   ("EDD", "15-Jan-24")].

Definition tenderRow : Row :=
  [("Task", "Tender for new warehouse racks"); ("Status", "");
   ("EDD", "2024-02-30")].

(** A row of twenty-four cells whose date column, the first one, is empty. *)
Definition shiftedRow : Row :=
  [("Date", ""); ("Task", "Install racks"); ("Status", "Open");
   ("D", ""); ("E", ""); ("F", ""); ("G", ""); ("H", ""); ("I", "");
   ("J", ""); ("K", ""); ("L", ""); ("M", ""); ("N", ""); ("O", "");
   ("P", ""); ("Q", ""); ("R", ""); ("S", ""); ("T", ""); ("U", "");
   ("V", ""); ("W", ""); ("X", "15-Jan-24")].

(** Twenty-three headers none of which names a date column. *)
Definition plainHeaders : list string :=
  ["ID"; "Task"; "Status"; "Owner"; "Phase"; "Module"; "Priority"; "Notes";
   "I"; "J"; "K"; "L"; "M"; "N"; "O"; "P"; "Q"; "R"; "S"; "T"; "U"; "V"; "W"].

(** Rows without a description: the cell is empty, or there is none. *)
Definition untitledRows : list Row :=
  [ [("Task", ""); ("Status", "Done"); ("EDD", "03/04/2024")];
    [("Status", "Open")] ].

(** Two departments: one task of two Done in the first, two of three in
    the second. *)
Definition twoDepartments : list Row :=
  [ [("Task", "Payroll run"); ("Status", "Done")];
    [("Task", "Salary review"); ("Status", "Open")];
    [("Task", "Bank reconciliation"); ("Status", "Done")];
    [("Task", "Tax filing"); ("Status", "Completed")];
    [("Task", "Audit plan"); ("Status", "Open")] ].

(** Forty payroll tasks, twenty-three of them Done. *)
Definition fortyRows : list Row :=
  repeat [("Task", "Payroll run"); ("Status", "Done")] 23
  ++ repeat [("Task", "Payroll run"); ("Status", "Open")] 17.

(** Ten payroll tasks, six of them Done; of the other four, one was due
    the day before the clock of the reference hosts and one is due a
    month after it. *)
Definition tenRows : list Row :=
  [ [("Task", "Payroll run 1"); ("Status", "Done"); ("EDD", "01-Jun-24")];
    [("Task", "Payroll run 2"); ("Status", "Done"); ("EDD", "02-Jun-24")];
    [("Task", "Payroll run 3"); ("Status", "done"); ("EDD", "")];
    [("Task", "Payroll run 4"); ("Status", "Completed"); ("EDD", "20-Jul-24")];
    [("Task", "Payroll run 5"); ("Status", "DONE"); ("EDD", "")];
    [("Task", "Payroll run 6"); ("Status", "Done"); ("EDD", "n/a")];
    [("Task", "Payroll run 7"); ("Status", "Open"); ("EDD", "14-Jun-24")];
    [("Task", "Payroll run 8"); ("Status", ""); ("EDD", "15-Jul-24")];
    [("Task", "Payroll run 9"); ("Status", "Open"); ("EDD", "")];
    [("Task", "Payroll run 10"); ("Status", "Waiting"); ("EDD", "tbd")] ].

End Scenario.

(** ** Notions of the specification *)

(** In the words of the specification: the normalized header equals or
    contains the normalized candidate. *)
Definition matches_candidate (candidate header : string) : bool :=
  (normalize header =? normalize candidate)
  || includes (normalize header) (normalize candidate).

(** [k] is the first header, in source order, that matches [candidate]. *)
Definition first_header (candidate : string) (headers : list string) (k : string) : Prop :=
  exists before after,
    headers = before ++ k :: after
    /\ matches_candidate candidate k = true
    /\ forall h, In h before -> matches_candidate candidate h = false.

(** The ordered synonym search: the first candidate that matches any header
    decides, and it selects the first header it matches. *)
Definition synonym_search (headers candidates : list string) (k : string) : Prop :=
  exists earlier candidate later,
    candidates = earlier ++ candidate :: later
    /\ (forall c h, In c earlier -> In h headers -> matches_candidate c h = false)
    /\ first_header candidate headers k.

(** The candidate that decides the search, when there is one. *)
Definition deciding_candidate (headers candidates : list string) : option string :=
  find (fun c => existsb (matches_candidate c) headers) candidates.

(** Every header matched by [candidate] is the same header. *)
Definition unambiguous (candidate : string) (headers : list string) : Prop :=
  forall h1 h2, In h1 headers -> In h2 headers ->
    matches_candidate candidate h1 = true ->
    matches_candidate candidate h2 = true -> h1 = h2.

(** [d] is what the first format, in the order of the list, that reads
    [text] makes of it. *)
Definition first_format (host : DateHost) (fmts : list string) (text : string)
    (d : Date) : Prop :=
  exists before fmt after,
    fmts = before ++ fmt :: after
    /\ dfParse host text fmt = Some d
    /\ forall f, In f before -> dfParse host text f = None.

(** No format of the list reads [text]. *)
Definition no_format (host : DateHost) (fmts : list string) (text : string) : Prop :=
  forall f, In f fmts -> dfParse host text f = None.

(** [word] occurs in [s] when letter case is ignored. *)
Definition contains_ignoring_case (s word : string) : Prop :=
  exists before mid after,
    s = (before ++ mid ++ after)%string /\ toLowerCase mid = toLowerCase word.

(** The tasks of one department, in the order of the task list. *)
Definition tasksOf (d : DepartmentType) (ts : list Task) : list Task :=
  filter (fun t => dept_eqb (department t) d) ts.

(** [m] is the parsed date of a task of department [d] that is not Done and
    whose parsed date is strictly after the current moment. *)
Definition upcoming (host : DateHost) (d : DepartmentType) (ts : list Task)
    (m : Date) : Prop :=
  exists t,
    In t ts /\ department t = d /\ status t <> Done
    /\ parsedDate t = Some m /\ (now host < m)%Z.

Fixpoint sum_of {A : Type} (f : A -> nat) (l : list A) : nat :=
  match l with
  | [] => 0%nat
  | x :: r => (f x + sum_of f r)%nat
  end.

(** In the words of the specification, the arithmetic being that of the
    rational numbers: round(completed / total x 100), a half rounded up as
    by [Math.round]. *)
Definition exact_percentage (completed total : nat) : Z :=
  Qfloor (inject_Z (Z.of_nat completed) / inject_Z (Z.of_nat total) * inject_Z 100
          + (1 # 2)).

(** completed / total x 100 lies halfway between two integers. *)
Definition halfway (completed total : nat) : Prop :=
  exists k : Z, (200 * Z.of_nat completed = (2 * k + 1) * Z.of_nat total)%Z.

(** [p] is an integer nearest to completed / total x 100: the one the
    specification names or, halfway between two integers, the one below. *)
Definition nearest_percentage (p : Z) (completed total : nat) : Prop :=
  p = exact_percentage completed total
  \/ (halfway completed total /\ p = (exact_percentage completed total - 1)%Z).

(** Every character of [s] satisfies [p]. *)
Fixpoint all_chars (p : ascii -> bool) (s : string) : bool :=
  match s with
  | EmptyString => true
  | String c r => p c && all_chars p r
  end.

(** A lowercase letter or a digit. *)
Definition alnum (c : ascii) : bool := is_lower c || is_digit c.

(** Some keyword of [words] occurs in [desc], letter case ignored. *)
Definition has_keyword (desc : string) (words : list string) : Prop :=
  exists w, In w words /\ contains_ignoring_case desc w.

(** The order in which [DepartmentDetails] shows two tasks sorted by date:
    a task with a parsed date before a task without, two parsed dates in
    the direction of the sort. *)
Definition dateOrder (dir : DepartmentDetails.SortDirection) (a b : Task) : Prop :=
  match parsedDate a, parsedDate b with
  | Some x, Some y =>
      match dir with
      | DepartmentDetails.Asc => (x <= y)%Z
      | DepartmentDetails.Desc => (y <= x)%Z
      end
  | Some _, None => True
  | None, Some _ => False
  | None, None => True
  end.

(** The last result of [results] that is not a failure. *)
Fixpoint lastSuccess (results : list (option DashboardData)) : option DashboardData :=
  match results with
  | [] => None
  | r :: rest =>
      match lastSuccess rest with
      | Some d => Some d
      | None => r
      end
  end.

(** * Properties *)

(** ** The primitives on concrete inputs *)

Example trim_cell : trim "  15-Jan-24 " = "15-Jan-24".
Proof. reflexivity. Qed.

Example trim_no_break_space :
  trim (String "160"%char "15-Jan-24 ") = "15-Jan-24".
Proof. reflexivity. Qed.

Example toLowerCase_latin1 :
  toLowerCase (String "201"%char "COLE 3" ++ String "215"%char "")%string
  = (String "233"%char "cole 3" ++ String "215"%char "")%string.
Proof. reflexivity. Qed.

Example trim_blank : trim "   " = "".
Proof. reflexivity. Qed.

Example normalize_header : normalize "EDD at Site (X)" = "eddatsitex".
Proof. reflexivity. Qed.

Example includes_inside : includes "work in progress - done" "done" = true.
Proof. reflexivity. Qed.

Example includes_absent : includes "pending" "done" = false.
Proof. reflexivity. Qed.

Example includes_empty : includes "abc" "" = true.
Proof. reflexivity. Qed.

Example keys_in_property_order :
  Object_keys [("b", "1"); ("10", "2"); ("2", "3"); ("01", "4"); ("a", "5")]
  = ["2"; "10"; "b"; "01"; "a"].
Proof. reflexivity. Qed.

Example undefined_key : get [("undefined", "x")] None = Some "x".
Proof. reflexivity. Qed.

Example find_status_column :
  findColumnKey ["ID"; "Task Description"; "Current Status"; "EDD"]
    statusCandidates = Some "Current Status".
Proof. reflexivity. Qed.

Example find_by_containment :
  findColumnKey ["ID"; "Target date (rev.)"] dateCandidates
  = Some "Target date (rev.)".
Proof. reflexivity. Qed.

Example department_first_match :
  determineDepartment "Payroll bank transfer" = HR_Payroll.
Proof. reflexivity. Qed.

Example department_default : determineDepartment "Team lunch" = General.
Proof. reflexivity. Qed.

Example sort_is_stable :
  sort (fun a b : Z * string => (fst a - fst b)%Z)
    [(2, "a"); (1, "b"); (2, "c"); (1, "d")]%Z
  = [(1, "b"); (1, "d"); (2, "a"); (2, "c")]%Z.
Proof. reflexivity. Qed.

Example parse_sheet_date :
  parseDate Reference.strict " 15-Jan-24 " = Some (Reference.msOfCivil 2024 1 15).
Proof. vm_compute. reflexivity. Qed.

Example parse_us_date :
  parseDate Reference.strict "Mar 3, 2025" = Some (Reference.msOfCivil 2025 3 3).
Proof. vm_compute. reflexivity. Qed.

Example parse_day_first :
  parseDate Reference.strict "03/04/2024" = Some (Reference.msOfCivil 2024 4 3).
Proof. vm_compute. reflexivity. Qed.

Example parse_unreadable : parseDate Reference.strict "next week" = None.
Proof. vm_compute. reflexivity. Qed.

(** ** Strings *)

Lemma prefix_iff (p s : string) :
  prefix p s = true <-> exists r, s = (p ++ r)%string.
Proof.
  revert s; induction p as [|a p IH]; intros s.
  - split; [intros _; exists s; reflexivity | destruct s; reflexivity].
  - destruct s as [|b s]; simpl.
    + split; [discriminate | intros [r Hr]; discriminate].
    + destruct (ascii_dec a b) as [->|Hab].
      * rewrite IH. split; intros [r Hr]; exists r.
        -- now rewrite Hr.
        -- now injection Hr.
      * split; [discriminate|]. intros [r Hr]. injection Hr as Hb _.
        now destruct Hab.
Qed.

Lemma includes_unfold (s sub : string) :
  includes s sub =
  if prefix sub s then true
  else match s with
       | EmptyString => false
       | String _ r => includes r sub
       end.
Proof. destruct s; reflexivity. Qed.


Lemma includes_iff (s sub : string) :
  includes s sub = true <-> exists before after, s = (before ++ sub ++ after)%string.
Proof.
  induction s as [|c s IH]; rewrite includes_unfold.
  - destruct (prefix sub "") eqn:P.
    + apply prefix_iff in P as [r Hr]. split; [|reflexivity].
      intros _. exists "", r. exact Hr.
    + split; [discriminate|]. intros [b [a H]].
      destruct b; [|discriminate]. simpl in H.
      assert (prefix sub "" = true) by (apply prefix_iff; now exists a).
      congruence.
  - destruct (prefix sub (String c s)) eqn:P.
    + apply prefix_iff in P as [r Hr]. split; [|reflexivity].
      intros _. exists "", r. exact Hr.
    + rewrite IH. split.
      * intros [b [a H]]. exists (String c b), a. simpl. now rewrite H.
      * intros [b [a H]]. destruct b as [|x b].
        -- simpl in H.
           assert (prefix sub (String c s) = true) by (apply prefix_iff; now exists a).
           congruence.
        -- simpl in H. injection H as _ H. now exists b, a.
Qed.

Lemma toLowerCase_app (a b : string) :
  toLowerCase (a ++ b) = (toLowerCase a ++ toLowerCase b)%string.
Proof. induction a as [|x a IH]; simpl; [reflexivity | now rewrite IH]. Qed.

Lemma toLowerCase_split (s a b : string) :
  toLowerCase s = (a ++ b)%string ->
  exists a' b', s = (a' ++ b')%string /\ toLowerCase a' = a /\ toLowerCase b' = b.
Proof.
  revert s; induction a as [|x a IH]; intros s H.
  - exists "", s. auto.
  - destruct s as [|c s]; [discriminate|]. simpl in H. injection H as Hx H.
    destruct (IH _ H) as [a' [b' [-> [Ha Hb]]]].
    exists (String c a'), b'. simpl. now rewrite Hx, Ha.
Qed.

(** [includes] after [toLowerCase] is containment ignoring case. *)
Lemma includes_lower_iff (s word : string) :
  toLowerCase word = word ->
  includes (toLowerCase s) word = true <-> contains_ignoring_case s word.
Proof.
  intros Hw. rewrite includes_iff. unfold contains_ignoring_case. rewrite Hw. split.
  - intros [b [a H]].
    destruct (toLowerCase_split _ _ _ H) as [b' [r [-> [Hb Hr]]]].
    destruct (toLowerCase_split _ _ _ Hr) as [m [a' [-> [Hm Ha]]]].
    now exists b', m, a'.
  - intros [b [m [a [-> Hm]]]].
    exists (toLowerCase b), (toLowerCase a).
    now rewrite !toLowerCase_app, Hm.
Qed.

Lemma truthy_iff (s : string) : truthy s = true <-> s <> "".
Proof. destruct s; simpl; split; congruence. Qed.

Lemma includes_nonempty (s sub : string) :
  includes s sub = true -> sub <> "" -> s <> "".
Proof.
  intros H Hs ->. apply includes_iff in H as [b [a H]].
  destruct b; [|discriminate]. destruct sub; [congruence | discriminate].
Qed.


Lemma normalize_nonempty (s : string) : normalize s <> "" -> s <> "".
Proof.
  unfold normalize. intros H ->. now apply H.
Qed.

(** A header matched by a candidate with a non-empty normal form is not
    empty. *)
Lemma matches_nonempty (c h : string) :
  matches_candidate c h = true -> normalize c <> "" -> h <> "".
Proof.
  unfold matches_candidate. intros H Hc. apply normalize_nonempty.
  apply orb_true_iff in H as [H|H].
  - apply String.eqb_eq in H. congruence.
  - eapply includes_nonempty; eauto.
Qed.

(** ** Lists *)

Lemma find_first_iff {A : Type} (p : A -> bool) (l : list A) (k : A) :
  find p l = Some k <->
  exists before after,
    l = before ++ k :: after /\ p k = true /\ forall h, In h before -> p h = false.
Proof.
  induction l as [|x l IH]; simpl.
  - split; [discriminate|]. intros [b [a [H _]]]. destruct b; discriminate.
  - destruct (p x) eqn:Px.
    + split.
      * intros [= ->]. exists [], l. repeat split; auto. intros h [].
      * intros [b [a [H [Pk Hb]]]]. destruct b as [|y b].
        -- simpl in H. now injection H as ->.
        -- simpl in H. injection H as Hxy _. subst y.
           rewrite (Hb x (or_introl eq_refl)) in Px. discriminate.
    + rewrite IH. split.
      * intros [b [a [-> [Pk Hb]]]]. exists (x :: b), a. repeat split; auto.
        intros h [<-|Hh]; auto.
      * intros [b [a [H [Pk Hb]]]]. destruct b as [|y b].
        -- simpl in H. injection H as Hxk _. congruence.
        -- simpl in H. injection H as Hxy Hl. subst y l.
           exists b, a. repeat split; auto.
           intros h Hh. apply Hb. now right.
Qed.

Lemma find_none_iff {A : Type} (p : A -> bool) (l : list A) :
  find p l = None <-> forall h, In h l -> p h = false.
Proof.
  split; [apply find_none|].
  induction l as [|x l IH]; simpl; intros H; [reflexivity|].
  rewrite (H x (or_introl eq_refl)). apply IH. intros h Hh. apply H. now right.
Qed.

Lemma find_map_comm {A B : Type} (f : A -> B) (p : B -> bool) (l : list A) :
  find p (map f l) = option_map f (find (fun a => p (f a)) l).
Proof.
  induction l as [|x l IH]; simpl; [reflexivity|].
  destruct (p (f x)); [reflexivity | exact IH].
Qed.

(** ** Column resolver *)

Lemma findColumnKey_nil (headers : list string) : findColumnKey headers [] = None.
Proof. destruct headers; reflexivity. Qed.

Lemma findColumnKey_cons (headers : list string) (c : string) (cs : list string) :
  findColumnKey headers (c :: cs) =
  match find (matches_candidate c) headers with
  | Some h => Some h
  | None => findColumnKey headers cs
  end.
Proof.
  destruct headers as [|h0 hs]; [reflexivity|].
  set (headers := h0 :: hs).
  change (findColumnKey headers (c :: cs))
    with (findColumnKey_loop
            (map (fun h => {| original := h; norm := normalize h |}) headers)
            (c :: cs)).
  change (findColumnKey headers cs)
    with (findColumnKey_loop
            (map (fun h => {| original := h; norm := normalize h |}) headers)
            cs).
  cbn [findColumnKey_loop]. rewrite find_map_comm.
  change (fun a : string =>
            header_matches (normalize c) {| original := a; norm := normalize a |})
    with (matches_candidate c).
  destruct (find (matches_candidate c) headers); reflexivity.
Qed.

(** [findColumnKey] is the ordered synonym search. *)
Lemma findColumnKey_some_iff (headers candidates : list string) (k : string) :
  findColumnKey headers candidates = Some k <-> synonym_search headers candidates k.
Proof.
  induction candidates as [|c cs IH].
  - rewrite findColumnKey_nil. split; [discriminate|].
    intros [e [c [l [H _]]]]. destruct e; discriminate.
  - rewrite findColumnKey_cons.
    destruct (find (matches_candidate c) headers) as [h|] eqn:F.
    + split.
      * intros [= ->]. exists [], c, cs. split; [reflexivity|]. split.
        -- intros c' h' [].
        -- now apply find_first_iff.
      * intros [e [c' [l [H [He Hf]]]]]. destruct e as [|c0 e].
        -- simpl in H. injection H as <- _.
           apply find_first_iff in Hf. congruence.
        -- simpl in H. injection H as <- _.
           apply find_some in F as [Hin Hm].
           rewrite (He c h (or_introl eq_refl) Hin) in Hm. discriminate.
    + rewrite IH. split.
      * intros [e [c' [l [-> [He Hf]]]]]. exists (c :: e), c', l.
        split; [reflexivity|]. split; [|exact Hf].
        intros c0 h [<-|Hc0] Hh.
        -- eapply find_none in F; eauto.
        -- now apply He.
      * intros [e [c' [l [H [He Hf]]]]]. destruct e as [|c0 e].
        -- simpl in H. injection H as <- _.
           apply find_first_iff in Hf. congruence.
        -- simpl in H. injection H as <- ->. exists e, c', l.
           split; [reflexivity|]. split; [|exact Hf].
           intros c1 h Hc1 Hh. apply He; [now right | exact Hh].
Qed.

Lemma findColumnKey_none_iff (headers candidates : list string) :
  findColumnKey headers candidates = None <->
  forall k, ~ synonym_search headers candidates k.
Proof.
  split.
  - intros H k Hk. apply findColumnKey_some_iff in Hk. congruence.
  - intros H. destruct (findColumnKey headers candidates) as [k|] eqn:E;
      [|reflexivity].
    apply findColumnKey_some_iff in E. now destruct (H k).
Qed.

(** The header the search selects is matched by one of the candidates. *)
Lemma synonym_search_matches (headers candidates : list string) (k : string) :
  synonym_search headers candidates k ->
  exists c, In c candidates /\ In k headers /\ matches_candidate c k = true.
Proof.
  intros [e [c [l [-> [_ [b [a [-> [Hm _]]]]]]]]].
  exists c. repeat split; auto; apply in_or_app; right; now left.
Qed.

Lemma findColumnKey_nonempty (headers candidates : list string) (k : string) :
  (forall c, In c candidates -> normalize c <> "") ->
  findColumnKey headers candidates = Some k -> k <> "".
Proof.
  intros Hc H. apply findColumnKey_some_iff, synonym_search_matches in H.
  destruct H as [c [Hin [_ Hm]]]. eapply matches_nonempty; eauto.
Qed.

Ltac candidates_nonempty :=
  let c := fresh "c" in
  let H := fresh "H" in
  intros c H; simpl in H;
  repeat (destruct H as [<-|H]; [vm_compute; discriminate|]);
  destruct H.

Lemma dateCandidates_nonempty c : In c dateCandidates -> normalize c <> "".
Proof. revert c. candidates_nonempty. Qed.

Lemma descCandidates_nonempty c : In c descCandidates -> normalize c <> "".
Proof. revert c. candidates_nonempty. Qed.

Lemma statusCandidates_nonempty c : In c statusCandidates -> normalize c <> "".
Proof. revert c. candidates_nonempty. Qed.

Lemma colXHeader_nth (headers : list string) :
  colXHeader headers = nth_error headers 23.
Proof.
  unfold colXHeader. destruct (23 <? List.length headers)%nat eqn:L;
    [reflexivity|].
  symmetry. apply nth_error_None. now apply Nat.ltb_ge.
Qed.

Lemma edd_header_nonempty (h : string) :
  includes (normalize h) "edd" = true -> truthy h = true.
Proof.
  intros H. apply truthy_iff, normalize_nonempty.
  eapply includes_nonempty; [exact H | discriminate].
Qed.

(** C3, as amended: the date column is the header at index 23 when its normal
    form contains "edd"; otherwise the header the ordered synonym search
    selects; otherwise the header at index 23 when it is not the empty
    string; otherwise none. *)
Theorem dateKey_priority (headers : list string) :
  (forall h, nth_error headers 23 = Some h ->
     includes (normalize h) "edd" = true ->
     resolveDateKey headers = Some h)
  /\ (forall k,
        (forall h, nth_error headers 23 = Some h ->
           includes (normalize h) "edd" = false) ->
        synonym_search headers dateCandidates k ->
        resolveDateKey headers = Some k)
  /\ (forall h, nth_error headers 23 = Some h -> h <> "" ->
        (forall k, ~ synonym_search headers dateCandidates k) ->
        resolveDateKey headers = Some h)
  /\ (nth_error headers 23 = None \/ nth_error headers 23 = Some "" ->
        (forall k, ~ synonym_search headers dateCandidates k) ->
        resolveDateKey headers = None).
Proof.
  unfold resolveDateKey. rewrite colXHeader_nth. repeat split.
  - intros h -> E. rewrite E, (edd_header_nonempty h E). simpl.
    now rewrite (edd_header_nonempty h E).
  - intros k Hx Hk. pose proof Hk as Hf. apply findColumnKey_some_iff in Hf.
    assert (Kt : truthy k = true).
    { apply truthy_iff.
      eapply findColumnKey_nonempty; [apply dateCandidates_nonempty | exact Hf]. }
    destruct (nth_error headers 23) as [h|].
    + rewrite (Hx h eq_refl), andb_false_r, Hf. simpl. now rewrite Kt.
    + rewrite Hf. simpl. now rewrite Kt.
  - intros h -> Hh Hn. apply findColumnKey_none_iff in Hn.
    apply truthy_iff in Hh. rewrite Hh.
    destruct (includes (normalize h) "edd"); simpl.
    + now rewrite Hh.
    + rewrite Hn. simpl. now rewrite Hh.
  - intros [-> | ->] Hn; apply findColumnKey_none_iff in Hn; simpl;
      now rewrite Hn.
Qed.

Lemma existsb_permutation {A : Type} (p : A -> bool) (l l' : list A) :
  Permutation l l' -> existsb p l' = existsb p l.
Proof.
  intros P. destruct (existsb p l) eqn:E.
  - apply existsb_exists in E as [x [Hx Px]]. apply existsb_exists.
    exists x. split; [eapply Permutation_in; eauto | exact Px].
  - destruct (existsb p l') eqn:E'; [|reflexivity].
    apply existsb_exists in E' as [x [Hx Px]].
    assert (existsb p l = true); [|congruence].
    apply existsb_exists. exists x. split; [|exact Px].
    eapply Permutation_in; [apply Permutation_sym|]; eauto.
Qed.

Lemma find_existsb {A : Type} (p : A -> bool) (l : list A) :
  existsb p l = false -> find p l = None.
Proof.
  intros E. apply find_none_iff. intros h Hh.
  destruct (p h) eqn:Ph; [|reflexivity].
  assert (existsb p l = true); [|congruence].
  apply existsb_exists. now exists h.
Qed.

(** When only one element satisfies [p], [find] does not depend on the order
    of the list. *)
Lemma find_permutation {A : Type} (p : A -> bool) (l l' : list A) :
  Permutation l l' ->
  (forall a b, In a l -> In b l -> p a = true -> p b = true -> a = b) ->
  find p l' = find p l.
Proof.
  intros P U.
  destruct (find p l) as [a|] eqn:F; destruct (find p l') as [b|] eqn:F';
    try reflexivity.
  - apply find_some in F as [Ha Pa]. apply find_some in F' as [Hb Pb].
    f_equal. apply U; auto.
    eapply Permutation_in; [apply Permutation_sym|]; eauto.
  - apply find_some in F as [Ha Pa].
    eapply find_none in F'; [|eapply Permutation_in; eauto]. congruence.
  - apply find_some in F' as [Hb Pb].
    eapply find_none in F;
      [|eapply Permutation_in; [apply Permutation_sym|]; eauto]. congruence.
Qed.

Lemma findColumnKey_permutation (candidates headers headers' : list string)
    (c : string) :
  Permutation headers headers' ->
  deciding_candidate headers candidates = Some c ->
  unambiguous c headers ->
  findColumnKey headers' candidates = findColumnKey headers candidates
  /\ findColumnKey headers candidates <> None.
Proof.
  intros P. unfold deciding_candidate.
  induction candidates as [|c0 cs IH]; simpl; [discriminate|].
  rewrite !findColumnKey_cons.
  destruct (existsb (matches_candidate c0) headers) eqn:E.
  - intros [= ->] U. rewrite (find_permutation _ _ _ P U).
    apply existsb_exists in E as [h [Hh Ph]].
    destruct (find (matches_candidate c) headers) eqn:F.
    + split; [reflexivity | discriminate].
    + eapply find_none in F; eauto. congruence.
  - intros D U.
    rewrite (find_existsb _ _ E).
    rewrite <- (existsb_permutation _ _ _ P) in E.
    rewrite (find_existsb _ _ E). now apply IH.
Qed.

Lemma dateKey_priority_witness :
  resolveDateKey (Scenario.plainHeaders ++ ["EDD at Site"; "Due Date"])%list
    = Some "EDD at Site"
  /\ resolveDateKey (Scenario.plainHeaders ++ ["Due"])%list = Some "Due".
Proof.
  split.
  - apply (proj1 (dateKey_priority _)); reflexivity.
  - apply (proj1 (proj2 (proj2 (dateKey_priority _)))).
    + reflexivity.
    + discriminate.
    + apply findColumnKey_none_iff. reflexivity.
Defined.

(** C3, as stated, fails when the header at index 23 is the empty string:
    no synonym matches, a 24th header exists, and no date column is
    resolved. *)
Lemma dateKey_last_resort_fails_on_empty_header :
  ~ (forall headers h,
       nth_error headers 23 = Some h ->
       (forall k, ~ synonym_search headers dateCandidates k) ->
       resolveDateKey headers = Some h).
Proof.
  intros H.
  specialize (H (Scenario.plainHeaders ++ [""])%list "" eq_refl).
  assert (N : forall k,
             ~ synonym_search (Scenario.plainHeaders ++ [""])%list dateCandidates k)
    by (apply findColumnKey_none_iff; reflexivity).
  specialize (H N). vm_compute in H. discriminate.
Qed.

(** C9, as amended: when, for the description and for the status role, the
    first synonym that matches any header matches one header only, permuting
    the headers changes neither selected column. *)
Theorem resolution_order_independent (headers headers' : list string)
    (cd cs : string) :
  Permutation headers headers' ->
  deciding_candidate headers descCandidates = Some cd ->
  unambiguous cd headers ->
  deciding_candidate headers statusCandidates = Some cs ->
  unambiguous cs headers ->
  resolveDescKey headers' = resolveDescKey headers
  /\ resolveStatusKey headers' = resolveStatusKey headers.
Proof.
  intros P Dd Ud Ds Us.
  destruct (findColumnKey_permutation _ _ _ _ P Dd Ud) as [Ed Nd].
  destruct (findColumnKey_permutation _ _ _ _ P Ds Us) as [Es Ns].
  unfold resolveDescKey, resolveStatusKey. rewrite Ed, Es. split.
  - destruct (findColumnKey headers descCandidates) as [k|] eqn:F;
      [|now destruct Nd].
    apply findColumnKey_nonempty in F; [|apply descCandidates_nonempty].
    apply truthy_iff in F. unfold or_else_opt. simpl. now rewrite F.
  - reflexivity.
Qed.

Lemma resolution_order_independent_witness :
  resolveDescKey ["Owner"; "Task"; "Status"] = resolveDescKey ["Status"; "Task"; "Owner"]
  /\ resolveStatusKey ["Owner"; "Task"; "Status"]
     = resolveStatusKey ["Status"; "Task"; "Owner"].
Proof.
  apply (resolution_order_independent
           ["Status"; "Task"; "Owner"] ["Owner"; "Task"; "Status"]
           "Task" "Status").
  - apply (Permutation_rev ["Status"; "Task"; "Owner"]).
  - reflexivity.
  - intros h1 h2 H1 H2; simpl in H1, H2;
      repeat (destruct H1 as [<-|H1]); try destruct H1;
      repeat (destruct H2 as [<-|H2]); try destruct H2;
      vm_compute; congruence.
  - reflexivity.
  - intros h1 h2 H1 H2; simpl in H1, H2;
      repeat (destruct H1 as [<-|H1]); try destruct H1;
      repeat (destruct H2 as [<-|H2]); try destruct H2;
      vm_compute; congruence.
Defined.

(** C9, as stated, fails when a synonym matches two headers: the first of
    them in source order is selected, and swapping them changes it. *)
Lemma resolution_depends_on_header_order :
  ~ (forall headers headers',
       Permutation headers headers' ->
       findColumnKey headers descCandidates <> None ->
       findColumnKey headers statusCandidates <> None ->
       resolveDescKey headers' = resolveDescKey headers
       /\ resolveStatusKey headers' = resolveStatusKey headers).
Proof.
  intros H.
  specialize (H ["Status"; "Old Status"; "Task"] ["Old Status"; "Status"; "Task"]).
  destruct H as [_ H].
  - apply perm_swap.
  - vm_compute. discriminate.
  - vm_compute. discriminate.
  - vm_compute in H. discriminate.
Qed.

(** ** Record normalizer *)

Lemma mapi_from_nth {A B : Type} (f : A -> nat -> B) (l : list A) (i n : nat) :
  nth_error (mapi_from f i l) n = option_map (fun x => f x (i + n)%nat) (nth_error l n).
Proof.
  revert i n; induction l as [|x l IH]; intros i n.
  - destruct n; reflexivity.
  - destruct n as [|n]; simpl.
    + now rewrite Nat.add_0_r.
    + rewrite IH. now rewrite Nat.add_succ_comm.
Qed.


(** The task list is the row-by-row image of the data under [mkTask], with
    the columns resolved once from the headers. *)
Lemma tasks_processResults (host : DateHost) (fp : Binary64)
    (fields : option (list string)) (data : list Row) :
  let headers := headersOf fields (hd [] data) in
  tasks (processResults host fp fields data)
  = mapi (mkTask host (resolveDescKey headers) (resolveStatusKey headers)
            (resolveDateKey headers)) data.
Proof. destruct data; reflexivity. Qed.

Lemma tasks_length (host : DateHost) (fp : Binary64)
    (fields : option (list string)) (data : list Row) :
  List.length (tasks (processResults host fp fields data)) = List.length data.
Proof.
  rewrite tasks_processResults. cbv zeta. unfold mapi. generalize 0%nat.
  generalize (mkTask host (resolveDescKey (headersOf fields (hd [] data)))
                (resolveStatusKey (headersOf fields (hd [] data)))
                (resolveDateKey (headersOf fields (hd [] data)))).
  intros f. induction data as [|r l IH]; intros i; [reflexivity|].
  cbn [mapi_from List.length]. now rewrite IH.
Qed.

Lemma task_of_row (host : DateHost) (fp : Binary64)
    (fields : option (list string)) (data : list Row) (i : nat) (row : Row) :
  nth_error data i = Some row ->
  let headers := headersOf fields (hd [] data) in
  nth_error (tasks (processResults host fp fields data)) i
  = Some (mkTask host (resolveDescKey headers) (resolveStatusKey headers)
            (resolveDateKey headers) row i).
Proof.
  intros H. cbv zeta. rewrite tasks_processResults. unfold mapi.
  now rewrite mapi_from_nth, H.
Qed.

Lemma mkTask_status (host : DateHost) (descKey : option string)
    (statusKey : string) (dateKey : option string) (row : Row) (i : nat) :
  status (mkTask host descKey statusKey dateKey row i)
  = if includes (toLowerCase (statusRaw_of statusKey row)) "done"
       || includes (toLowerCase (statusRaw_of statusKey row)) "completed"
    then Done else Pending.
Proof. reflexivity. Qed.

(** C2: the status text is the cell of the resolved status column when it is
    present and not empty, and "Pending" otherwise; the task is Done exactly
    when that text contains "done" or "completed", letter case ignored, and
    Pending in every other case. *)
Theorem status_classification (host : DateHost) (fp : Binary64)
    (fields : option (list string)) (data : list Row) (i : nat) (row : Row) :
  nth_error data i = Some row ->
  let statusKey := resolveStatusKey (headersOf fields (hd [] data)) in
  exists t v,
    nth_error (tasks (processResults host fp fields data)) i = Some t
    /\ (forall c, get row (Some statusKey) = Some c -> c <> "" -> v = c)
    /\ (get row (Some statusKey) = None \/ get row (Some statusKey) = Some "" ->
        v = "Pending")
    /\ (status t = Done <->
        contains_ignoring_case v "done" \/ contains_ignoring_case v "completed")
    /\ (status t = Pending <->
        ~ (contains_ignoring_case v "done" \/ contains_ignoring_case v "completed")).
Proof.
  intros H statusKey.
  eexists. exists (statusRaw_of statusKey row).
  split; [apply (task_of_row host fp fields data i row H)|].
  split; [|split].
  - unfold statusRaw_of, or_else. intros c -> Hc.
    apply truthy_iff in Hc. now rewrite Hc.
  - unfold statusRaw_of, or_else. intros [-> | ->]; reflexivity.
  - rewrite mkTask_status.
    fold statusKey.
    pose proof (includes_lower_iff (statusRaw_of statusKey row) "done" eq_refl) as D.
    pose proof (includes_lower_iff (statusRaw_of statusKey row) "completed" eq_refl) as C.
    destruct (includes (toLowerCase (statusRaw_of statusKey row)) "done");
      destruct (includes (toLowerCase (statusRaw_of statusKey row)) "completed");
      simpl; intuition (try discriminate; auto).
Qed.

Lemma status_classification_witness :
  exists t,
    nth_error (tasks (processResults Reference.strict Reference.exact None
                        [Scenario.payrollRow])) 0 = Some t
    /\ status t = Done.
Proof.
  destruct (status_classification Reference.strict Reference.exact None
              [Scenario.payrollRow] 0 Scenario.payrollRow eq_refl)
    as [t [v [Ht [Hv [_ [HD _]]]]]].
  exists t. split; [exact Ht|]. apply HD. right.
  rewrite (Hv "Completed" eq_refl); [|discriminate].
  exists "", "Completed", "". split; reflexivity.
Defined.

Lemma mkTask_date (host : DateHost) (descKey : option string)
    (statusKey : string) (dateKey : option string) (row : Row) (i : nat) :
  date (mkTask host descKey statusKey dateKey row i) = dateRaw_of dateKey row
  /\ parsedDate (mkTask host descKey statusKey dateKey row i)
     = parseDate host (dateRaw_of dateKey row).
Proof. split; reflexivity. Qed.

(** C8, as amended: when the cell of the resolved date column is missing or
    empty, the date text is the 24th of the row's values exactly when the
    row has at least 24 values, and stays empty otherwise. *)
Theorem positional_date_fallback (host : DateHost) (fp : Binary64)
    (fields : option (list string)) (data : list Row) (i : nat) (row : Row) :
  nth_error data i = Some row ->
  let dateKey := resolveDateKey (headersOf fields (hd [] data)) in
  get row dateKey = None \/ get row dateKey = Some "" ->
  exists t,
    nth_error (tasks (processResults host fp fields data)) i = Some t
    /\ ((24 <= List.length (Object_values row))%nat ->
        nth_error (Object_values row) 23 = Some (date t))
    /\ ((List.length (Object_values row) < 24)%nat -> date t = "").
Proof.
  intros H dateKey E. eexists.
  split; [apply (task_of_row host fp fields data i row H)|].
  fold dateKey. rewrite (proj1 (mkTask_date _ _ _ _ _ _)).
  unfold dateRaw_of.
  assert (R : or_else (get row dateKey) "" = "") by (destruct E as [-> | ->]; reflexivity).
  rewrite R. change (negb (truthy "")) with true. rewrite andb_true_l.
  split; intros L.
  - apply Nat.ltb_lt in L as L'. rewrite L'. now apply nth_error_nth'.
  - assert (L' : (23 <? List.length (Object_values row))%nat = false)
      by (apply Nat.ltb_ge; lia).
    now rewrite L'.
Qed.

Lemma positional_date_fallback_witness :
  exists t,
    nth_error (tasks (processResults Reference.strict Reference.exact None
                        [Scenario.shiftedRow])) 0 = Some t
    /\ date t = "15-Jan-24".
Proof.
  destruct (positional_date_fallback Reference.strict Reference.exact None
              [Scenario.shiftedRow] 0 Scenario.shiftedRow eq_refl
              (or_intror eq_refl))
    as [t [Ht [Hd _]]].
  exists t. split; [exact Ht|].
  assert (L : (24 <= List.length (Object_values Scenario.shiftedRow))%nat)
    by (vm_compute; lia).
  specialize (Hd L). vm_compute in Hd. now injection Hd.
Defined.

(** C8, as stated, fails on a row of exactly 24 values: it has no more than
    24 values, and yet the 24th value becomes the date text. *)
Lemma positional_fallback_at_24_values :
  ~ (forall (host : DateHost) (fp : Binary64) (fields : option (list string))
            (data : list Row) (i : nat) (row : Row),
       nth_error data i = Some row ->
       let dateKey := resolveDateKey (headersOf fields (hd [] data)) in
       get row dateKey = None \/ get row dateKey = Some "" ->
       exists t,
         nth_error (tasks (processResults host fp fields data)) i = Some t
         /\ ((24 < List.length (Object_values row))%nat ->
             nth_error (Object_values row) 23 = Some (date t))
         /\ ((List.length (Object_values row) <= 24)%nat -> date t = "")).
Proof.
  intros H.
  destruct (H Reference.strict Reference.exact None [Scenario.shiftedRow] 0%nat
              Scenario.shiftedRow eq_refl (or_intror eq_refl))
    as [t [Ht [_ Hd]]].
  vm_compute in Ht. injection Ht as <-.
  assert (L : (List.length (Object_values Scenario.shiftedRow) <= 24)%nat)
    by (vm_compute; lia).
  specialize (Hd L). vm_compute in Hd. discriminate.
Qed.

(** ** Date parsing *)

Lemma parseDate_loop_some_iff (host : DateHost) (text : string)
    (fmts : list string) (d : Date) :
  parseDate_loop host text fmts = Some d <-> first_format host fmts text d.
Proof.
  unfold first_format. induction fmts as [|fmt fmts IH]; simpl.
  - split; [discriminate|]. intros [b [f [a [H _]]]]. destruct b; discriminate.
  - destruct (dfParse host text fmt) as [p|] eqn:P.
    + split.
      * intros [= ->]. exists [], fmt, fmts. repeat split; auto. intros f [].
      * intros [b [f [a [H [Hf Hb]]]]]. destruct b as [|f0 b]; simpl in H.
        -- injection H as <- _. congruence.
        -- injection H as <- _.
           rewrite (Hb fmt (or_introl eq_refl)) in P. discriminate.
    + rewrite IH. split.
      * intros [b [f [a [-> [Hf Hb]]]]]. exists (fmt :: b), f, a.
        repeat split; auto. intros f0 [<-|H0]; auto.
      * intros [b [f [a [H [Hf Hb]]]]]. destruct b as [|f0 b]; simpl in H.
        -- injection H as <- _. congruence.
        -- injection H as <- ->. exists b, f, a. repeat split; auto.
           intros f1 H1. apply Hb. now right.
Qed.

Lemma parseDate_loop_none_iff (host : DateHost) (text : string)
    (fmts : list string) :
  parseDate_loop host text fmts = None <-> no_format host fmts text.
Proof.
  unfold no_format. induction fmts as [|fmt fmts IH]; simpl.
  - split; [intros _ f [] | reflexivity].
  - destruct (dfParse host text fmt) as [p|] eqn:P.
    + split; [discriminate|]. intros H.
      rewrite (H fmt (or_introl eq_refl)) in P. discriminate.
    + rewrite IH. split.
      * intros H f [<-|Hf]; auto.
      * intros H f Hf. apply H. now right.
Qed.

Lemma parseDate_blank (host : DateHost) (s : string) :
  trim s = "" -> parseDate host s = None.
Proof.
  intros E. unfold parseDate. rewrite E. simpl. now destruct (truthy s).
Qed.

Lemma parseDate_nonblank (host : DateHost) (s : string) :
  trim s <> "" ->
  parseDate host s =
  match parseDate_loop host (trim s) formats with
  | Some parsed => Some parsed
  | None => newDate host (trim s)
  end.
Proof.
  intros E. unfold parseDate.
  assert (S : truthy s = true).
  { destruct s; [now destruct E | reflexivity]. }
  apply truthy_iff in E. now rewrite S, E.
Qed.

(** The fallback chain of [parseDate], on the text stripped of surrounding
    white space. *)
Lemma parseDate_chain (host : DateHost) (s : string) :
  (forall d, parseDate host s = Some d <->
     trim s <> ""
     /\ (first_format host formats (trim s) d
         \/ (no_format host formats (trim s) /\ newDate host (trim s) = Some d)))
  /\ (parseDate host s = None <->
      trim s = ""
      \/ (no_format host formats (trim s) /\ newDate host (trim s) = None)).
Proof.
  destruct (string_dec (trim s) "") as [E|E].
  - rewrite (parseDate_blank host s E). split.
    + intros d. split; [discriminate | intros [N _]; now destruct N].
    + split; auto.
  - rewrite (parseDate_nonblank host s E).
    destruct (parseDate_loop host (trim s) formats) as [p|] eqn:L.
    + split.
      * intros d. split.
        -- intros [= ->]. split; [exact E|]. left.
           now apply parseDate_loop_some_iff.
        -- intros [_ [F | [N _]]].
           ++ apply parseDate_loop_some_iff in F. congruence.
           ++ apply parseDate_loop_none_iff in N. congruence.
      * split; [discriminate|]. intros [B | [N _]]; [now destruct E|].
        apply parseDate_loop_none_iff in N. congruence.
    + apply parseDate_loop_none_iff in L. split.
      * intros d. split.
        -- intros Hd. split; [exact E|]. right. now split.
        -- intros [_ [F | [_ Hd]]]; [|exact Hd].
           apply parseDate_loop_some_iff in F.
           apply parseDate_loop_none_iff in L. congruence.
      * split.
        -- intros Hn. right. now split.
        -- intros [B | [_ Hn]]; [now destruct E | exact Hn].
Qed.

(** C4: the date text of a task is the text found for the row, as it is; its
    parsed date is what the first of the explicit formats, in their order,
    makes of that text (stripped of surrounding white space), or else what
    [new Date] makes of it, and is absent when the text is blank or when
    neither reads it. [parseDate] is a total function: every text has a
    result, absent or present. *)
Theorem unparseable_date_is_absent (host : DateHost) (fp : Binary64)
    (fields : option (list string)) (data : list Row) (i : nat) (row : Row) :
  nth_error data i = Some row ->
  let dateKey := resolveDateKey (headersOf fields (hd [] data)) in
  exists t,
    nth_error (tasks (processResults host fp fields data)) i = Some t
    /\ (forall c, get row dateKey = Some c -> c <> "" -> date t = c)
    /\ (forall d, parsedDate t = Some d <->
          trim (date t) <> ""
          /\ (first_format host formats (trim (date t)) d
              \/ (no_format host formats (trim (date t))
                  /\ newDate host (trim (date t)) = Some d)))
    /\ (parsedDate t = None <->
          trim (date t) = ""
          \/ (no_format host formats (trim (date t))
              /\ newDate host (trim (date t)) = None)).
Proof.
  intros H dateKey. eexists.
  split; [apply (task_of_row host fp fields data i row H)|].
  fold dateKey.
  destruct (mkTask_date host
              (resolveDescKey (headersOf fields (hd [] data)))
              (resolveStatusKey (headersOf fields (hd [] data)))
              dateKey row i) as [-> ->].
  split; [|apply parseDate_chain].
  intros c Hc Ne. unfold dateRaw_of, or_else. rewrite Hc.
  apply truthy_iff in Ne. cbv beta iota zeta.
  rewrite Ne. cbv beta iota. rewrite Ne. reflexivity.
Qed.

Ltac each_format :=
  let f := fresh "f" in
  let H := fresh "H" in
  intros f H; simpl in H;
  repeat (destruct H as [<-|H]; [vm_compute; reflexivity|]);
  destruct H.

Lemma unparseable_date_is_absent_witness :
  exists t,
    nth_error (tasks (processResults Reference.strict Reference.exact None
                        [Scenario.tenderRow])) 0 = Some t
    /\ date t = "2024-02-30" /\ parsedDate t = None.
Proof.
  destruct (unparseable_date_is_absent Reference.strict Reference.exact None
              [Scenario.tenderRow] 0 Scenario.tenderRow eq_refl)
    as [t [Ht [Hd [_ Hn]]]].
  exists t. split; [exact Ht|].
  assert (D : date t = "2024-02-30") by (apply Hd; [reflexivity | discriminate]).
  split; [exact D|]. apply Hn. right. rewrite D. split.
  - each_format.
  - reflexivity.
Defined.

(** ** The scenario of the tender row *)

(** C1, as amended: the row is normalized to a task with status Pending, date
    text "2024-02-30" and department Inventory & Stores: in the keyword table
    the entry of "warehouse" comes before the entry of "tender", and no
    earlier entry has a keyword the description contains. Its parsed date is
    absent exactly on a host where neither an explicit format nor [new Date]
    reads "2024-02-30". *)
Theorem tender_row_normalized (host : DateHost) (fp : Binary64)
    (fields : option (list string)) :
  headersOf fields Scenario.tenderRow = ["Task"; "Status"; "EDD"] ->
  exists t,
    tasks (processResults host fp fields [Scenario.tenderRow]) = [t]
    /\ status t = Pending
    /\ (parsedDate t = None <->
        no_format host formats "2024-02-30" /\ newDate host "2024-02-30" = None)
    /\ date t = "2024-02-30"
    /\ department t = Inventory_Stores
    /\ exists before ws after ws',
         KEYWORDS = (before ++ (Inventory_Stores, ws) :: after)%list
         /\ In "warehouse" ws
         /\ In (Projects_Sales, ws') after
         /\ In "tender" ws'
         /\ forall d words w, In (d, words) before -> In w words ->
              includes (toLowerCase (description t)) w = false.
Proof.
  intros Hh.
  exists (mkTask host (Some "Task") "Status" (Some "EDD") Scenario.tenderRow 0).
  split.
  { rewrite tasks_processResults. cbv zeta.
    change (hd [] [Scenario.tenderRow]) with Scenario.tenderRow.
    rewrite Hh. reflexivity. }
  split; [reflexivity|].
  split.
  { rewrite (proj2 (mkTask_date _ _ _ _ _ _)).
    change (dateRaw_of (Some "EDD") Scenario.tenderRow) with "2024-02-30".
    rewrite (proj2 (parseDate_chain host "2024-02-30")).
    change (trim "2024-02-30") with "2024-02-30". split.
    - intros [B | H]; [discriminate | exact H].
    - intros H. now right. }
  split; [reflexivity|].
  split; [reflexivity|].
  exists (firstn 3 KEYWORDS), (snd (nth 3 KEYWORDS (General, []))),
         (skipn 4 KEYWORDS), (snd (nth 5 KEYWORDS (General, []))).
  split; [reflexivity|].
  split; [simpl; tauto|].
  split; [simpl; tauto|].
  split; [simpl; tauto|].
  intros d words w Hb Hw. simpl in Hb.
  repeat (destruct Hb as [Hb|Hb];
          [injection Hb as <- <-; simpl in Hw;
           repeat (destruct Hw as [<-|Hw]; [vm_compute; reflexivity|]);
           destruct Hw|]).
  destruct Hb.
Qed.

Lemma tender_row_normalized_witness :
  exists t,
    tasks (processResults Reference.strict Reference.exact None
             [Scenario.tenderRow]) = [t]
    /\ status t = Pending /\ parsedDate t = None /\ date t = "2024-02-30"
    /\ department t = Inventory_Stores.
Proof.
  destruct (tender_row_normalized Reference.strict Reference.exact None eq_refl)
    as [t [Ht [Hs [Hp [Hd [Hk _]]]]]].
  exists t. repeat split; try assumption.
  apply Hp. split.
  - unfold no_format. each_format.
  - reflexivity.
Defined.

(** C1, as stated, fails: the department of the task is not Projects &
    Sales. *)
Lemma tender_row_is_not_projects_sales :
  ~ (exists t,
       tasks (processResults Reference.strict Reference.exact None
                [Scenario.tenderRow]) = [t]
       /\ status t = Pending
       /\ parsedDate t = None
       /\ date t = "2024-02-30"
       /\ department t = Projects_Sales).
Proof.
  intros [t [Ht [_ [_ [_ Hd]]]]].
  vm_compute in Ht. injection Ht as <-. vm_compute in Hd. discriminate.
Qed.

(** On a host whose [new Date] carries the thirtieth of February over into
    March, the same row has a parsed date, the first of March. *)
Remark tender_row_on_lenient_host :
  map parsedDate
    (tasks (processResults Reference.lenient Reference.exact None
              [Scenario.tenderRow]))
  = [Some (Reference.msOfCivil 2024 3 1)].
Proof. vm_compute. reflexivity. Qed.

(** The scenario of the payroll row, on the reference host. *)
Remark payroll_row_normalized :
  map (fun t => (department t, status t, parsedDate t))
    (tasks (processResults Reference.strict Reference.exact None
              [Scenario.payrollRow]))
  = [(HR_Payroll, Done, Some (Reference.msOfCivil 2024 1 15))].
Proof. vm_compute. reflexivity. Qed.

(** ** Aggregator: grouping *)

Lemma tasksOf_snoc (d : DepartmentType) (seen : list Task) (t : Task) :
  tasksOf d (seen ++ [t])
  = tasksOf d seen ++ (if dept_eqb (department t) d then [t] else []).
Proof.
  unfold tasksOf. rewrite filter_app. simpl.
  destruct (dept_eqb (department t) d); reflexivity.
Qed.

(** One step of the second [forEach]: the task joins the list of its
    department and no other. *)
Lemma group_step (seen : list Task) (t : Task) :
  let m := map (fun d => (d, tasksOf d seen)) allDepts in
  map_set m (department t)
    (match map_get m (department t) with
     | Some l => l
     | None => []
     end ++ [t])
  = map (fun d => (d, tasksOf d (seen ++ [t]))) allDepts.
Proof.
  cbv zeta. cbv [allDepts KEYWORDS map fst app].
  rewrite !tasksOf_snoc.
  destruct (department t); cbn; rewrite ?app_nil_r; reflexivity.
Qed.

Lemma group_fold (ts seen : list Task) :
  fold_left
    (fun m t =>
       map_set m (department t)
         (match map_get m (department t) with
          | Some l => l
          | None => []
          end ++ [t]))
    ts (map (fun d => (d, tasksOf d seen)) allDepts)
  = map (fun d => (d, tasksOf d (seen ++ ts))) allDepts.
Proof.
  revert seen; induction ts as [|t ts IH]; intros seen; cbn [fold_left].
  - now rewrite app_nil_r.
  - pose proof (group_step seen t) as G. cbv zeta in G.
    rewrite G, IH, <- app_assoc. reflexivity.
Qed.

(** The map holds, for every declared department in the declared order, the
    tasks of that department in the order of the task list. *)
Lemma groupByDept_spec (ts : list Task) :
  groupByDept ts = map (fun d => (d, tasksOf d ts)) allDepts.
Proof.
  unfold groupByDept.
  change (fold_left (fun m d => map_set m d []) allDepts [])
    with (map (fun d => (d, tasksOf d [])) allDepts).
  apply (group_fold ts []).
Qed.

Lemma in_collectStats (host : DateHost) (fp : Binary64) (m : DeptMap)
    (d : DepartmentStats) :
  In d (filter (fun d => (0 <? totalTasks d)%nat) (collectStats host fp m)) <->
  exists dept l, In (dept, l) m /\ l <> [] /\ d = statsOf host fp dept l.
Proof.
  rewrite filter_In. unfold collectStats. rewrite in_flat_map. split.
  - intros [[[dept l] [Hin Hd]] Hpos].
    destruct ((List.length l =? 0)%nat && dept_eqb dept General); [destruct Hd|].
    destruct Hd as [<-|[]]. exists dept, l. repeat split; auto.
    intros ->. discriminate.
  - intros [dept [l [Hin [Hl ->]]]]. split.
    + exists (dept, l). split; [exact Hin|].
      destruct l as [|t l]; [now destruct Hl|]. simpl. now left.
    + destruct l as [|t l]; [now destruct Hl | reflexivity].
Qed.

Lemma departmentStats_processResults (host : DateHost) (fp : Binary64)
    (fields : option (list string)) (data : list Row) :
  departmentStats (processResults host fp fields data)
  = filter (fun d => (0 <? totalTasks d)%nat)
      (collectStats host fp
         (groupByDept (tasks (processResults host fp fields data)))).
Proof. destruct data; reflexivity. Qed.

(** Every entry of the output statistics is computed from the tasks of its
    department, which are not none. *)
Lemma stats_entry (host : DateHost) (fp : Binary64)
    (fields : option (list string)) (data : list Row) (d : DepartmentStats) :
  let out := processResults host fp fields data in
  In d (departmentStats out) ->
  d = statsOf host fp (name d) (tasksOf (name d) (tasks out))
  /\ tasksOf (name d) (tasks out) <> [].
Proof.
  cbv zeta. rewrite departmentStats_processResults, in_collectStats.
  rewrite groupByDept_spec.
  intros [dept [l [Hin [Hl ->]]]].
  apply in_map_iff in Hin as [d0 [E _]]. injection E as -> <-.
  split; [reflexivity | exact Hl].
Qed.

Lemma filter_filter_and {A : Type} (f g : A -> bool) (l : list A) :
  filter f (filter g l) = filter (fun x => g x && f x) l.
Proof.
  induction l as [|x l IH]; simpl; [reflexivity|].
  destruct (g x); simpl; [destruct (f x)|]; now rewrite IH.
Qed.

Lemma dept_eqb_eq (a b : DepartmentType) : dept_eqb a b = true <-> a = b.
Proof. destruct a, b; simpl; split; congruence. Qed.

Lemma notDone_iff (t : Task) : notDone t = true <-> status t <> Done.
Proof. unfold notDone, doneTask. destruct (status t); simpl; split; congruence. Qed.

(** ** Aggregator: overdue count *)

(** C5: the overdue count of a department is the number of tasks of the
    output, each counted once, that belong to the department, are not Done,
    have a parsed date, and whose parsed date is strictly before the start
    of the current day. *)
Theorem overdueCount_spec (host : DateHost) (fp : Binary64)
    (fields : option (list string)) (data : list Row) (d : DepartmentStats) :
  let out := processResults host fp fields data in
  In d (departmentStats out) ->
  exists overdue,
    overdueCount d = List.length overdue
    /\ overdue = filter (fun t => dept_eqb (department t) (name d)
                                  && isOverdue host t) (tasks out)
    /\ forall t, In t overdue <->
         In t (tasks out) /\ department t = name d /\ status t <> Done
         /\ exists dt, parsedDate t = Some dt /\ (dt < startOfToday host)%Z.
Proof.
  intros out Hd. destruct (stats_entry host fp fields data d Hd) as [E _].
  fold out in E.
  exists (filter (fun t => dept_eqb (department t) (name d) && isOverdue host t)
            (tasks out)).
  split; [|split; [reflexivity|]].
  - rewrite E at 1. simpl. unfold tasksOf. now rewrite filter_filter_and.
  - intros t. rewrite filter_In, andb_true_iff, dept_eqb_eq.
    unfold isOverdue, isBeforeToday. rewrite andb_true_iff, notDone_iff.
    split.
    + intros [Hin [Hdep [Hs Hp]]]. repeat split; auto.
      destruct (parsedDate t) as [dt|]; [|discriminate].
      exists dt. split; [reflexivity | now apply Z.ltb_lt].
    + intros [Hin [Hdep [Hs [dt [Hp Hlt]]]]]. repeat split; auto.
      rewrite Hp. now apply Z.ltb_lt.
Qed.

(** ** Aggregator: next deadline *)

Lemma compareAsc_neg (a b : Date) : (compareAsc a b <? 0)%Z = (a <? b)%Z.
Proof.
  unfold compareAsc.
  destruct (a - b <? 0)%Z eqn:N; [|destruct (0 <? a - b)%Z eqn:P].
  - apply Z.ltb_lt in N. symmetry. apply Z.ltb_lt. lia.
  - apply Z.ltb_ge in N. symmetry. apply Z.ltb_ge. lia.
  - rewrite N. apply Z.ltb_ge in N. symmetry. apply Z.ltb_ge. lia.
Qed.

Lemma sort_cons {A : Type} (cmp : A -> A -> Z) (x : A) (l : list A) :
  sort cmp (x :: l) = insert cmp x (sort cmp l).
Proof. reflexivity. Qed.

(** Sorting rearranges the array. *)
Lemma sort_permutation {A : Type} (cmp : A -> A -> Z) (l : list A) :
  Permutation (sort cmp l) l.
Proof.
  induction l as [|x l IH]; [constructor|].
  rewrite sort_cons. apply Permutation_trans with (x :: sort cmp l);
    [|now constructor].
  generalize (sort cmp l). clear. intros l.
  induction l as [|y r IH]; simpl; [apply Permutation_refl|].
  destruct (cmp y x <? 0)%Z; [|apply Permutation_refl].
  apply Permutation_trans with (y :: x :: r); [now constructor | constructor].
Qed.

(** The first element of the sorted array has the least date. *)
Lemma sort_head (l : list Task) :
  Forall (fun t => parsedDate t <> None) l ->
  match sort byDate l with
  | [] => l = []
  | t :: _ =>
      In t l
      /\ forall t' m m', In t' l -> parsedDate t = Some m ->
           parsedDate t' = Some m' -> (m <= m')%Z
  end.
Proof.
  induction l as [|x l IH]; intros F; [reflexivity|].
  inversion F as [|? ? Hx Hl]; subst. specialize (IH Hl).
  rewrite sort_cons. destruct (sort byDate l) as [|y r] eqn:S.
  - subst l. simpl. split; [now left|].
    intros t' m m' [<-|[]] Hm Hm'. rewrite Hm in Hm'. injection Hm' as <-. lia.
  - destruct IH as [Hy Hmin]. simpl.
    destruct (parsedDate x) as [dx|] eqn:Dx; [|now destruct Hx].
    assert (Dy : exists dy, parsedDate y = Some dy).
    { rewrite Forall_forall in Hl. specialize (Hl y Hy).
      destruct (parsedDate y) as [dy|]; [now exists dy | now destruct Hl]. }
    destruct Dy as [dy Dy].
    unfold byDate at 1. rewrite Dx, Dy, compareAsc_neg.
    destruct (dy <? dx)%Z eqn:C.
    + apply Z.ltb_lt in C. split; [now right|].
      intros t' m m' [<-|Ht'] Hm Hm'.
      * rewrite Dy in Hm. rewrite Dx in Hm'.
        injection Hm as <-. injection Hm' as <-. lia.
      * now apply (Hmin t' m m').
    + apply Z.ltb_ge in C. split; [now left|].
      intros t' m m' [<-|Ht'] Hm Hm'.
      * rewrite Hm in Hm'. injection Hm' as <-. lia.
      * rewrite Dx in Hm. injection Hm as <-.
        specialize (Hmin t' dy m' Ht' Dy Hm'). lia.
Qed.

Lemma in_upcoming_tasks (host : DateHost) (d : DepartmentType)
    (ts : list Task) (t : Task) :
  In t (filter (isUpcoming host) (tasksOf d ts)) <->
  In t ts /\ department t = d /\ status t <> Done
  /\ exists m, parsedDate t = Some m /\ (now host < m)%Z.
Proof.
  unfold tasksOf. rewrite !filter_In, dept_eqb_eq.
  unfold isUpcoming, isFuture. rewrite andb_true_iff, notDone_iff. split.
  - intros [[Hin Hd] [Hs Hp]]. repeat split; auto.
    destruct (parsedDate t) as [m|]; [|discriminate].
    exists m. split; [reflexivity | now apply Z.ltb_lt].
  - intros [Hin [Hd [Hs [m [Hp Hlt]]]]]. repeat split; auto.
    rewrite Hp. now apply Z.ltb_lt.
Qed.

(** C6: the next deadline of a department is the earliest parsed date among
    its tasks that are not Done and whose parsed date is present and strictly
    after the current moment; it is absent exactly when there is no such
    task. *)
Theorem nextDeadline_spec (host : DateHost) (fp : Binary64)
    (fields : option (list string)) (data : list Row) (d : DepartmentStats) :
  let out := processResults host fp fields data in
  In d (departmentStats out) ->
  (forall m, nextDeadline d = Some m <->
     upcoming host (name d) (tasks out) m
     /\ forall m', upcoming host (name d) (tasks out) m' -> (m <= m')%Z)
  /\ (nextDeadline d = None <->
      forall m, ~ upcoming host (name d) (tasks out) m).
Proof.
  intros out Hd. destruct (stats_entry host fp fields data d Hd) as [E _].
  fold out in E.
  set (F := filter (isUpcoming host) (tasksOf (name d) (tasks out))).
  assert (N : nextDeadline d = match sort byDate F with
                               | t :: _ => parsedDate t
                               | [] => None
                               end) by (rewrite E at 1; reflexivity).
  assert (U : forall m, upcoming host (name d) (tasks out) m <->
                        exists t, In t F /\ parsedDate t = Some m).
  { intros m. unfold upcoming, F. split.
    - intros [t [Hin [Hdep [Hs [Hp Hlt]]]]]. exists t. split; [|exact Hp].
      apply in_upcoming_tasks. repeat split; auto. now exists m.
    - intros [t [Hin Hp]]. exists t.
      apply in_upcoming_tasks in Hin as [Hin [Hdep [Hs [m0 [Hp0 Hlt]]]]].
      rewrite Hp in Hp0. injection Hp0 as <-. repeat split; auto. }
  assert (P : Forall (fun t => parsedDate t <> None) F).
  { apply Forall_forall. intros t Ht.
    apply in_upcoming_tasks in Ht as [_ [_ [_ [m [Hp _]]]]]. congruence. }
  pose proof (sort_head F P) as H. rewrite N.
  destruct (sort byDate F) as [|t r].
  - split.
    + intros m. split; [discriminate|].
      intros [Hu _]. apply U in Hu as [t [Ht _]]. rewrite H in Ht. destruct Ht.
    + split; [|reflexivity]. intros _ m Hu.
      apply U in Hu as [t [Ht _]]. rewrite H in Ht. destruct Ht.
  - destruct H as [Ht Hmin].
    assert (M : exists m0, parsedDate t = Some m0).
    { rewrite Forall_forall in P. specialize (P t Ht).
      destruct (parsedDate t) as [m0|]; [now exists m0 | now destruct P]. }
    destruct M as [m0 M]. rewrite M.
    assert (U0 : upcoming host (name d) (tasks out) m0)
      by (apply U; now exists t).
    assert (L0 : forall m', upcoming host (name d) (tasks out) m' -> (m0 <= m')%Z).
    { intros m' Hu. apply U in Hu as [t' [Ht' Hp']].
      now apply (Hmin t' m0 m'). }
    split.
    + intros m. split.
      * intros [= <-]. split; assumption.
      * intros [Hu Hl]. f_equal. specialize (Hl m0 U0). specialize (L0 m Hu). lia.
    + split; [discriminate|]. intros Hn. now destruct (Hn m0).
Qed.

(** The scenario of the ten payroll tasks, on the reference host. *)
Remark ten_rows_statistics :
  departmentStats (processResults Reference.strict Reference.exact None
                     Scenario.tenRows)
  = [ {| name := HR_Payroll; totalTasks := 10; completedTasks := 6;
         percentage := 60;
         nextDeadline := Some (Reference.msOfCivil 2024 7 15);
         overdueCount := 1 |} ].
Proof. vm_compute. reflexivity. Qed.

Lemma overdueCount_spec_witness :
  let out := processResults Reference.strict Reference.exact None
               Scenario.tenRows in
  exists d overdue,
    In d (departmentStats out)
    /\ overdueCount d = List.length overdue
    /\ forall t, In t overdue -> status t <> Done /\ parsedDate t <> None.
Proof.
  intros out.
  assert (Hin : In (statsOf Reference.strict Reference.exact HR_Payroll
                      (tasksOf HR_Payroll (tasks out)))
                   (departmentStats out))
    by (vm_compute; left; reflexivity).
  destruct (overdueCount_spec Reference.strict Reference.exact None
              Scenario.tenRows _ Hin) as [overdue [Hc [_ Ho]]].
  eexists. exists overdue. split; [exact Hin|]. split; [exact Hc|].
  intros t Ht. apply Ho in Ht as [_ [_ [Hs [dt [Hp _]]]]].
  split; [exact Hs | congruence].
Defined.

Lemma nextDeadline_spec_witness :
  upcoming Reference.strict HR_Payroll
    (tasks (processResults Reference.strict Reference.exact None
              Scenario.tenRows))
    (Reference.msOfCivil 2024 7 15).
Proof.
  assert (Hin : In (statsOf Reference.strict Reference.exact HR_Payroll
                      (tasksOf HR_Payroll
                         (tasks (processResults Reference.strict
                                   Reference.exact None Scenario.tenRows))))
                   (departmentStats
                      (processResults Reference.strict Reference.exact None
                         Scenario.tenRows)))
    by (vm_compute; left; reflexivity).
  destruct (nextDeadline_spec Reference.strict Reference.exact None
              Scenario.tenRows _ Hin) as [Hs _].
  apply (Hs (Reference.msOfCivil 2024 7 15)). vm_compute. reflexivity.
Defined.

(** ** Aggregator: counts *)

Lemma sum_of_app {A : Type} (f : A -> nat) (l l' : list A) :
  sum_of f (l ++ l') = (sum_of f l + sum_of f l')%nat.
Proof. induction l as [|x l IH]; simpl; [reflexivity | rewrite IH; lia]. Qed.

Lemma sum_of_map {A B : Type} (f : B -> nat) (g : A -> B) (l : list A) :
  sum_of f (map g l) = sum_of (fun x => f (g x)) l.
Proof. induction l as [|x l IH]; simpl; [reflexivity | now rewrite IH]. Qed.

(** Dropping the entries without tasks changes neither sum. *)
Lemma sum_totalTasks_filter (l : list DepartmentStats) :
  sum_of totalTasks (filter (fun d => (0 <? totalTasks d)%nat) l)
  = sum_of totalTasks l.
Proof.
  induction l as [|d l IH]; simpl; [reflexivity|].
  destruct (0 <? totalTasks d)%nat eqn:P; simpl; rewrite IH; [reflexivity|].
  apply Nat.ltb_ge in P. lia.
Qed.

Lemma sum_completedTasks_filter (l : list DepartmentStats) :
  Forall (fun d => (completedTasks d <= totalTasks d)%nat) l ->
  sum_of completedTasks (filter (fun d => (0 <? totalTasks d)%nat) l)
  = sum_of completedTasks l.
Proof.
  induction l as [|d l IH]; intros F; simpl; [reflexivity|].
  inversion F as [|? ? Hd Hl]; subst.
  destruct (0 <? totalTasks d)%nat eqn:P; simpl; rewrite (IH Hl);
    [reflexivity|].
  apply Nat.ltb_ge in P. lia.
Qed.

Lemma statsOf_counts (host : DateHost) (fp : Binary64) (d : DepartmentType)
    (l : list Task) :
  totalTasks (statsOf host fp d l) = List.length l
  /\ completedTasks (statsOf host fp d l) = List.length (filter doneTask l)
  /\ (completedTasks (statsOf host fp d l) <= totalTasks (statsOf host fp d l))%nat.
Proof.
  repeat split. simpl. apply filter_length_le.
Qed.

Lemma collectStats_sums (host : DateHost) (fp : Binary64) (m : DeptMap) :
  sum_of totalTasks (collectStats host fp m)
  = sum_of (fun e => List.length (snd e)) m
  /\ sum_of completedTasks (collectStats host fp m)
     = sum_of (fun e => List.length (filter doneTask (snd e))) m
  /\ Forall (fun d => (completedTasks d <= totalTasks d)%nat)
       (collectStats host fp m).
Proof.
  unfold collectStats.
  induction m as [|[dept l] m [IHt [IHc IHf]]]; simpl.
  - repeat split. constructor.
  - destruct ((List.length l =? 0)%nat && dept_eqb dept General) eqn:Skip.
    + apply andb_true_iff in Skip as [L _]. apply Nat.eqb_eq in L.
      destruct l; [|discriminate]. simpl. now repeat split.
    + rewrite !sum_of_app, IHt, IHc. simpl. rewrite !Nat.add_0_r.
      repeat split. constructor; [apply filter_length_le | exact IHf].
Qed.

(** Every task belongs to one of the declared departments and to one only. *)
Lemma tasksOf_partition (l : list Task) :
  sum_of (fun d => List.length (tasksOf d l)) allDepts = List.length l.
Proof.
  induction l as [|t l IH]; [reflexivity|].
  cbv [allDepts KEYWORDS map fst app sum_of] in IH |- *.
  unfold tasksOf in IH |- *. cbn [filter].
  destruct (department t); cbn [dept_eqb List.length]; lia.
Qed.

Lemma tasksOf_filter (p : Task -> bool) (d : DepartmentType) (l : list Task) :
  filter p (tasksOf d l) = tasksOf d (filter p l).
Proof.
  unfold tasksOf. rewrite !filter_filter_and. apply filter_ext.
  intros t. apply andb_comm.
Qed.

Lemma sum_of_ext {A : Type} (f g : A -> nat) (l : list A) :
  (forall x, f x = g x) -> sum_of f l = sum_of g l.
Proof.
  intros E. induction l as [|x l IH]; simpl; [reflexivity | now rewrite E, IH].
Qed.

Lemma overallProgress_processResults (host : DateHost) (fp : Binary64)
    (fields : option (list string)) (data : list Row) :
  let out := processResults host fp fields data in
  overallProgress out
  = percent fp (List.length (filter doneTask (tasks out))) (List.length (tasks out)).
Proof. destruct data; reflexivity. Qed.

(** C10: the entries of the output statistics partition the task list: their
    task counts add up to the number of tasks, their completed counts to the
    number of Done tasks, and the overall progress is the percentage of
    these two sums. *)
Theorem stats_partition_tasks (host : DateHost) (fp : Binary64)
    (fields : option (list string)) (data : list Row) :
  let out := processResults host fp fields data in
  sum_of totalTasks (departmentStats out) = List.length (tasks out)
  /\ sum_of completedTasks (departmentStats out)
     = List.length (filter doneTask (tasks out))
  /\ overallProgress out
     = percent fp (sum_of completedTasks (departmentStats out))
                  (sum_of totalTasks (departmentStats out)).
Proof.
  intros out.
  assert (T : sum_of totalTasks (departmentStats out) = List.length (tasks out)).
  { unfold out. rewrite departmentStats_processResults, sum_totalTasks_filter.
    rewrite (proj1 (collectStats_sums _ _ _)), groupByDept_spec, sum_of_map.
    apply tasksOf_partition. }
  assert (C : sum_of completedTasks (departmentStats out)
              = List.length (filter doneTask (tasks out))).
  { unfold out. rewrite departmentStats_processResults.
    rewrite sum_completedTasks_filter by apply collectStats_sums.
    rewrite (proj1 (proj2 (collectStats_sums _ _ _))), groupByDept_spec, sum_of_map.
    rewrite <- tasksOf_partition. apply sum_of_ext.
    intros d. simpl. now rewrite tasksOf_filter. }
  split; [exact T|]. split; [exact C|].
  rewrite T, C. apply overallProgress_processResults.
Qed.

(** ** Binary64 rounding

    The rounding of the reference host is monotone and leaves the integers
    up to 2^53 as they are: it is a model of [Binary64]. *)

Section Binary64Facts.

Import Reference.
Local Open Scope Q_scope.

Lemma pow2_pos (e : Z) : 0 < pow2 e.
Proof. apply Qpower_0_lt. reflexivity. Qed.

Lemma pow2_add (a b : Z) : pow2 (a + b) == pow2 a * pow2 b.
Proof. apply Qpower_plus. discriminate. Qed.

Lemma pow2_le (a b : Z) : (a <= b)%Z -> pow2 a <= pow2 b.
Proof. intros H. apply Qpower_le_compat_l; [exact H | discriminate]. Qed.

Lemma pow2_Z (n : Z) : (0 <= n)%Z -> pow2 n == inject_Z (2 ^ n).
Proof. intros H. unfold pow2. now rewrite Zpower_Qpower. Qed.


Lemma roundHalfEven_bounds (x : Q) :
  (Qfloor x <= roundHalfEven x <= Qfloor x + 1)%Z.
Proof.
  unfold roundHalfEven.
  destruct (Qcompare (x - inject_Z (Qfloor x)) (1 # 2));
    [destruct (Z.even (Qfloor x))| |]; lia.
Qed.

Lemma roundHalfEven_mono (x y : Q) : x <= y -> (roundHalfEven x <= roundHalfEven y)%Z.
Proof.
  intros H. pose proof (Qfloor_resp_le x y H) as F.
  pose proof (roundHalfEven_bounds x) as Bx.
  pose proof (roundHalfEven_bounds y) as By.
  destruct (Z.eq_dec (Qfloor x) (Qfloor y)) as [E|N]; [|lia].
  unfold roundHalfEven. rewrite <- E.
  destruct (Qcompare (x - inject_Z (Qfloor x)) (1 # 2)) eqn:Cx;
    destruct (Qcompare (y - inject_Z (Qfloor x)) (1 # 2)) eqn:Cy;
    try (destruct (Z.even (Qfloor x))); try lia; exfalso;
    repeat match goal with
           | C : Qcompare _ _ = Eq |- _ => apply Qeq_alt in C
           | C : Qcompare _ _ = Lt |- _ => apply Qlt_alt in C
           | C : Qcompare _ _ = Gt |- _ => apply Qgt_alt in C
           end; lra.
Qed.

Lemma roundHalfEven_Z (n : Z) : roundHalfEven (inject_Z n) = n.
Proof.
  unfold roundHalfEven. rewrite Qfloor_Z.
  assert (C : Qcompare (inject_Z n - inject_Z n) (1 # 2) = Lt).
  { apply Qlt_alt. unfold Qminus. rewrite Qplus_opp_r. reflexivity. }
  now rewrite C.
Qed.

Lemma roundHalfEven_comp (x y : Q) : x == y -> roundHalfEven x = roundHalfEven y.
Proof.
  intros E. apply Z.le_antisymm; apply roundHalfEven_mono; rewrite E; apply Qle_refl.
Qed.

Lemma ilog2_spec (x : Q) : 0 < x -> pow2 (ilog2 x) <= x < pow2 (ilog2 x + 1).
Proof.
  intros Hx. destruct x as [p q]. 
  assert (Hp : (0 < p)%Z).
  { unfold Qlt in Hx. simpl in Hx. lia. }
  unfold ilog2. cbn [Qnum Qden].
  set (a := Z.log2 p). set (b := Z.log2 (Z.pos q)).
  pose proof (Z.log2_spec p Hp) as [Pa Pa']. fold a in Pa, Pa'.
  pose proof (Z.log2_spec (Z.pos q) eq_refl) as [Pb Pb']. fold b in Pb, Pb'.
  assert (A0 : (0 <= a)%Z) by apply Z.log2_nonneg.
  assert (B0 : (0 <= b)%Z) by apply Z.log2_nonneg.
  assert (X : (p # q) * inject_Z (Z.pos q) == inject_Z p).
  { rewrite (Qmake_Qdiv p q). field. discriminate. }
  assert (Q0 : 0 < inject_Z (Z.pos q)) by reflexivity.
  (* upper: x < pow2 (a - b + 1) *)
  assert (U : p # q < pow2 (a - b + 1)).
  { apply (Qmult_lt_r _ _ (pow2 b) (pow2_pos b)).
    rewrite <- pow2_add. replace (a - b + 1 + b)%Z with (Z.succ a) by lia.
    rewrite (pow2_Z (Z.succ a)) by lia.
    apply Qle_lt_trans with (inject_Z p).
    - rewrite <- X. apply Qmult_le_l; [exact Hx|].
      rewrite (pow2_Z b) by lia. rewrite <- Zle_Qle. exact Pb.
    - rewrite <- Zlt_Qlt. exact Pa'. }
  assert (L : pow2 (a - b - 1) <= p # q).
  { apply (Qmult_le_r _ _ (pow2 (Z.succ b)) (pow2_pos _)).
    rewrite <- pow2_add. replace (a - b - 1 + Z.succ b)%Z with a by lia.
    rewrite (pow2_Z a) by lia.
    apply Qle_trans with (inject_Z p).
    - rewrite <- Zle_Qle. exact Pa.
    - rewrite <- X. apply Qmult_le_l; [exact Hx|].
      rewrite (pow2_Z (Z.succ b)) by lia. apply Qlt_le_weak.
      rewrite <- Zlt_Qlt. exact Pb'. }
  destruct (Qle_bool (pow2 (a - b)) (p # q)) eqn:C.
  - apply Qle_bool_iff in C. split; [exact C | exact U].
  - split; [exact L|]. replace (a - b - 1 + 1)%Z with (a - b)%Z by lia.
    apply Qnot_le_lt. intros H. apply Qle_bool_iff in H. congruence.
Qed.

Lemma ilog2_mono (x y : Q) : 0 < x -> x <= y -> (ilog2 x <= ilog2 y)%Z.
Proof.
  intros Hx H.
  assert (Hy : 0 < y) by (eapply Qlt_le_trans; eauto).
  destruct (ilog2_spec x Hx) as [Lx Ux]. destruct (ilog2_spec y Hy) as [Ly Uy].
  destruct (Z_le_gt_dec (ilog2 x) (ilog2 y)) as [?|G]; [assumption|exfalso].
  assert (P : pow2 (ilog2 y + 1) <= pow2 (ilog2 x)) by (apply pow2_le; lia).
  lra.
Qed.

Lemma scaled_bounds (x : Q) :
  0 < x ->
  inject_Z (2 ^ 52) <= x * pow2 (- (ilog2 x - 52))
  /\ x * pow2 (- (ilog2 x - 52)) <= inject_Z (2 ^ 53).
Proof.
  intros Hx. destruct (ilog2_spec x Hx) as [L U].
  set (E := ilog2 x) in *. split.
  - assert (P : inject_Z (2 ^ 52) == pow2 E * pow2 (- (E - 52))).
    { rewrite <- pow2_add, <- (pow2_Z 52) by lia. f_equiv.
      replace (E + - (E - 52))%Z with 52%Z by lia. reflexivity. }
    rewrite P. apply Qmult_le_r; [apply pow2_pos | exact L].
  - assert (P : inject_Z (2 ^ 53) == pow2 (E + 1) * pow2 (- (E - 52))).
    { rewrite <- pow2_add, <- (pow2_Z 53) by lia.
      replace (E + 1 + - (E - 52))%Z with 53%Z by lia. reflexivity. }
    rewrite P. apply Qmult_le_r; [apply pow2_pos|].
    now apply Qlt_le_weak.
Qed.

Lemma round_pos_bounds (x : Q) :
  0 < x -> pow2 (ilog2 x) <= round_pos x <= pow2 (ilog2 x + 1).
Proof.
  intros Hx. destruct (scaled_bounds x Hx) as [L U].
  apply roundHalfEven_mono in L, U. rewrite roundHalfEven_Z in L, U.
  unfold round_pos. set (E := ilog2 x) in *.
  set (m := roundHalfEven (x * pow2 (- (E - 52)))) in *. split.
  - assert (P : pow2 E == inject_Z (2 ^ 52) * pow2 (E - 52)).
    { rewrite <- (pow2_Z 52), <- pow2_add by lia.
      replace (52 + (E - 52))%Z with E by lia. reflexivity. }
    rewrite P. apply Qmult_le_r; [apply pow2_pos|]. rewrite <- Zle_Qle. exact L.
  - assert (P : pow2 (E + 1) == inject_Z (2 ^ 53) * pow2 (E - 52)).
    { rewrite <- (pow2_Z 53), <- pow2_add by lia.
      replace (53 + (E - 52))%Z with (E + 1)%Z by lia. reflexivity. }
    rewrite P. apply Qmult_le_r; [apply pow2_pos|]. rewrite <- Zle_Qle. exact U.
Qed.

Lemma round_pos_pos (x : Q) : 0 < x -> 0 < round_pos x.
Proof.
  intros Hx. eapply Qlt_le_trans; [apply (pow2_pos (ilog2 x))|].
  now apply round_pos_bounds.
Qed.

Lemma round_pos_mono (x y : Q) : 0 < x -> x <= y -> round_pos x <= round_pos y.
Proof.
  intros Hx H.
  assert (Hy : 0 < y) by (eapply Qlt_le_trans; eauto).
  pose proof (ilog2_mono x y Hx H) as M.
  destruct (Z.eq_dec (ilog2 x) (ilog2 y)) as [E|N].
  - unfold round_pos. rewrite E.
    apply Qmult_le_r; [apply pow2_pos|]. rewrite <- Zle_Qle.
    apply roundHalfEven_mono. apply Qmult_le_r; [apply pow2_pos | exact H].
  - destruct (round_pos_bounds x Hx) as [_ Ux].
    destruct (round_pos_bounds y Hy) as [Ly _].
    apply Qle_trans with (pow2 (ilog2 x + 1)); [exact Ux|].
    apply Qle_trans with (pow2 (ilog2 y)); [|exact Ly].
    apply pow2_le. lia.
Qed.

Lemma ilog2_Z (n : Z) : (0 < n)%Z -> ilog2 (inject_Z n) = Z.log2 n.
Proof.
  intros Hn. unfold ilog2. cbv zeta. cbn [Qnum Qden inject_Z].
  change (Z.log2 1) with 0%Z. rewrite !Z.sub_0_r.
  assert (C : Qle_bool (pow2 (Z.log2 n)) (inject_Z n) = true).
  { apply Qle_bool_iff. rewrite pow2_Z by apply Z.log2_nonneg.
    rewrite <- Zle_Qle. now apply Z.log2_spec. }
  now rewrite C.
Qed.

Lemma round_pos_exact (n : Z) :
  (0 < n <= 2 ^ 53)%Z -> round_pos (inject_Z n) == inject_Z n.
Proof.
  intros [Hn Hb].
  pose proof (Z.log2_spec n Hn) as [Lo Hi].
  pose proof (Z.log2_nonneg n) as L0.
  destruct (Z_le_gt_dec (Z.log2 n) 52) as [S|G].
  - unfold round_pos. rewrite (ilog2_Z n Hn).
    set (l := Z.log2 n) in *.
    assert (P : pow2 (- (l - 52)) == inject_Z (2 ^ (52 - l))).
    { replace (- (l - 52))%Z with (52 - l)%Z by lia. apply pow2_Z. lia. }
    rewrite (roundHalfEven_comp _ (inject_Z (n * 2 ^ (52 - l)))).
    + rewrite roundHalfEven_Z, inject_Z_mult, <- P, <- Qmult_assoc, <- pow2_add.
      replace (- (l - 52) + (l - 52))%Z with 0%Z by lia.
      change (pow2 0) with 1. apply Qmult_1_r.
    + now rewrite inject_Z_mult, P.
  - assert (E : n = (2 ^ 53)%Z).
    { assert (B : (Z.log2 n <= 53)%Z).
      { change 53%Z with (Z.log2 (2 ^ 53)). now apply Z.log2_le_mono. }
      assert (E : Z.log2 n = 53%Z) by lia.
      rewrite E in Lo. lia. }
    subst n. vm_compute. reflexivity.
Qed.

Lemma rb_pos (x : Q) : 0 < x -> roundToBinary64 x = round_pos x.
Proof.
  destruct x as [[|p|p] q]; unfold Qlt; simpl; intros H;
    try discriminate; try lia; reflexivity.
Qed.

Lemma rb_neg (x : Q) : x < 0 -> roundToBinary64 x = - round_pos (- x).
Proof.
  destruct x as [[|p|p] q]; unfold Qlt; simpl; intros H;
    try discriminate; try lia; reflexivity.
Qed.

Lemma rb_zero (x : Q) : x == 0 -> roundToBinary64 x = 0.
Proof.
  destruct x as [[|p|p] q]; unfold Qeq; simpl; intros H;
    try discriminate; try lia; reflexivity.
Qed.

Lemma rb_nonneg (x : Q) : 0 <= x -> 0 <= roundToBinary64 x.
Proof.
  intros H. destruct (Qlt_le_dec 0 x) as [P|N].
  - rewrite (rb_pos x P). apply Qlt_le_weak. now apply round_pos_pos.
  - rewrite (rb_zero x); [apply Qle_refl|]. now apply Qle_antisym.
Qed.

Lemma roundToBinary64_mono (x y : Q) :
  x <= y -> roundToBinary64 x <= roundToBinary64 y.
Proof.
  intros H. destruct (Qlt_le_dec 0 x) as [Px|Nx].
  - assert (Py : 0 < y) by (eapply Qlt_le_trans; eauto).
    rewrite (rb_pos x Px), (rb_pos y Py). now apply round_pos_mono.
  - destruct (Qlt_le_dec x 0) as [Lx|Zx].
    + rewrite (rb_neg x Lx).
      assert (Ox : 0 < - x) by lra.
      pose proof (round_pos_pos (- x) Ox) as Rx.
      destruct (Qlt_le_dec y 0) as [Ly|Py].
      * rewrite (rb_neg y Ly).
        assert (Oy : 0 < - y) by lra.
        assert (M : round_pos (- y) <= round_pos (- x))
          by (apply round_pos_mono; [exact Oy | lra]).
        lra.
      * pose proof (rb_nonneg y Py). lra.
    + rewrite (rb_zero x) by (now apply Qle_antisym).
      apply rb_nonneg. lra.
Qed.

Lemma roundToBinary64_exact (n : Z) :
  (Z.abs n <= 2 ^ 53)%Z -> roundToBinary64 (inject_Z n) == inject_Z n.
Proof.
  intros H. destruct (Z.lt_trichotomy n 0) as [N|[->|P]].
  - rewrite rb_neg by (change 0 with (inject_Z 0); rewrite <- Zlt_Qlt; exact N).
    change (- inject_Z n) with (inject_Z (- n)).
    rewrite round_pos_exact by lia.
    rewrite inject_Z_opp. apply Qopp_involutive.
  - reflexivity.
  - rewrite rb_pos by (change 0 with (inject_Z 0); rewrite <- Zlt_Qlt; exact P).
    apply round_pos_exact. lia.
Qed.

Lemma roundHalfEven_near (x : Q) :
  inject_Z (roundHalfEven x) - (1 # 2) <= x <= inject_Z (roundHalfEven x) + (1 # 2).
Proof.
  pose proof (Qfloor_le x) as L. pose proof (Qlt_floor x) as U.
  rewrite inject_Z_plus in U. change (inject_Z 1) with 1 in U.
  unfold roundHalfEven.
  destruct (Qcompare (x - inject_Z (Qfloor x)) (1 # 2)) eqn:C.
  - apply Qeq_alt in C. destruct (Z.even (Qfloor x)).
    + split; lra.
    + rewrite inject_Z_plus. change (inject_Z 1) with 1. split; lra.
  - apply Qlt_alt in C. split; lra.
  - apply Qgt_alt in C. rewrite inject_Z_plus. change (inject_Z 1) with 1.
    split; lra.
Qed.

(** Rounding a positive number changes it by at most the fraction 2^-53 of
    itself. *)
Lemma round_pos_error (x : Q) :
  0 < x ->
  x - x * (1 # 9007199254740992) <= round_pos x
  /\ round_pos x <= x + x * (1 # 9007199254740992).
Proof.
  intros Hx. destruct (ilog2_spec x Hx) as [L _].
  pose proof (roundHalfEven_near (x * pow2 (- (ilog2 x - 52)))) as [N1 N2].
  unfold round_pos. set (E := ilog2 x) in *.
  set (m := inject_Z (roundHalfEven (x * pow2 (- (E - 52))))) in *.
  assert (P : pow2 (E - 52) == pow2 E * (1 # 4503599627370496)).
  { replace (E - 52)%Z with (E + -52)%Z by lia. rewrite pow2_add.
    apply Qmult_comp; [reflexivity|]. vm_compute. reflexivity. }
  assert (X : x * pow2 (- (E - 52)) * pow2 (E - 52) == x).
  { rewrite <- Qmult_assoc, <- pow2_add.
    replace (- (E - 52) + (E - 52))%Z with 0%Z by lia.
    change (pow2 0) with 1. apply Qmult_1_r. }
  pose proof (pow2_pos (E - 52)) as Pp.
  apply (proj2 (Qmult_le_r _ _ _ Pp)) in N1, N2.
  rewrite X in N1, N2. rewrite P in N1, N2 |- *.
  revert L N1 N2. generalize (pow2 E). intros pE L N1 N2.
  split; nra.
Qed.

Lemma roundToBinary64_error (x b : Q) :
  0 <= x <= b ->
  x - b * (1 # 9007199254740992) <= roundToBinary64 x
  /\ roundToBinary64 x <= x + b * (1 # 9007199254740992).
Proof.
  intros [H0 Hb]. destruct (Qlt_le_dec 0 x) as [P|N].
  - rewrite (rb_pos x P). destruct (round_pos_error x P) as [L U].
    split; lra.
  - rewrite (rb_zero x) by (now apply Qle_antisym). split; lra.
Qed.

(** The rounding to binary64 satisfies the laws of [Binary64]. *)
Lemma binary64_is_a_model :
  exists fp : Binary64, forall x, rnd fp x = roundToBinary64 x.
Proof.
  exists {| rnd := roundToBinary64;
            rnd_mono := roundToBinary64_mono;
            rnd_exact := roundToBinary64_exact |}.
  reflexivity.
Qed.

End Binary64Facts.

(** ** Aggregator: percentages *)

Lemma percent_zero_total (fp : Binary64) (completed : nat) :
  percent fp completed 0 = 0%Z.
Proof. reflexivity. Qed.

Lemma percent_formula (fp : Binary64) (completed total : nat) :
  total <> 0%nat ->
  percent fp completed total
  = Qfloor (rnd fp (rnd fp (inject_Z (Z.of_nat completed)
                            / inject_Z (Z.of_nat total))
                    * inject_Z 100)
            + (1 # 2)).
Proof.
  intros H. unfold percent. apply Nat.eqb_neq in H. now rewrite H.
Qed.

Lemma rnd_between (fp : Binary64) (lo hi : Z) (x : Q) :
  (Z.abs lo <= 2 ^ 53)%Z -> (Z.abs hi <= 2 ^ 53)%Z ->
  inject_Z lo <= x <= inject_Z hi ->
  inject_Z lo <= rnd fp x <= inject_Z hi.
Proof.
  intros Hlo Hhi [L U]. split.
  - rewrite <- (rnd_exact fp lo Hlo). now apply rnd_mono.
  - rewrite <- (rnd_exact fp hi Hhi). now apply rnd_mono.
Qed.

Lemma percent_range (fp : Binary64) (completed total : nat) :
  (completed <= total)%nat ->
  (0 <= percent fp completed total <= 100)%Z.
Proof.
  intros Le. destruct total as [|n]; [rewrite percent_zero_total; lia|].
  rewrite percent_formula by discriminate.
  set (c := inject_Z (Z.of_nat completed)).
  set (t := inject_Z (Z.of_nat (S n))).
  assert (Ht : 0 < t).
  { unfold t. change 0 with (inject_Z 0). rewrite <- Zlt_Qlt. lia. }
  assert (Hc : 0 <= c <= t).
  { unfold c, t. change 0 with (inject_Z 0). rewrite <- !Zle_Qle. lia. }
  assert (Q1 : inject_Z 0 <= c / t <= inject_Z 1).
  { split.
    - apply Qle_shift_div_l; [exact Ht|]. rewrite Qmult_0_l. apply Hc.
    - apply Qle_shift_div_r; [exact Ht|]. rewrite Qmult_1_l. apply Hc. }
  apply (rnd_between fp 0 1) in Q1; [|vm_compute; discriminate ..].
  assert (Q2 : inject_Z 0 <= rnd fp (c / t) * inject_Z 100 <= inject_Z 100).
  { revert Q1. generalize (rnd fp (c / t)). intros x [L U].
    change (inject_Z 0) with 0 in *. change (inject_Z 1) with 1 in U.
    change (inject_Z 100) with (100 # 1). split; lra. }
  apply (rnd_between fp 0 100) in Q2; [|vm_compute; discriminate ..].
  revert Q2. generalize (rnd fp (rnd fp (c / t) * inject_Z 100)).
  intros x [L U]. change (inject_Z 0) with 0 in L.
  change (inject_Z 100) with (100 # 1) in U. split.
  - change 0%Z with (Qfloor 0). apply Qfloor_resp_le. lra.
  - change 100%Z with (Qfloor (201 # 2)). apply Qfloor_resp_le. lra.
Qed.

Lemma stats_entry_percentage (host : DateHost) (fp : Binary64)
    (fields : option (list string)) (data : list Row) (d : DepartmentStats) :
  In d (departmentStats (processResults host fp fields data)) ->
  percentage d = percent fp (completedTasks d) (totalTasks d)
  /\ (completedTasks d <= totalTasks d)%nat.
Proof.
  rewrite departmentStats_processResults, in_collectStats.
  intros [dept [l [_ [_ ->]]]]. split; [reflexivity|].
  apply statsOf_counts.
Qed.

Lemma Qfloor_between (z : Q) (n : Z) :
  inject_Z n <= z -> z < inject_Z n + 1 -> Qfloor z = n.
Proof.
  intros L U. apply Z.le_antisymm.
  - apply Z.lt_succ_r. rewrite Zlt_Qlt.
    eapply Qle_lt_trans; [apply Qfloor_le|].
    unfold Z.succ. rewrite inject_Z_plus. exact U.
  - rewrite <- (Qfloor_Z n). now apply Qfloor_resp_le.
Qed.

(** With the arithmetic of binary64 and fewer than 2^32 tasks, the quotient
    and the product are off by less than the distance of the exact value
    from the nearest half, unless the exact value is a half itself. *)
Lemma percent_nearest (fp : Binary64) (completed total : nat) :
  (forall x, rnd fp x = Reference.roundToBinary64 x) ->
  (completed <= total)%nat -> total <> 0%nat ->
  (Z.of_nat total < 2 ^ 32)%Z ->
  nearest_percentage (percent fp completed total) completed total.
Proof.
  intros H Le Nz B. rewrite percent_formula by exact Nz. rewrite !H.
  unfold nearest_percentage, halfway, exact_percentage.
  set (C := Z.of_nat completed) in *. set (T := Z.of_nat total) in *.
  set (c := inject_Z C). set (t := inject_Z T).
  assert (HT : (0 < T)%Z) by (unfold T; lia).
  assert (HC : (0 <= C <= T)%Z) by (unfold C, T; lia).
  assert (Ht : 0 < t).
  { unfold t. change 0 with (inject_Z 0). rewrite <- Zlt_Qlt. exact HT. }
  assert (Hc : 0 <= c <= t).
  { unfold c, t. change 0 with (inject_Z 0). rewrite <- !Zle_Qle. exact HC. }
  assert (Bt : t <= 4294967296 # 1).
  { unfold t. change (4294967296 # 1) with (inject_Z 4294967296).
    rewrite <- Zle_Qle. change (2 ^ 32)%Z with 4294967296%Z in B. lia. }
  assert (Q1 : 0 <= c / t <= 1).
  { split.
    - apply Qle_shift_div_l; [exact Ht|]. rewrite Qmult_0_l. apply Hc.
    - apply Qle_shift_div_r; [exact Ht|]. rewrite Qmult_1_l. apply Hc. }
  destruct (roundToBinary64_error (c / t) 1 Q1) as [L1 U1].
  pose proof (rb_nonneg (c / t) (proj1 Q1)) as P1.
  change (inject_Z 100) with (100 # 1).
  set (q := c / t * (100 # 1)).
  assert (Eq : q == c / t * (100 # 1)) by reflexivity.
  revert L1 U1 P1. generalize (Reference.roundToBinary64 (c / t)). intros x1 L1 U1 P1.
  assert (Y : 0 <= x1 * (100 # 1) <= 101 # 1) by (split; lra).
  destruct (roundToBinary64_error (x1 * (100 # 1)) (101 # 1) Y) as [L2 U2].
  revert L2 U2. generalize (Reference.roundToBinary64 (x1 * (100 # 1))). intros x2 L2 U2.
  assert (D : q - (201 # 9007199254740992) <= x2 /\ x2 <= q + (201 # 9007199254740992))
    by (split; lra).
  clear L1 U1 P1 Y L2 U2 x1. destruct D as [D1 D2].
  pose proof (Qfloor_le (q + (1 # 2))) as F1.
  pose proof (Qlt_floor (q + (1 # 2))) as F2.
  rewrite inject_Z_plus in F2. change (inject_Z 1) with 1 in F2.
  set (n := Qfloor (q + (1 # 2))) in *.
  set (a := (200 * C + T - 2 * n * T)%Z).
  assert (A : inject_Z a == (2 # 1) * t * (q + (1 # 2) - inject_Z n)).
  { unfold a, Z.sub. rewrite inject_Z_plus, inject_Z_opp, inject_Z_plus, !inject_Z_mult.
    fold c t. change (inject_Z 200) with (200 # 1). change (inject_Z 2) with (2 # 1).
    rewrite Eq. field. lra. }
  clear Eq. remember (inject_Z n) as N eqn:EN.
  assert (A0 : (0 <= a)%Z).
  { rewrite Zle_Qle, A. change (inject_Z 0) with 0. nra. }
  assert (A1 : (a < 2 * T)%Z).
  { rewrite Zlt_Qlt, A, inject_Z_mult. fold t. change (inject_Z 2) with (2 # 1). nra. }
  destruct (Z.eq_dec a 0) as [Z0|NZ].
  - assert (G : q + (1 # 2) == N).
    { rewrite Z0 in A. change (inject_Z 0) with 0 in A. nra. }
    destruct (Qlt_le_dec (x2 + (1 # 2)) N) as [Lo|Hi].
    + right. split.
      * exists (n - 1)%Z. unfold a in Z0. lia.
      * assert (EN1 : inject_Z (n - 1) == N - 1).
        { subst N. unfold Z.sub. rewrite inject_Z_plus. reflexivity. }
        apply Qfloor_between; rewrite EN1; lra.
    + left. apply Qfloor_between; rewrite <- EN; lra.
  - left.
    assert (A2 : 1 <= inject_Z a).
    { change 1 with (inject_Z 1). rewrite <- Zle_Qle. lia. }
    assert (A3 : inject_Z a <= (2 # 1) * t - 1).
    { change ((2 # 1) * t - 1) with (inject_Z 2 * inject_Z T + inject_Z (-1)).
      rewrite <- inject_Z_mult, <- inject_Z_plus, <- Zle_Qle. lia. }
    rewrite A in A2, A3.
    assert (G1 : (1 # 8589934592) <= q + (1 # 2) - N) by nra.
    assert (G2 : q + (1 # 2) - N <= 1 - (1 # 8589934592)) by nra.
    apply Qfloor_between; rewrite <- EN; lra.
Qed.

(** C7: the percentage of every department and the overall progress are
    integers between 0 and 100, and 0 when the count of all tasks is zero.
    With the arithmetic of binary64 and fewer than 2^32 rows, each is the
    integer nearest to completed / total x 100: the one [Math.round] gives
    of the exact value (a half rounded up) or, only when the exact value
    lies halfway between two integers, the integer below it. *)
Theorem percentages_in_range (host : DateHost) (fp : Binary64)
    (fields : option (list string)) (data : list Row) :
  let out := processResults host fp fields data in
  (0 <= overallProgress out <= 100)%Z
  /\ (tasks out = [] -> overallProgress out = 0%Z)
  /\ (forall completed, percent fp completed 0 = 0%Z)
  /\ (forall d, In d (departmentStats out) -> (0 <= percentage d <= 100)%Z)
  /\ ((forall x, rnd fp x = Reference.roundToBinary64 x) ->
      (Z.of_nat (List.length data) < 2 ^ 32)%Z ->
      (tasks out <> [] ->
       nearest_percentage (overallProgress out)
         (List.length (filter doneTask (tasks out))) (List.length (tasks out)))
      /\ forall d, In d (departmentStats out) ->
           nearest_percentage (percentage d) (completedTasks d) (totalTasks d)).
Proof.
  intros out. pose proof (overallProgress_processResults host fp fields data) as O.
  cbv zeta in O. fold out in O.
  pose proof (tasks_length host fp fields data) as TL. fold out in TL.
  split; [rewrite O; apply percent_range, filter_length_le|].
  split; [intros E; rewrite O, E; reflexivity|].
  split; [intros completed; reflexivity|].
  split.
  - intros d Hd.
    destruct (stats_entry_percentage host fp fields data d Hd) as [E L].
    rewrite E. now apply percent_range.
  - intros H B. split.
    + intros NE. rewrite O. apply percent_nearest.
      * exact H.
      * apply filter_length_le.
      * destruct (tasks out); [congruence | discriminate].
      * now rewrite TL.
    + intros d Hd.
      destruct (stats_entry_percentage host fp fields data d Hd) as [E L].
      destruct (stats_entry host fp fields data d Hd) as [S NE]. fold out in S, NE.
      assert (TT : totalTasks d = List.length (tasksOf (name d) (tasks out)))
        by (rewrite S at 1; reflexivity).
      rewrite E. apply percent_nearest.
      * exact H.
      * exact L.
      * rewrite TT. destruct (tasksOf (name d) (tasks out)); [congruence | discriminate].
      * pose proof (filter_length_le (fun t => dept_eqb (department t) (name d))
                      (tasks out)) as FL.
        fold (tasksOf (name d) (tasks out)) in FL. lia.
Qed.

(** With 23 of 40 tasks Done the quotient and the product are rounded, and
    the percentage is 57; without rounding error it would be 58. *)
Remark percent_23_of_40 (fp : Binary64) :
  (forall x, rnd fp x = Reference.roundToBinary64 x) ->
  percent fp 23 40 = 57%Z.
Proof.
  intros H. unfold percent, fmul, fdiv. cbn [Nat.eqb]. rewrite !H.
  vm_compute. reflexivity.
Qed.

Remark percent_23_of_40_exact : percent Reference.exact 23 40 = 58%Z.
Proof. vm_compute. reflexivity. Qed.

(** With 1 of 8 tasks Done the exact value, 12.5, lies halfway as well; here
    the quotient and the product are exact and the percentage is 13. *)
Remark percent_1_of_8 (fp : Binary64) :
  (forall x, rnd fp x = Reference.roundToBinary64 x) ->
  percent fp 1 8 = 13%Z /\ halfway 1 8.
Proof.
  intros H. split.
  - unfold percent, fmul, fdiv. cbn [Nat.eqb]. rewrite !H. vm_compute. reflexivity.
  - exists 12%Z. reflexivity.
Qed.

(** The ten payroll tasks under the arithmetic of binary64. *)
Lemma percentages_in_range_witness :
  exists fp : Binary64,
    (forall x, rnd fp x = Reference.roundToBinary64 x)
    /\ let out := processResults Reference.strict fp None Scenario.tenRows in
       (0 <= overallProgress out <= 100)%Z
       /\ nearest_percentage (overallProgress out)
            (List.length (filter doneTask (tasks out))) (List.length (tasks out)).
Proof.
  destruct binary64_is_a_model as [fp H]. exists fp. split; [exact H|].
  intros out.
  destruct (percentages_in_range Reference.strict fp None Scenario.tenRows)
    as [R [_ [_ [_ N]]]].
  split; [exact R|].
  destruct (N H) as [O _]; [reflexivity|].
  apply O. intros E. apply (f_equal (@List.length Task)) in E.
  unfold out in E.
  rewrite (tasks_length Reference.strict fp None Scenario.tenRows) in E.
  discriminate E.
Defined.

(** With 23 of 40 tasks Done the overall progress is 57, while
    round(23 / 40 x 100), the value being 57.5, is 58. *)
Lemma percentage_is_not_the_exact_rounding :
  exists fp : Binary64,
    (forall x, rnd fp x = Reference.roundToBinary64 x)
    /\ let out := processResults Reference.strict fp None Scenario.fortyRows in
       List.length (tasks out) = 40%nat
       /\ List.length (filter doneTask (tasks out)) = 23%nat
       /\ overallProgress out = 57%Z
       /\ exact_percentage 23 40 = 58%Z
       /\ overallProgress out
          <> exact_percentage (List.length (filter doneTask (tasks out)))
               (List.length (tasks out)).
Proof.
  destruct binary64_is_a_model as [fp H]. exists fp. split; [exact H|].
  intros out.
  pose proof (overallProgress_processResults Reference.strict fp None
                Scenario.fortyRows) as O.
  cbv zeta in O. fold out in O.
  assert (T : List.length (tasks out) = 40%nat) by (vm_compute; reflexivity).
  assert (D : List.length (filter doneTask (tasks out)) = 23%nat)
    by (vm_compute; reflexivity).
  assert (P : overallProgress out = 57%Z).
  { rewrite O, T, D. now apply percent_23_of_40. }
  assert (X : exact_percentage 23 40 = 58%Z) by (vm_compute; reflexivity).
  split; [exact T|]. split; [exact D|]. split; [exact P|]. split; [exact X|].
  rewrite T, D, P, X. discriminate.
Qed.


(** * Further properties of the pipeline and of the components *)

(** ** Letter case and normal forms *)

Lemma lower_char_idem (c : ascii) : lower_char (lower_char c) = lower_char c.
Proof.
  destruct c as [[] [] [] [] [] [] [] []]; reflexivity.
Qed.

Lemma toLowerCase_idem (s : string) : toLowerCase (toLowerCase s) = toLowerCase s.
Proof.
  induction s as [|c s IH]; simpl; [reflexivity|].
  now rewrite lower_char_idem, IH.
Qed.

Lemma alnum_lower_char (c : ascii) : alnum c = true -> lower_char c = c.
Proof.
  destruct c as [[] [] [] [] [] [] [] []]; vm_compute; congruence.
Qed.

Lemma strip_all_alnum (s : string) : all_chars alnum (strip_non_alnum s) = true.
Proof.
  induction s as [|c s IH]; simpl; [reflexivity|].
  fold (alnum c). destruct (alnum c) eqn:A; simpl; [now rewrite A|exact IH].
Qed.

Lemma alnum_fixed (s : string) :
  all_chars alnum s = true -> toLowerCase s = s /\ strip_non_alnum s = s.
Proof.
  induction s as [|c s IH]; simpl; [now split|].
  intros H. apply andb_true_iff in H as [A R]. destruct (IH R) as [L S].
  fold (alnum c). rewrite A, L, S, (alnum_lower_char c A). now split.
Qed.

(** [normalize] yields lowercase letters and digits only, is idempotent, and
    does not see letter case. *)
Theorem normalize_normal_form (s : string) :
  all_chars alnum (normalize s) = true
  /\ normalize (normalize s) = normalize s
  /\ normalize (toLowerCase s) = normalize s.
Proof.
  assert (A : all_chars alnum (normalize s) = true) by apply strip_all_alnum.
  split; [exact A|]. split.
  - destruct (alnum_fixed _ A) as [L S]. unfold normalize at 1. now rewrite L, S.
  - unfold normalize. now rewrite toLowerCase_idem.
Qed.

(** ** Department classification *)

Lemma determineDepartment_loop_spec (l : string)
    (entries : list (DepartmentType * list string)) (d : DepartmentType) :
  determineDepartment_loop l entries = d <->
  (exists before words after,
     entries = (before ++ (d, words) :: after)%list
     /\ existsb (fun w => includes l w) words = true
     /\ forall d' ws, In (d', ws) before ->
          existsb (fun w => includes l w) ws = false)
  \/ (d = General
      /\ forall d' ws, In (d', ws) entries ->
           existsb (fun w => includes l w) ws = false).
Proof.
  induction entries as [|[d0 w0] es IH]; simpl.
  - split.
    + intros <-. right. split; [reflexivity | intros d' ws []].
    + intros [[b [w [a [H _]]]] | [-> _]]; [destruct b; discriminate | reflexivity].
  - destruct (existsb (fun w => includes l w) w0) eqn:E.
    + split.
      * intros <-. left. exists [], w0, es. repeat split; auto. intros d' ws [].
      * intros [[b [w [a [H [Hw Hb]]]]] | [_ Hn]].
        -- destruct b as [|[d1 w1] b]; simpl in H.
           ++ now injection H as -> _ _.
           ++ injection H as -> -> _.
              rewrite (Hb d1 w1 (or_introl eq_refl)) in E. discriminate.
        -- rewrite (Hn d0 w0 (or_introl eq_refl)) in E. discriminate.
    + rewrite IH. split.
      * intros [[b [w [a [-> [Hw Hb]]]]] | [-> Hn]].
        -- left. exists ((d0, w0) :: b), w, a. repeat split; auto.
           intros d' ws [[= <- <-]|Hin]; [exact E | eauto].
        -- right. split; [reflexivity|].
           intros d' ws [[= <- <-]|Hin]; [exact E | eauto].
      * intros [[b [w [a [H [Hw Hb]]]]] | [-> Hn]].
        -- left. destruct b as [|[d1 w1] b]; simpl in H.
           ++ injection H as -> -> _. congruence.
           ++ injection H as -> -> ->. exists b, w, a. repeat split; auto.
              intros d' ws Hin. apply (Hb d' ws). now right.
        -- right. split; [reflexivity|]. intros d' ws Hin.
           apply (Hn d' ws). now right.
Qed.

Lemma keywords_lowercase (d : DepartmentType) (ws : list string) (w : string) :
  In (d, ws) KEYWORDS -> In w ws -> toLowerCase w = w.
Proof.
  assert (H : forallb (fun e => forallb (fun w => toLowerCase w =? w) (snd e))
                KEYWORDS = true) by reflexivity.
  rewrite forallb_forall in H. intros He Hw. specialize (H _ He). simpl in H.
  rewrite forallb_forall in H. now apply String.eqb_eq, H.
Qed.

Lemma existsb_has_keyword (desc : string) (ws : list string) :
  (forall w, In w ws -> toLowerCase w = w) ->
  existsb (fun w => includes (toLowerCase desc) w) ws = true <-> has_keyword desc ws.
Proof.
  intros L. unfold has_keyword. rewrite existsb_exists.
  split; intros [w [Hw H]]; exists w; (split; [exact Hw|]);
    now apply includes_lower_iff; [apply L|].
Qed.

Lemma existsb_no_keyword (desc : string) (ws : list string) :
  (forall w, In w ws -> toLowerCase w = w) ->
  existsb (fun w => includes (toLowerCase desc) w) ws = false <-> ~ has_keyword desc ws.
Proof.
  intros L. rewrite <- (existsb_has_keyword desc ws L).
  destruct (existsb _ ws); split; congruence.
Qed.

Lemma keyword_test (desc : string) (d : DepartmentType) (ws : list string) :
  In (d, ws) KEYWORDS ->
  (existsb (fun w => includes (toLowerCase desc) w) ws = true <-> has_keyword desc ws)
  /\ (existsb (fun w => includes (toLowerCase desc) w) ws = false <->
      ~ has_keyword desc ws).
Proof.
  intros Hin.
  assert (L : forall w, In w ws -> toLowerCase w = w)
    by (intros w Hw; eapply keywords_lowercase; eauto).
  split; [now apply existsb_has_keyword | now apply existsb_no_keyword].
Qed.

(** [determineDepartment]: the department of a description is that of the
    first entry of the keyword table, in its declared order, one of whose
    keywords occurs in the description, letter case ignored; it is General
    exactly when no keyword of the table occurs. *)
Theorem determineDepartment_first_match (desc : string) (d : DepartmentType) :
  determineDepartment desc = d <->
  (exists before words after,
     KEYWORDS = (before ++ (d, words) :: after)%list
     /\ has_keyword desc words
     /\ forall d' ws, In (d', ws) before -> ~ has_keyword desc ws)
  \/ (d = General
      /\ forall d' ws, In (d', ws) KEYWORDS -> ~ has_keyword desc ws).
Proof.
  unfold determineDepartment. rewrite determineDepartment_loop_spec.
  assert (B : forall b w a, KEYWORDS = (b ++ (d, w) :: a)%list ->
                In (d, w) KEYWORDS
                /\ forall d' ws, In (d', ws) b -> In (d', ws) KEYWORDS).
  { intros b w a K. rewrite K. split.
    - apply in_or_app. right. now left.
    - intros d' ws Hin. apply in_or_app. now left. }
  split.
  - intros [[b [w [a [K [Hw Hb]]]]] | [-> Hn]].
    + left. exists b, w, a. split; [exact K|].
      destruct (B b w a K) as [In_w In_b]. split.
      * now apply (keyword_test desc d w In_w).
      * intros d' ws Hin.
        apply (keyword_test desc d' ws (In_b d' ws Hin)). now apply (Hb d' ws).
    + right. split; [reflexivity|]. intros d' ws Hin.
      apply (keyword_test desc d' ws Hin). now apply (Hn d' ws).
  - intros [[b [w [a [K [Hw Hb]]]]] | [-> Hn]].
    + left. exists b, w, a. split; [exact K|].
      destruct (B b w a K) as [In_w In_b]. split.
      * now apply (keyword_test desc d w In_w).
      * intros d' ws Hin.
        apply (keyword_test desc d' ws (In_b d' ws Hin)). now apply (Hb d' ws).
    + right. split; [reflexivity|]. intros d' ws Hin.
      apply (keyword_test desc d' ws Hin). now apply (Hn d' ws).
Qed.

(** ** Column resolver: what is found is a header *)

Lemma prefix_refl (s : string) : prefix s s = true.
Proof. apply prefix_iff. exists "". induction s; simpl; congruence. Qed.

Lemma includes_refl (s : string) : includes s s = true.
Proof. rewrite includes_unfold. now rewrite prefix_refl. Qed.

(** The test for equality in [findColumnKey] is covered by the test for
    containment. *)
Lemma matches_is_containment (c h : string) :
  matches_candidate c h = includes (normalize h) (normalize c).
Proof.
  unfold matches_candidate.
  destruct (normalize h =? normalize c) eqn:E; [|reflexivity].
  apply String.eqb_eq in E. rewrite E. simpl. now rewrite includes_refl.
Qed.

Lemma findColumnKey_none_all (headers candidates : list string) :
  findColumnKey headers candidates = None ->
  forall c h, In c candidates -> In h headers -> matches_candidate c h = false.
Proof.
  induction candidates as [|c0 cs IH]; [intros _ c h []|].
  rewrite findColumnKey_cons.
  destruct (find (matches_candidate c0) headers) eqn:F; [discriminate|].
  intros N c h [<-|Hc] Hh; [eapply find_none in F; eauto | eauto].
Qed.

Lemma findColumnKey_some_contains (headers candidates : list string) (k : string) :
  findColumnKey headers candidates = Some k ->
  In k headers
  /\ exists c, In c candidates /\ includes (normalize k) (normalize c) = true.
Proof.
  intros H. apply findColumnKey_some_iff, synonym_search_matches in H.
  destruct H as [c [Hc [Hk Hm]]]. split; [exact Hk|].
  exists c. split; [exact Hc|]. now rewrite <- matches_is_containment.
Qed.

(** [findColumnKey] finds a column exactly when the normal form of some
    header contains the normal form of some candidate, and the column it
    finds is such a header of the list. *)
Theorem findColumnKey_finds_a_header (headers candidates : list string) :
  (findColumnKey headers candidates <> None <->
   exists c h, In c candidates /\ In h headers
               /\ includes (normalize h) (normalize c) = true)
  /\ (forall k, findColumnKey headers candidates = Some k ->
        In k headers
        /\ exists c, In c candidates
                     /\ includes (normalize k) (normalize c) = true).
Proof.
  pose proof (findColumnKey_some_contains headers candidates) as S.
  split; [|exact S]. split.
  - intros N. destruct (findColumnKey headers candidates) as [k|] eqn:F;
      [|now destruct N].
    destruct (S k eq_refl) as [Hk [c [Hc Hm]]]. now exists c, k.
  - intros [c [h [Hc [Hh Hm]]]] N.
    rewrite <- matches_is_containment in Hm.
    rewrite (findColumnKey_none_all _ _ N c h Hc Hh) in Hm. discriminate.
Qed.

(** The columns resolved for the three roles: the description column is a
    header of the list and is undefined only for an empty list; the status
    column is a header of the list or the literal "Status", and is never
    empty; the date column, when there is one, is a header of the list that
    is not empty. *)
Theorem resolved_columns_are_headers (headers : list string) :
  (forall k, resolveDescKey headers = Some k -> In k headers)
  /\ (resolveDescKey headers = None <-> headers = [])
  /\ (In (resolveStatusKey headers) headers \/ resolveStatusKey headers = "Status")
  /\ resolveStatusKey headers <> ""
  /\ (forall k, resolveDateKey headers = Some k -> In k headers /\ k <> "").
Proof.
  pose proof (findColumnKey_some_contains headers descCandidates) as Sd.
  pose proof (findColumnKey_some_contains headers statusCandidates) as Ss.
  pose proof (findColumnKey_some_contains headers dateCandidates) as Sx.
  repeat split.
  - unfold resolveDescKey, or_else_opt. intros k.
    destruct (findColumnKey headers descCandidates) as [k0|] eqn:F;
      cbn [truthy_opt].
    + destruct (truthy k0).
      * intros [= <-]. now apply Sd.
      * intros H. now apply nth_error_In in H.
    + intros H. now apply nth_error_In in H.
  - unfold resolveDescKey, or_else_opt.
    destruct (findColumnKey headers descCandidates) as [k0|] eqn:F; simpl.
    + apply findColumnKey_nonempty in F as F'; [|apply descCandidates_nonempty].
      apply truthy_iff in F'. rewrite F'. discriminate.
    + destruct headers; [reflexivity | discriminate].
  - unfold resolveDescKey, or_else_opt. intros ->. reflexivity.
  - unfold resolveStatusKey, or_else.
    destruct (findColumnKey headers statusCandidates) as [k0|] eqn:F;
      [|now right].
    destruct (truthy k0); [left; now apply Ss | now right].
  - unfold resolveStatusKey, or_else.
    destruct (findColumnKey headers statusCandidates) as [k0|] eqn:F;
      [|discriminate].
    destruct (truthy k0) eqn:T; [now apply truthy_iff | discriminate].
  - revert H. unfold resolveDateKey. rewrite colXHeader_nth.
    destruct (nth_error headers 23) as [x|] eqn:X.
    + apply nth_error_In in X as Xin.
      destruct (truthy x && includes (normalize x) "edd") eqn:E.
      * apply andb_true_iff in E as [T _]. simpl. rewrite T. simpl.
        now intros [= <-].
      * destruct (findColumnKey headers dateCandidates) as [k0|] eqn:F; simpl.
        -- apply findColumnKey_nonempty in F as F';
             [|apply dateCandidates_nonempty].
           apply truthy_iff in F'. rewrite F'. simpl.
           intros [= <-]. now apply Sx.
        -- destruct (truthy x); simpl; [now intros [= <-] | discriminate].
    + simpl. destruct (findColumnKey headers dateCandidates) as [k0|] eqn:F;
        simpl; [|discriminate].
      rewrite andb_false_r. intros [= <-]. now apply Sx.
  - revert H. unfold resolveDateKey. rewrite colXHeader_nth.
    destruct (nth_error headers 23) as [x|] eqn:X.
    + destruct (truthy x && includes (normalize x) "edd") eqn:E.
      * apply andb_true_iff in E as [T _]. simpl. rewrite T. simpl.
        intros [= <-]. now apply truthy_iff.
      * destruct (findColumnKey headers dateCandidates) as [k0|] eqn:F; simpl.
        -- apply findColumnKey_nonempty in F as F';
             [|apply dateCandidates_nonempty].
           apply truthy_iff in F' as T. rewrite T. simpl. now intros [= <-].
        -- destruct (truthy x) eqn:T; simpl; [|discriminate].
           intros [= <-]. now apply truthy_iff.
    + simpl. destruct (findColumnKey headers dateCandidates) as [k0|] eqn:F;
        simpl; [|discriminate].
      rewrite andb_false_r. intros [= <-].
      eapply findColumnKey_nonempty; [apply dateCandidates_nonempty | exact F].
Qed.

(** ** Record normalizer: the shape of the task list *)

Lemma to_uint_not_nil (n : nat) : Nat.to_uint n <> Decimal.Nil.
Proof.
  intros H. assert (E : n = 0%nat).
  { rewrite <- (Unsigned.of_to n), H. reflexivity. }
  subst n. discriminate.
Qed.

Lemma task_id_injective (i j : nat) :
  ("task-" ++ NilZero.string_of_uint (Nat.to_uint i))%string
  = ("task-" ++ NilZero.string_of_uint (Nat.to_uint j))%string -> i = j.
Proof.
  simpl. intros H. injection H as H.
  apply Unsigned.to_uint_inj.
  pose proof (NilZero.usu _ (to_uint_not_nil i)) as Ui.
  pose proof (NilZero.usu _ (to_uint_not_nil j)) as Uj.
  rewrite H in Ui. rewrite Ui in Uj. now injection Uj.
Qed.

Lemma mapi_from_ids (host : DateHost) (descKey : option string)
    (statusKey : string) (dateKey : option string) (l : list Row) (i : nat) :
  map id (mapi_from (mkTask host descKey statusKey dateKey) i l)
  = map (fun j => ("task-" ++ NilZero.string_of_uint (Nat.to_uint j))%string)
      (seq i (List.length l)).
Proof.
  revert i; induction l as [|r l IH]; intros i; [reflexivity|].
  cbn [mapi_from map List.length seq]. now rewrite IH.
Qed.

Lemma mapi_from_raw (host : DateHost) (descKey : option string)
    (statusKey : string) (dateKey : option string) (l : list Row) (i : nat) :
  map raw (mapi_from (mkTask host descKey statusKey dateKey) i l) = l.
Proof.
  revert i; induction l as [|r l IH]; intros i; [reflexivity|].
  cbn [mapi_from map]. now rewrite IH.
Qed.

(** The task list lines up with the rows: one task per row, in the order of
    the rows, each keeping its row; the identifier of the task at index [i]
    is "task-" followed by [i] in decimal, and no two tasks share an
    identifier. *)
Theorem tasks_line_up_with_rows (host : DateHost) (fp : Binary64)
    (fields : option (list string)) (data : list Row) :
  let out := processResults host fp fields data in
  map raw (tasks out) = data
  /\ map id (tasks out)
     = map (fun i => ("task-" ++ NilZero.string_of_uint (Nat.to_uint i))%string)
         (seq 0 (List.length data))
  /\ NoDup (map id (tasks out)).
Proof.
  intros out. unfold out. rewrite tasks_processResults. cbv zeta. unfold mapi.
  rewrite mapi_from_raw, mapi_from_ids. repeat split.
  apply Finite.Injective_map_NoDup; [|apply seq_NoDup].
  intros i j. apply task_id_injective.
Qed.

Lemma mkTask_description (host : DateHost) (descKey : option string)
    (statusKey : string) (dateKey : option string) (row : Row) (i : nat) :
  description (mkTask host descKey statusKey dateKey row i)
  = or_else (get row descKey) "Untitled Task"
  /\ department (mkTask host descKey statusKey dateKey row i)
     = determineDepartment (or_else (get row descKey) "Untitled Task").
Proof. split; reflexivity. Qed.

Lemma or_else_nonempty (a : option string) (b : string) :
  b <> "" -> or_else a b <> "".
Proof.
  intros Hb. unfold or_else. destruct a as [s|]; [|exact Hb].
  destruct (truthy s) eqn:T; [now apply truthy_iff | exact Hb].
Qed.

Lemma in_mapi_from {A B : Type} (f : A -> nat -> B) (l : list A) (i : nat) (y : B) :
  In y (mapi_from f i l) -> exists x j, In x l /\ y = f x j.
Proof.
  revert i; induction l as [|x l IH]; intros i; simpl; [intros []|].
  intros [<-|H].
  - exists x, i. split; [now left | reflexivity].
  - destruct (IH _ H) as [x' [j [Hx Hy]]]. exists x', j. split; [now right | exact Hy].
Qed.

(** Every task of the output is Done or Pending (never In Progress), has a
    description that is not empty, a department that is the classification
    of its description, and a parsed date that is the reading of its date
    text. *)
Theorem tasks_are_well_formed (host : DateHost) (fp : Binary64)
    (fields : option (list string)) (data : list Row) :
  Forall (fun t => (status t = Done \/ status t = Pending)
                   /\ description t <> ""
                   /\ department t = determineDepartment (description t)
                   /\ parsedDate t = parseDate host (date t))
    (tasks (processResults host fp fields data)).
Proof.
  apply Forall_forall. intros t Ht.
  rewrite tasks_processResults in Ht. cbv zeta in Ht. unfold mapi in Ht.
  apply in_mapi_from in Ht as [row [j [_ ->]]]. repeat split.
  - rewrite mkTask_status.
    destruct (includes _ "done" || includes _ "completed"); [now left | now right].
  - rewrite (proj1 (mkTask_description _ _ _ _ _ _)).
    apply or_else_nonempty. discriminate.
Qed.

(** A row whose description cell is missing or empty becomes a task named
    "Untitled Task" in the department General; otherwise the description is
    the cell as it is. *)
Theorem missing_description_is_untitled (host : DateHost) (fp : Binary64)
    (fields : option (list string)) (data : list Row) (i : nat) (row : Row) :
  nth_error data i = Some row ->
  let descKey := resolveDescKey (headersOf fields (hd [] data)) in
  exists t,
    nth_error (tasks (processResults host fp fields data)) i = Some t
    /\ (get row descKey = None \/ get row descKey = Some "" ->
        description t = "Untitled Task" /\ department t = General)
    /\ (forall c, get row descKey = Some c -> c <> "" -> description t = c).
Proof.
  intros H descKey. eexists.
  split; [apply (task_of_row host fp fields data i row H)|].
  fold descKey.
  destruct (mkTask_description host descKey
              (resolveStatusKey (headersOf fields (hd [] data)))
              (resolveDateKey (headersOf fields (hd [] data))) row i) as [-> ->].
  split.
  - intros [-> | ->]; split; reflexivity.
  - intros c -> Hc. unfold or_else. apply truthy_iff in Hc. now rewrite Hc.
Qed.

Lemma missing_description_is_untitled_witness :
  exists t,
    nth_error (tasks (processResults Reference.strict Reference.exact None
                        Scenario.untitledRows)) 1 = Some t
    /\ description t = "Untitled Task" /\ department t = General.
Proof.
  destruct (missing_description_is_untitled Reference.strict Reference.exact
              None Scenario.untitledRows 1 [("Status", "Open")] eq_refl)
    as [t [Ht [Hd _]]].
  exists t. split; [exact Ht|]. apply Hd. left. reflexivity.
Defined.

(** ** Date parsing: white space and the order of the formats *)

Lemma trimEnd_cons (c : ascii) (r : string) :
  is_space c = false -> trimEnd (String c r) = String c (trimEnd r).
Proof.
  intros H. cbn [trimEnd]. destruct (trimEnd r); [now rewrite H | reflexivity].
Qed.

Lemma trimEnd_unfold (c : ascii) (r : string) :
  trimEnd (String c r)
  = match trimEnd r with
    | EmptyString => if is_space c then EmptyString else String c EmptyString
    | String a r' => String c (String a r')
    end.
Proof. reflexivity. Qed.

Lemma trimEnd_idem (s : string) : trimEnd (trimEnd s) = trimEnd s.
Proof.
  induction s as [|c s IH]; [reflexivity|].
  rewrite (trimEnd_unfold c s). destruct (trimEnd s) as [|c' r'] eqn:E.
  - destruct (is_space c) eqn:S; [reflexivity|].
    rewrite trimEnd_unfold. cbn [trimEnd]. now rewrite S.
  - rewrite trimEnd_unfold, IH. reflexivity.
Qed.

Lemma trimStart_head (s : string) :
  trimStart s = ""
  \/ exists c r, trimStart s = String c r /\ is_space c = false.
Proof.
  induction s as [|c s IH]; [now left|].
  simpl. destruct (is_space c) eqn:S; [exact IH|].
  right. now exists c, s.
Qed.

Lemma trim_idem (s : string) : trim (trim s) = trim s.
Proof.
  unfold trim. destruct (trimStart_head s) as [E | [c [r [E S]]]]; rewrite E.
  - reflexivity.
  - rewrite (trimEnd_cons c r S). cbn [trimStart]. rewrite S.
    rewrite <- (trimEnd_cons c r S). apply trimEnd_idem.
Qed.

(** White space around a date text does not change how it is read: reading
    the trimmed text gives what reading the text gives. *)
Theorem parseDate_ignores_surrounding_space (host : DateHost) (s : string) :
  trim (trim s) = trim s /\ parseDate host (trim s) = parseDate host s.
Proof.
  split; [apply trim_idem|].
  destruct (string_dec (trim s) "") as [E|E].
  - rewrite (parseDate_blank host s E). apply parseDate_blank.
    now rewrite trim_idem.
  - rewrite (parseDate_nonblank host s E).
    rewrite parseDate_nonblank by (now rewrite trim_idem).
    now rewrite trim_idem.
Qed.

(** A text with slashes that the format day/month/year reads is taken day
    first, whatever the format month/day/year would make of it. *)
Theorem slash_dates_are_read_day_first (host : DateHost) (s : string) (d : Date) :
  trim s <> "" ->
  (forall f, In f ["d-MMM-yy"; "dd-MMM-yy"; "d-MMM-yyyy"; "dd-MMM-yyyy"] ->
     dfParse host (trim s) f = None) ->
  dfParse host (trim s) "dd/MM/yyyy" = Some d ->
  parseDate host s = Some d.
Proof.
  intros Ne Hd Hs. rewrite (parseDate_nonblank host s Ne).
  cbn [formats parseDate_loop].
  rewrite !Hd by (simpl; tauto). now rewrite Hs.
Qed.

Lemma slash_dates_are_read_day_first_witness :
  dfParse Reference.strict "03/04/2024" "MM/dd/yyyy"
    = Some (Reference.msOfCivil 2024 3 4)
  /\ parseDate Reference.strict "03/04/2024" = Some (Reference.msOfCivil 2024 4 3).
Proof.
  split; [vm_compute; reflexivity|].
  apply (slash_dates_are_read_day_first Reference.strict "03/04/2024").
  - discriminate.
  - intros f H; simpl in H;
      repeat (destruct H as [<-|H]; [vm_compute; reflexivity|]); destruct H.
  - vm_compute. reflexivity.
Defined.

(** ** Aggregator: which departments are listed *)

Lemma tasksOf_nonempty_iff (d : DepartmentType) (ts : list Task) :
  tasksOf d ts <> [] <-> exists t, In t ts /\ department t = d.
Proof.
  unfold tasksOf. split.
  - destruct (filter _ ts) as [|t l] eqn:F; [now intros H|]. intros _.
    assert (Hin : In t (filter (fun t => dept_eqb (department t) d) ts))
      by (rewrite F; now left).
    apply filter_In in Hin as [Hin Hd]. exists t. split; [exact Hin|].
    now apply dept_eqb_eq.
  - intros [t [Hin Hd]] E.
    assert (H : In t (filter (fun t => dept_eqb (department t) d) ts)).
    { apply filter_In. split; [exact Hin | now apply dept_eqb_eq]. }
    rewrite E in H. destruct H.
Qed.

Lemma collectStats_nonempty (host : DateHost) (fp : Binary64)
    (ts : list Task) (ds : list DepartmentType) :
  filter (fun e => (0 <? totalTasks e)%nat)
    (collectStats host fp (map (fun d => (d, tasksOf d ts)) ds))
  = map (fun d => statsOf host fp d (tasksOf d ts))
      (filter (fun d => negb (List.length (tasksOf d ts) =? 0)%nat) ds).
Proof.
  unfold collectStats. induction ds as [|d ds IH]; [reflexivity|].
  cbn [map flat_map filter]. rewrite filter_app, IH.
  destruct (tasksOf d ts) as [|t l] eqn:E.
  - cbn [List.length Nat.eqb andb negb].
    destruct (dept_eqb d General); reflexivity.
  - cbn [List.length Nat.eqb andb negb filter map app].
    change (0 <? totalTasks (statsOf host fp d (t :: l)))%nat with true.
    cbv beta iota. cbn [app]. now rewrite E.
Qed.

Lemma departmentStats_listing (host : DateHost) (fp : Binary64)
    (fields : option (list string)) (data : list Row) :
  let out := processResults host fp fields data in
  departmentStats out
  = map (fun d => statsOf host fp d (tasksOf d (tasks out)))
      (filter (fun d => negb (List.length (tasksOf d (tasks out)) =? 0)%nat)
         allDepts).
Proof.
  cbv zeta. rewrite departmentStats_processResults, groupByDept_spec.
  apply collectStats_nonempty.
Qed.

Lemma allDepts_complete (d : DepartmentType) : In d allDepts.
Proof. destruct d; simpl; tauto. Qed.

Lemma allDepts_NoDup : NoDup allDepts.
Proof.
  unfold allDepts. simpl.
  repeat (constructor; [simpl; intuition discriminate|]). constructor.
Qed.

(** The statistics list the departments that have at least one task, each
    once, in the order in which the departments are declared (General
    last); every entry is computed from the tasks of its department and
    counts at least one task. *)
Theorem stats_list_the_departments_with_tasks (host : DateHost) (fp : Binary64)
    (fields : option (list string)) (data : list Row) :
  let out := processResults host fp fields data in
  map name (departmentStats out)
  = filter (fun d => negb (List.length (tasksOf d (tasks out)) =? 0)%nat) allDepts
  /\ NoDup (map name (departmentStats out))
  /\ (forall d, In d (map name (departmentStats out)) <->
        exists t, In t (tasks out) /\ department t = d)
  /\ Forall (fun e => e = statsOf host fp (name e) (tasksOf (name e) (tasks out))
                      /\ (0 < totalTasks e)%nat)
       (departmentStats out).
Proof.
  intros out.
  pose proof (departmentStats_listing host fp fields data) as L.
  cbv zeta in L. fold out in L.
  assert (N : map name (departmentStats out)
              = filter (fun d => negb (List.length (tasksOf d (tasks out)) =? 0)%nat)
                  allDepts).
  { rewrite L, map_map. apply map_id. }
  split; [exact N|]. split; [|split].
  - rewrite N. apply NoDup_filter, allDepts_NoDup.
  - intros d. rewrite N, filter_In, <- tasksOf_nonempty_iff. split.
    + intros [_ H] E. rewrite E in H. discriminate.
    + intros H. split; [apply allDepts_complete|].
      destruct (tasksOf d (tasks out)); [now destruct H | reflexivity].
  - rewrite L. apply Forall_forall. intros e He.
    apply in_map_iff in He as [d [<- Hd]]. split; [reflexivity|].
    apply filter_In in Hd as [_ Hd]. simpl.
    destruct (tasksOf d (tasks out)); [discriminate | simpl; lia].
Qed.

Lemma sum_totalTasks_stats (host : DateHost) (fp : Binary64)
    (fields : option (list string)) (data : list Row) :
  let out := processResults host fp fields data in
  sum_of totalTasks (departmentStats out) = List.length data.
Proof.
  cbv zeta. rewrite departmentStats_processResults, sum_totalTasks_filter.
  rewrite (proj1 (collectStats_sums _ _ _)), groupByDept_spec, sum_of_map.
  cbn [snd]. rewrite tasksOf_partition. apply tasks_length.
Qed.

(** The statistics are empty exactly when there is no row, and then the task
    list is empty and the overall progress is 0. *)
Theorem empty_statistics_iff_no_rows (host : DateHost) (fp : Binary64)
    (fields : option (list string)) (data : list Row) :
  let out := processResults host fp fields data in
  (departmentStats out = [] <-> data = [])
  /\ (tasks out = [] <-> data = [])
  /\ (data = [] -> overallProgress out = 0%Z).
Proof.
  intros out. split; [|split].
  - split.
    + intros E. pose proof (sum_totalTasks_stats host fp fields data) as S.
      cbv zeta in S. fold out in S. rewrite E in S. simpl in S.
      destruct data; [reflexivity | discriminate].
    + intros ->. reflexivity.
  - split.
    + intros E. pose proof (tasks_length host fp fields data) as L.
      fold out in L. rewrite E in L. destruct data; [reflexivity | discriminate].
    + intros ->. reflexivity.
  - intros ->. reflexivity.
Qed.

(** ** Aggregator: how the counts relate *)

Lemma filter_disjoint_length {A : Type} (f g : A -> bool) (l : list A) :
  (forall x, f x = true -> g x = false) ->
  (List.length (filter f l) + List.length (filter g l) <= List.length l)%nat.
Proof.
  intros D. induction l as [|x l IH]; simpl; [lia|].
  destruct (f x) eqn:F.
  - rewrite (D x F). simpl. lia.
  - destruct (g x); simpl; lia.
Qed.

Lemma overdue_not_done (host : DateHost) (t : Task) :
  doneTask t = true -> isOverdue host t = false.
Proof. unfold isOverdue, notDone. now intros ->. Qed.

(** In every entry of the statistics the completed and the overdue tasks are
    different tasks of the department: their counts add up to no more than
    the count of all its tasks. *)
Theorem completed_and_overdue_within_total (host : DateHost) (fp : Binary64)
    (fields : option (list string)) (data : list Row) :
  Forall (fun e => (completedTasks e + overdueCount e <= totalTasks e)%nat)
    (departmentStats (processResults host fp fields data)).
Proof.
  apply Forall_forall. intros e He.
  rewrite departmentStats_processResults, in_collectStats in He.
  destruct He as [d [l [_ [_ ->]]]]. simpl.
  apply filter_disjoint_length. apply overdue_not_done.
Qed.

Lemma fold_left_sum {A : Type} (f : A -> nat) (l : list A) (a : nat) :
  fold_left (fun acc x => (acc + f x)%nat) l a = (a + sum_of f l)%nat.
Proof.
  revert a; induction l as [|x l IH]; intros a; simpl; [lia|].
  rewrite IH. lia.
Qed.

Lemma sum_overdue_listing (host : DateHost) (fp : Binary64) (ts : list Task)
    (ds : list DepartmentType) :
  sum_of overdueCount
    (map (fun d => statsOf host fp d (tasksOf d ts))
       (filter (fun d => negb (List.length (tasksOf d ts) =? 0)%nat) ds))
  = sum_of (fun d => List.length (tasksOf d (filter (isOverdue host) ts))) ds.
Proof.
  induction ds as [|d ds IH]; [reflexivity|].
  cbn [filter sum_of]. rewrite <- IH, <- tasksOf_filter.
  destruct (tasksOf d ts) as [|t l] eqn:E; cbn [List.length Nat.eqb negb].
  - reflexivity.
  - cbn [map sum_of]. rewrite E. reflexivity.
Qed.

(** The total shown under "Attention Needed": the sum of the overdue counts
    of the listed departments is the number of tasks of the whole list that
    are not Done and whose parsed date is before the start of the day. *)
Theorem overdueTotal_counts_overdue_tasks (host : DateHost) (fp : Binary64)
    (fields : option (list string)) (data : list Row) :
  let out := processResults host fp fields data in
  Dashboard.overdueTotal out
  = List.length (filter (isOverdue host) (tasks out)).
Proof.
  intros out. unfold Dashboard.overdueTotal. rewrite fold_left_sum.
  pose proof (departmentStats_listing host fp fields data) as L.
  cbv zeta in L. fold out in L. rewrite L, sum_overdue_listing.
  now rewrite tasksOf_partition.
Qed.

(** ** Aggregator: the percentage as a function of the counts *)

Lemma rnd_comp (fp : Binary64) (x y : Q) : x == y -> rnd fp x == rnd fp y.
Proof.
  intros E. apply Qle_antisym; apply rnd_mono; rewrite E; apply Qle_refl.
Qed.

Lemma percent_all (fp : Binary64) (total : nat) :
  total <> 0%nat -> percent fp total total = 100%Z.
Proof.
  intros H. rewrite percent_formula by exact H.
  set (t := inject_Z (Z.of_nat total)).
  assert (Ht : ~ t == 0).
  { unfold t. intros E.
    pose proof (proj1 (inject_Z_injective (Z.of_nat total) 0) E). lia. }
  assert (E1 : rnd fp (t / t) == 1).
  { rewrite (rnd_comp fp (t / t) (inject_Z 1)).
    - apply rnd_exact. vm_compute. discriminate.
    - change (inject_Z 1) with 1. field. exact Ht. }
  assert (E2 : rnd fp (rnd fp (t / t) * inject_Z 100) == inject_Z 100).
  { rewrite (rnd_comp fp _ (inject_Z 100)).
    - apply rnd_exact. vm_compute. discriminate.
    - rewrite E1. apply Qmult_1_l. }
  rewrite (Qfloor_comp _ (201 # 2)); [reflexivity|].
  rewrite E2. reflexivity.
Qed.

Lemma percent_none (fp : Binary64) (total : nat) : percent fp 0 total = 0%Z.
Proof.
  destruct total as [|n]; [reflexivity|].
  rewrite percent_formula by discriminate.
  set (t := inject_Z (Z.of_nat (S n))).
  assert (E1 : rnd fp (inject_Z (Z.of_nat 0) / t) == 0).
  { rewrite (rnd_comp fp _ (inject_Z 0)).
    - apply rnd_exact. vm_compute. discriminate.
    - change (inject_Z (Z.of_nat 0)) with 0. change (inject_Z 0) with 0.
      unfold Qdiv. apply Qmult_0_l. }
  assert (E2 : rnd fp (rnd fp (inject_Z (Z.of_nat 0) / t) * inject_Z 100) == 0).
  { rewrite (rnd_comp fp _ (inject_Z 0)).
    - apply rnd_exact. vm_compute. discriminate.
    - rewrite E1. apply Qmult_0_l. }
  rewrite (Qfloor_comp _ (1 # 2)); [reflexivity|].
  rewrite E2. reflexivity.
Qed.

Lemma percent_mono (fp : Binary64) (c c' total : nat) :
  (c <= c')%nat -> (percent fp c total <= percent fp c' total)%Z.
Proof.
  intros Le. destruct total as [|n]; [reflexivity|].
  rewrite !percent_formula by discriminate.
  set (t := inject_Z (Z.of_nat (S n))).
  assert (Ht : 0 < t).
  { unfold t. change 0 with (inject_Z 0). rewrite <- Zlt_Qlt. lia. }
  apply Qfloor_resp_le, Qplus_le_l, rnd_mono.
  apply Qmult_le_r; [reflexivity|]. apply rnd_mono.
  unfold Qdiv. apply Qmult_le_r; [now apply Qinv_lt_0_compat|].
  rewrite <- Zle_Qle. lia.
Qed.

(** The percentage grows with the number of completed tasks, is 0 when none
    is completed and 100 when all of at least one are; so it is for every
    entry of the statistics. *)
Theorem percentage_follows_completion (host : DateHost) (fp : Binary64)
    (fields : option (list string)) (data : list Row) :
  (forall c c' total, (c <= c')%nat ->
     (percent fp c total <= percent fp c' total)%Z)
  /\ (forall total, percent fp 0 total = 0%Z)
  /\ (forall total, total <> 0%nat -> percent fp total total = 100%Z)
  /\ Forall (fun e => (completedTasks e = 0%nat -> percentage e = 0%Z)
                      /\ (completedTasks e = totalTasks e -> percentage e = 100%Z))
       (departmentStats (processResults host fp fields data)).
Proof.
  split; [apply percent_mono|]. split; [apply percent_none|].
  split; [apply percent_all|].
  apply Forall_forall. intros e He.
  destruct (stats_entry_percentage host fp fields data e He) as [-> _].
  rewrite departmentStats_processResults, in_collectStats in He.
  destruct He as [d [l [_ [Hl ->]]]]. split.
  - intros ->. apply percent_none.
  - intros ->. apply percent_all. simpl. destruct l; [now destruct Hl | discriminate].
Qed.

(** With 199 of 200 tasks completed the percentage is already 100. *)
Remark percent_199_of_200 : percent Reference.exact 199 200 = 100%Z.
Proof. vm_compute. reflexivity. Qed.

(** ** Dashboard: the colour of a department *)

(** Every department has a colour of its own, except Equipment & Workshop,
    which has the colour of General, the one given when no name is
    recognised. *)
Theorem department_colours (d1 d2 : DepartmentType) :
  Dashboard.getDeptColor (dept_name d1) = Dashboard.getDeptColor (dept_name d2) <->
  d1 = d2
  \/ ((d1 = Equipment_Workshop \/ d1 = General)
      /\ (d2 = Equipment_Workshop \/ d2 = General)).
Proof.
  destruct d1, d2; vm_compute; split; intros H;
    try reflexivity; try discriminate H;
    try (left; reflexivity);
    try (right; split; [first [left; reflexivity | right; reflexivity]
                       | first [left; reflexivity | right; reflexivity]]);
    exfalso; intuition discriminate.
Qed.

(** ** Department details: sorting and filtering *)

(** A click on a column header sorts by that column; it sorts downwards
    exactly when the table was sorted upwards by the same column, so that
    clicks on one header alternate between the two directions. *)
Theorem handleSort_alternates (k : DepartmentDetails.SortKey)
    (current : DepartmentDetails.SortConfig) :
  let next := DepartmentDetails.handleSort k current in
  DepartmentDetails.key next = k
  /\ (DepartmentDetails.direction next = DepartmentDetails.Desc <->
      DepartmentDetails.key current = k
      /\ DepartmentDetails.direction current = DepartmentDetails.Asc)
  /\ DepartmentDetails.handleSort k next <> next
  /\ DepartmentDetails.handleSort k (DepartmentDetails.handleSort k next) = next.
Proof.
  destruct current as [k0 [|]]; destruct k, k0; cbv; repeat split;
    try discriminate; try (intros [? ?]; discriminate); try tauto;
    try (intros H; discriminate H).
Qed.

Lemma includes_nothing (s : string) : includes s "" = true.
Proof. rewrite includes_unfold. destruct s; reflexivity. Qed.

Lemma shown_iff (filter : string) (sf : DepartmentDetails.StatusFilter) (t : Task) :
  DepartmentDetails.shown filter sf t = true <->
  includes (toLowerCase (description t)) (toLowerCase filter) = true
  /\ match sf with
     | DepartmentDetails.AllStatuses => True
     | DepartmentDetails.DoneOnly => status t = Done
     | DepartmentDetails.PendingOnly => status t <> Done
     end.
Proof.
  unfold DepartmentDetails.shown. rewrite andb_true_iff.
  apply and_iff_compat_l.
  destruct sf; destruct (status t); simpl; split; intros; auto; congruence.
Qed.

(** The table shows, each once, the tasks whose description in lower case
    includes the search text in lower case and whose status passes the
    status filter, whatever the sort; with an empty search text and all
    statuses it shows every task once. *)
Theorem processedTasks_shows_the_matching_tasks
    (localeCompare : string -> string -> Z) (ts : list Task) (filter : string)
    (sf : DepartmentDetails.StatusFilter) (cfg : DepartmentDetails.SortConfig) :
  Permutation (DepartmentDetails.processedTasks localeCompare ts filter sf cfg)
    (List.filter (DepartmentDetails.shown filter sf) ts)
  /\ (forall t,
        In t (DepartmentDetails.processedTasks localeCompare ts filter sf cfg) <->
        In t ts
        /\ includes (toLowerCase (description t)) (toLowerCase filter) = true
        /\ match sf with
           | DepartmentDetails.AllStatuses => True
           | DepartmentDetails.DoneOnly => status t = Done
           | DepartmentDetails.PendingOnly => status t <> Done
           end)
  /\ Permutation
       (DepartmentDetails.processedTasks localeCompare ts ""
          DepartmentDetails.AllStatuses cfg) ts.
Proof.
  assert (P : forall f s,
             Permutation
               (DepartmentDetails.processedTasks localeCompare ts f s cfg)
               (List.filter (DepartmentDetails.shown f s) ts))
    by (intros; apply sort_permutation).
  split; [apply P|]. split.
  - intros t. rewrite <- shown_iff, <- filter_In. split; intros H.
    + eapply Permutation_in; [apply P | exact H].
    + eapply Permutation_in; [apply Permutation_sym, P | exact H].
  - eapply Permutation_trans; [apply P|].
    replace (List.filter (DepartmentDetails.shown "" DepartmentDetails.AllStatuses) ts)
      with ts; [apply Permutation_refl|].
    clear P. induction ts as [|t l IH]; [reflexivity|]. cbn [List.filter].
    unfold DepartmentDetails.shown at 1. cbn [toLowerCase].
    rewrite includes_nothing. cbn [andb]. f_equal. exact IH.
Qed.

Lemma filter_split_length {A : Type} (p q : A -> bool) (l : list A) :
  (List.length (filter (fun x => p x && q x) l)
   + List.length (filter (fun x => p x && negb (q x)) l)
   = List.length (filter (fun x => p x && true) l))%nat.
Proof.
  induction l as [|x l IH]; [reflexivity|]. cbn [filter].
  destruct (p x), (q x); cbn [andb negb List.length]; lia.
Qed.

(** For one search text, the view of the completed tasks and the view of
    the pending tasks together hold as many rows as the view of all
    statuses. *)
Theorem done_and_pending_views_partition
    (localeCompare : string -> string -> Z) (ts : list Task) (filter : string)
    (c1 c2 c3 : DepartmentDetails.SortConfig) :
  (List.length (DepartmentDetails.processedTasks localeCompare ts filter
                  DepartmentDetails.DoneOnly c1)
   + List.length (DepartmentDetails.processedTasks localeCompare ts filter
                    DepartmentDetails.PendingOnly c2)
   = List.length (DepartmentDetails.processedTasks localeCompare ts filter
                    DepartmentDetails.AllStatuses c3))%nat.
Proof.
  unfold DepartmentDetails.processedTasks.
  rewrite !(Permutation_length (sort_permutation _ _)).
  apply (filter_split_length
           (fun t => includes (toLowerCase (description t)) (toLowerCase filter))
           (fun t => status_eqb (status t) Done)).
Qed.

(** *** The order of the rows *)

Lemma Forall_insert {A : Type} (cmp : A -> A -> Z) (P : A -> Prop) (x : A)
    (l : list A) :
  P x -> Forall P l -> Forall P (insert cmp x l).
Proof.
  intros Px. induction l as [|y r IH]; intros F; simpl.
  - now constructor.
  - inversion F as [|? ? Py Fr]; subst.
    destruct (cmp y x <? 0)%Z; constructor; auto.
Qed.

(** Sorting with a comparator that agrees with a transitive order [R] gives
    an array in which every element stands in [R] to all later ones. *)
Lemma sort_strongly_sorted {A : Type} (cmp : A -> A -> Z) (R : A -> A -> Prop) :
  (forall a b, (cmp b a <? 0)%Z = false -> R a b) ->
  (forall a b, (cmp b a <? 0)%Z = true -> R b a) ->
  (forall a b c, R a b -> R b c -> R a c) ->
  forall l, StronglySorted R (sort cmp l).
Proof.
  intros Hle Hlt Htr l. induction l as [|x l IH]; [constructor|].
  rewrite sort_cons. revert IH. generalize (sort cmp l). clear l.
  intros l. induction l as [|y r IHr]; intros S; simpl.
  - constructor; constructor.
  - inversion S as [|? ? Sr Fy]; subst.
    destruct (cmp y x <? 0)%Z eqn:C.
    + constructor; [now apply IHr|].
      apply Forall_insert; [now apply Hlt | exact Fy].
    + constructor; [exact S|]. constructor; [now apply Hle|].
      eapply Forall_impl; [|exact Fy]. intros z Hz.
      apply (Htr x y z); [now apply Hle | exact Hz].
Qed.

Lemma compareAsc_pos (a b : Date) : (0 <? compareAsc a b)%Z = (b <? a)%Z.
Proof.
  unfold compareAsc.
  destruct (a - b <? 0)%Z eqn:N; [|destruct (0 <? a - b)%Z eqn:P].
  - apply Z.ltb_lt in N. symmetry. apply Z.ltb_ge. lia.
  - apply Z.ltb_lt in P. symmetry. apply Z.ltb_lt. lia.
  - rewrite P. apply Z.ltb_ge in P. symmetry. apply Z.ltb_ge. lia.
Qed.

Lemma compare_by_date_neg (localeCompare : string -> string -> Z)
    (dir : DepartmentDetails.SortDirection) (a b : Task) :
  (DepartmentDetails.compareTasks localeCompare
     {| DepartmentDetails.key := DepartmentDetails.ByDate;
        DepartmentDetails.direction := dir |} b a <? 0)%Z = false
  <-> dateOrder dir a b.
Proof.
  unfold DepartmentDetails.compareTasks, dateOrder.
  cbn [DepartmentDetails.key DepartmentDetails.direction].
  destruct (parsedDate a) as [x|], (parsedDate b) as [y|];
    try (split; [intros _; exact I | reflexivity]);
    try (split; [discriminate | intros []]).
  destruct dir.
  - rewrite Z.mul_1_r, compareAsc_neg, Z.ltb_ge. reflexivity.
  - replace (compareAsc y x * -1 <? 0)%Z with (0 <? compareAsc y x)%Z.
    + rewrite compareAsc_pos, Z.ltb_ge. reflexivity.
    + destruct (0 <? compareAsc y x)%Z eqn:P; symmetry.
      * apply Z.ltb_lt in P. apply Z.ltb_lt. lia.
      * apply Z.ltb_ge in P. apply Z.ltb_ge. lia.
Qed.

Lemma dateOrder_total (dir : DepartmentDetails.SortDirection) (a b : Task) :
  ~ dateOrder dir a b -> dateOrder dir b a.
Proof.
  unfold dateOrder.
  destruct (parsedDate a), (parsedDate b), dir; simpl; intros H; try lia;
    try exact I; now destruct H.
Qed.

Lemma dateOrder_trans (dir : DepartmentDetails.SortDirection) (a b c : Task) :
  dateOrder dir a b -> dateOrder dir b c -> dateOrder dir a c.
Proof.
  unfold dateOrder.
  destruct (parsedDate a), (parsedDate b), (parsedDate c), dir; simpl;
    intros; try lia; try exact I; try contradiction.
Qed.

(** Sorted by date, the rows with a parsed date come first, earliest first
    when sorting upwards and latest first when sorting downwards, and the
    rows without a parsed date come last in both directions. *)
Theorem rows_sorted_by_date (localeCompare : string -> string -> Z)
    (ts : list Task) (filter : string) (sf : DepartmentDetails.StatusFilter)
    (dir : DepartmentDetails.SortDirection) :
  StronglySorted (dateOrder dir)
    (DepartmentDetails.processedTasks localeCompare ts filter sf
       {| DepartmentDetails.key := DepartmentDetails.ByDate;
          DepartmentDetails.direction := dir |}).
Proof.
  unfold DepartmentDetails.processedTasks. apply sort_strongly_sorted.
  - intros a b. apply compare_by_date_neg.
  - intros a b H. apply dateOrder_total. intros N.
    apply (proj2 (compare_by_date_neg localeCompare dir a b)) in N. congruence.
  - apply dateOrder_trans.
Qed.

(** On the tasks of the ten rows, sorted downwards by date, the task without
    a parsed date is still behind the dated ones. *)
Remark ten_rows_sorted_downwards :
  map date
    (DepartmentDetails.processedTasks (fun _ _ => 0%Z)
       (tasks (processResults Reference.strict Reference.exact None
                 Scenario.tenRows))
       "run 1" DepartmentDetails.AllStatuses
       {| DepartmentDetails.key := DepartmentDetails.ByDate;
          DepartmentDetails.direction := DepartmentDetails.Desc |})
  = ["01-Jun-24"; "tbd"].
Proof. vm_compute. reflexivity. Qed.

(** ** The details of a department against its statistics *)

Lemma filter_length_permutation {A : Type} (p : A -> bool) (l l' : list A) :
  Permutation l l' -> List.length (filter p l) = List.length (filter p l').
Proof.
  intros P. induction P as [|x l l' P IH|x y l|l l' l'' P1 IH1 P2 IH2];
    simpl; try reflexivity.
  - destruct (p x); simpl; now rewrite IH.
  - destruct (p x), (p y); reflexivity.
  - now rewrite IH1.
Qed.

Lemma unfiltered_shows_all (ts : list Task) :
  List.filter (DepartmentDetails.shown "" DepartmentDetails.AllStatuses) ts = ts.
Proof.
  induction ts as [|t l IH]; [reflexivity|]. cbn [List.filter].
  unfold DepartmentDetails.shown at 1. cbn [toLowerCase].
  rewrite includes_nothing. cbn [andb]. now f_equal.
Qed.

Lemma processedTasks_rows (localeCompare : string -> string -> Z)
    (ts : list Task) (cfg : DepartmentDetails.SortConfig) :
  Permutation
    (DepartmentDetails.processedTasks localeCompare ts ""
       DepartmentDetails.AllStatuses cfg) ts.
Proof.
  unfold DepartmentDetails.processedTasks. rewrite unfiltered_shows_all.
  apply sort_permutation.
Qed.

Lemma isOverdue_same_day (load render : DateHost) (t : Task) :
  startOfToday render = startOfToday load ->
  DepartmentDetails.isOverdue render t = DepartmentDetails.isOverdue load t.
Proof.
  intros E. unfold DepartmentDetails.isOverdue, isBeforeToday. now rewrite E.
Qed.

Lemma isOverdue_later_day (load render : DateHost) (t : Task) :
  (startOfToday load <= startOfToday render)%Z ->
  DepartmentDetails.isOverdue load t = true ->
  DepartmentDetails.isOverdue render t = true.
Proof.
  intros L. unfold DepartmentDetails.isOverdue, isBeforeToday.
  destruct (status_eqb (status t) Done); [discriminate|].
  destruct (parsedDate t) as [d|]; [|discriminate]. cbn [negb andb].
  rewrite !Z.ltb_lt. lia.
Qed.

Lemma filter_length_mono {A : Type} (p q : A -> bool) (l : list A) :
  (forall x, p x = true -> q x = true) ->
  (List.length (filter p l) <= List.length (filter q l))%nat.
Proof.
  intros H. induction l as [|x l IH]; [apply Nat.le_refl|]. cbn [filter].
  destruct (p x) eqn:P.
  - rewrite (H x P). cbn [List.length]. lia.
  - destruct (q x); cbn [List.length]; lia.
Qed.

(** When a card of the dashboard is opened, the list handed to the details
    has as many tasks as the card says and as many Done tasks as the card
    counts completed. The card counts the overdue tasks with the day of the
    load, the table flags its rows with the day of the rendering: on the
    same day the rows flagged overdue are as many as the card counts, on a
    later day they are at least as many. The table has the same counts as
    the list, as long as nothing is filtered away. *)
Theorem details_agree_with_the_card (load render : DateHost) (fp : Binary64)
    (localeCompare : string -> string -> Z)
    (fields : option (list string)) (data : list Row)
    (s : App.State) (d : DepartmentStats) :
  let out := processResults load fp fields data in
  App.data s = Some out ->
  App.selectedDept s = Some d ->
  In d (departmentStats out) ->
  exists ts,
    App.modal s = Some (d, ts)
    /\ List.length ts = totalTasks d
    /\ List.length (filter doneTask ts) = completedTasks d
    /\ (startOfToday render = startOfToday load ->
        List.length (filter (DepartmentDetails.isOverdue render) ts) = overdueCount d)
    /\ ((startOfToday load <= startOfToday render)%Z ->
        (overdueCount d
         <= List.length (filter (DepartmentDetails.isOverdue render) ts))%nat)
    /\ forall cfg,
         let rows := DepartmentDetails.processedTasks localeCompare ts ""
                       DepartmentDetails.AllStatuses cfg in
         List.length rows = totalTasks d
         /\ List.length (filter doneTask rows) = completedTasks d
         /\ List.length (filter (DepartmentDetails.isOverdue render) rows)
            = List.length (filter (DepartmentDetails.isOverdue render) ts).
Proof.
  intros out Hdata Hsel Hin.
  destruct (stats_entry load fp fields data d Hin) as [E _]. fold out in E.
  exists (tasksOf (name d) (tasks out)).
  assert (T : List.length (tasksOf (name d) (tasks out)) = totalTasks d)
    by (rewrite E at 2; reflexivity).
  assert (C : List.length (filter doneTask (tasksOf (name d) (tasks out)))
              = completedTasks d) by (rewrite E at 2; reflexivity).
  assert (O : List.length (filter (DepartmentDetails.isOverdue load)
                             (tasksOf (name d) (tasks out)))
              = overdueCount d) by (rewrite E at 2; reflexivity).
  split; [unfold App.modal; now rewrite Hsel, Hdata|].
  split; [exact T|]. split; [exact C|]. split; [|split].
  - intros Day. rewrite <- O. f_equal. apply filter_ext.
    intros t. now apply isOverdue_same_day.
  - intros Day. rewrite <- O. apply filter_length_mono.
    intros t. now apply isOverdue_later_day.
  - intros cfg rows.
    assert (P : Permutation rows (tasksOf (name d) (tasks out)))
      by apply processedTasks_rows.
    split; [now rewrite (Permutation_length P)|].
    split; [now rewrite (filter_length_permutation _ _ _ P)|].
    apply filter_length_permutation, P.
Qed.

Lemma details_agree_with_the_card_witness :
  let out := processResults Reference.strict Reference.exact None
               Scenario.tenRows in
  let d := statsOf Reference.strict Reference.exact HR_Payroll
             (tasksOf HR_Payroll (tasks out)) in
  exists ts,
    App.modal {| App.data := Some out; App.loading := false;
                 App.error := None; App.selectedDept := Some d |}
      = Some (d, ts)
    /\ List.length ts = 10%nat
    /\ List.length (filter (DepartmentDetails.isOverdue Reference.lenient) ts)
       = 1%nat
    /\ (1 <= List.length
               (filter (DepartmentDetails.isOverdue Reference.aMonthLater) ts))%nat.
Proof.
  intros out d.
  assert (Hin : In d (departmentStats out)) by (vm_compute; left; reflexivity).
  destruct (details_agree_with_the_card Reference.strict Reference.lenient
              Reference.exact
              (fun _ _ => 0%Z) None Scenario.tenRows
              {| App.data := Some out; App.loading := false;
                 App.error := None; App.selectedDept := Some d |}
              d eq_refl eq_refl Hin)
    as [ts [Hm [Ht [_ [Ho _]]]]].
  destruct (details_agree_with_the_card Reference.strict Reference.aMonthLater
              Reference.exact
              (fun _ _ => 0%Z) None Scenario.tenRows
              {| App.data := Some out; App.loading := false;
                 App.error := None; App.selectedDept := Some d |}
              d eq_refl eq_refl Hin)
    as [ts' [Hm' [_ [_ [_ [Hl _]]]]]].
  assert (E : ts' = ts) by congruence. subst ts'.
  exists ts. split; [exact Hm|]. split; [exact Ht|]. split.
  - apply Ho. reflexivity.
  - apply Hl. vm_compute. discriminate.
Defined.

(** A month after the load the table flags two rows of the ten payroll
    tasks, while the card still counts the one task that was overdue when
    the data were loaded. *)
Remark table_flags_more_rows_on_a_later_day :
  let out := processResults Reference.strict Reference.exact None
               Scenario.tenRows in
  map overdueCount (departmentStats out) = [1%nat]
  /\ List.length
       (filter (DepartmentDetails.isOverdue Reference.aMonthLater)
          (tasksOf HR_Payroll (tasks out))) = 2%nat.
Proof. vm_compute. split; reflexivity. Qed.

(** ** Status badge *)

Lemma status_name_done (s : Status) : (status_name s =? "Done") = status_eqb s Done.
Proof. destruct s; reflexivity. Qed.

(** The badge of a row: the Done badge exactly for a Done task, the Overdue
    badge exactly for a row flagged overdue, otherwise the status as text;
    a Done status shows as Done even when the row is flagged, and a task of
    the pipeline that is neither Done nor overdue reads "Pending". *)
Theorem badge_of_a_row (host : DateHost) (t : Task) :
  let badge := StatusBadge.render (status_name (status t))
                 (DepartmentDetails.isOverdue host t) in
  (badge = StatusBadge.DoneBadge <-> status t = Done)
  /\ (badge = StatusBadge.OverdueBadge <->
      DepartmentDetails.isOverdue host t = true)
  /\ (forall text, badge = StatusBadge.StatusText text ->
        text = status_name (status t)
        /\ status t <> Done
        /\ DepartmentDetails.isOverdue host t = false)
  /\ (forall flag, StatusBadge.render "Done" flag = StatusBadge.DoneBadge)
  /\ (status t = Pending -> DepartmentDetails.isOverdue host t = false ->
      badge = StatusBadge.StatusText "Pending").
Proof.
  cbv zeta. unfold StatusBadge.render. rewrite status_name_done.
  unfold DepartmentDetails.isOverdue.
  destruct (status t) eqn:S; cbn [status_eqb negb andb status_name];
    repeat split; try discriminate; try reflexivity; try congruence;
    try (destruct (match parsedDate t with
                   | Some d => isBeforeToday host d
                   | None => false
                   end); intros; try discriminate; try reflexivity;
         try congruence; repeat split; congruence).
Qed.

(** ** Progress bar *)

(** The width of the bar is between 0 and 100, is the percentage itself
    when that lies between 0 and 100, and so is every percentage the
    pipeline puts out: the bar never cuts a value of the dashboard. *)
Theorem width_of_the_bar (host : DateHost) (fp : Binary64)
    (fields : option (list string)) (data : list Row) :
  (forall p, (0 <= ProgressBar.width p <= 100)%Z)
  /\ (forall p, (0 <= p <= 100)%Z <-> ProgressBar.width p = p)
  /\ (forall p, (p < 0)%Z -> ProgressBar.width p = 0%Z)
  /\ (forall p, (100 < p)%Z -> ProgressBar.width p = 100%Z)
  /\ Forall (fun e => ProgressBar.width (percentage e) = percentage e)
       (departmentStats (processResults host fp fields data)).
Proof.
  unfold ProgressBar.width. repeat split; try lia.
  apply Forall_forall. intros e He.
  destruct (stats_entry_percentage host fp fields data e He) as [E L].
  pose proof (percent_range fp _ _ L) as R. rewrite <- E in R. lia.
Qed.

(** ** The loading state of the application *)

Lemma lastSuccess_snoc (rs : list (option DashboardData)) (r : option DashboardData) :
  lastSuccess (rs ++ [r])
  = match r with
    | Some d => Some d
    | None => lastSuccess rs
    end.
Proof.
  induction rs as [|r0 rs IH]; simpl.
  - now destruct r.
  - rewrite IH. destruct r; [reflexivity|]. reflexivity.
Qed.

Lemma loads_snoc (rs : list (option DashboardData)) (r : option DashboardData) :
  App.loads (rs ++ [r]) = App.loadData r (App.loads rs).
Proof. unfold App.loads. now rewrite fold_left_app. Qed.

(** After any number of loads, none overlapping another: nothing is loading
    any more once one load is over; the data shown is that of the last load
    that succeeded, also when later loads failed; the error message is set
    exactly when the last load failed. So the dashboard is shown if and
    only if some load succeeded, and after a failed refresh it is shown,
    with the data of before, together with the error. *)
Theorem state_after_loads (results : list (option DashboardData)) :
  let s := App.loads results in
  App.data s = lastSuccess results
  /\ App.loading s = match results with [] => true | _ => false end
  /\ App.error s = match last results (Some {| tasks := []; departmentStats := [];
                                               overallProgress := 0 |}) with
                   | Some _ => None
                   | None => Some App.loadError
                   end
  /\ App.selectedDept s = None
  /\ (App.showsDashboard s = true <-> lastSuccess results <> None)
  /\ (App.showsError s = true <-> exists before, results = (before ++ [None])%list)
  /\ (App.showsSpinner s = true <-> results = []).
Proof.
  cbv zeta.
  assert (H : App.data (App.loads results) = lastSuccess results
              /\ App.loading (App.loads results)
                 = match results with [] => true | _ => false end
              /\ App.error (App.loads results)
                 = match last results (Some {| tasks := []; departmentStats := [];
                                               overallProgress := 0 |}) with
                   | Some _ => None
                   | None => Some App.loadError
                   end
              /\ App.selectedDept (App.loads results) = None).
  { induction results as [|r rs IH] using rev_ind; [repeat split|].
    destruct IH as [D [_ [_ S]]].
    rewrite loads_snoc, lastSuccess_snoc, last_last.
    destruct r as [d|]; cbn; repeat split; auto.
    all: destruct rs; reflexivity. }
  destruct H as [D [L [E S]]]. repeat split; auto.
  - unfold App.showsDashboard. rewrite D, L. intros H.
    destruct (lastSuccess results); [discriminate|].
    rewrite andb_false_r in H. discriminate.
  - unfold App.showsDashboard. rewrite D, L. intros H.
    destruct results as [|r rs]; [now destruct H|].
    destruct (lastSuccess (r :: rs)); [reflexivity | now destruct H].
  - unfold App.showsError. rewrite E. intros H.
    destruct results as [|r rs] using rev_ind; [discriminate|].
    rewrite last_last in H. destruct r; [discriminate|]. now exists rs.
  - unfold App.showsError. rewrite E. intros [b ->].
    rewrite last_last. reflexivity.
  - unfold App.showsSpinner. rewrite D, L. intros H.
    destruct results; [reflexivity | discriminate].
  - intros ->. reflexivity.
Qed.

(** ** The overall progress against the departments *)

Lemma sum_completedTasks_stats (host : DateHost) (fp : Binary64)
    (fields : option (list string)) (data : list Row) :
  let out := processResults host fp fields data in
  sum_of completedTasks (departmentStats out)
  = List.length (filter doneTask (tasks out)).
Proof.
  cbv zeta. rewrite departmentStats_processResults.
  rewrite sum_completedTasks_filter by apply collectStats_sums.
  rewrite (proj1 (proj2 (collectStats_sums _ _ _))), groupByDept_spec, sum_of_map.
  rewrite <- tasksOf_partition. apply sum_of_ext.
  intros d. simpl. now rewrite tasksOf_filter.
Qed.

(** The percentage grows with the ratio of completed to all. *)
Lemma percent_ratio_mono (fp : Binary64) (c t c' t' : nat) :
  (0 < t)%nat -> (0 < t')%nat -> (c * t' <= c' * t)%nat ->
  (percent fp c t <= percent fp c' t')%Z.
Proof.
  intros Ht Ht' Le.
  rewrite !percent_formula by lia.
  set (C := inject_Z (Z.of_nat c)). set (T := inject_Z (Z.of_nat t)).
  set (C' := inject_Z (Z.of_nat c')). set (T' := inject_Z (Z.of_nat t')).
  assert (PT : (0 < T)%Q).
  { unfold T. change 0%Q with (inject_Z 0). rewrite <- Zlt_Qlt. lia. }
  assert (PT' : (0 < T')%Q).
  { unfold T'. change 0%Q with (inject_Z 0). rewrite <- Zlt_Qlt. lia. }
  assert (R : (C / T <= C' / T')%Q).
  { apply Qle_shift_div_r; [exact PT|].
    assert (E : (C' / T' * T == C' * T / T')%Q).
    { field. intros Z0. rewrite Z0 in PT'. discriminate. }
    rewrite E. apply Qle_shift_div_l; [exact PT'|].
    unfold C, T, C', T'. rewrite <- !inject_Z_mult, <- Zle_Qle. nia. }
  apply Qfloor_resp_le, Qplus_le_l, rnd_mono.
  apply Qmult_le_r; [reflexivity|]. now apply rnd_mono.
Qed.

Lemma entry_below_the_average (l : list DepartmentStats) (C T : nat) :
  l <> [] ->
  (sum_of completedTasks l * T <= C * sum_of totalTasks l)%nat ->
  exists e, In e l /\ (completedTasks e * T <= C * totalTasks e)%nat.
Proof.
  induction l as [|e l IH]; [now intros H|]. intros _ H. cbn [sum_of] in H.
  destruct (le_dec (completedTasks e * T) (C * totalTasks e)) as [Le|Gt].
  - exists e. split; [now left | exact Le].
  - destruct l as [|e' l'].
    + simpl in H. exfalso. nia.
    + destruct IH as [x [Hx Lx]]; [discriminate | nia |].
      exists x. split; [now right | exact Lx].
Qed.

Lemma entry_above_the_average (l : list DepartmentStats) (C T : nat) :
  l <> [] ->
  (C * sum_of totalTasks l <= sum_of completedTasks l * T)%nat ->
  exists e, In e l /\ (C * totalTasks e <= completedTasks e * T)%nat.
Proof.
  induction l as [|e l IH]; [now intros H|]. intros _ H. cbn [sum_of] in H.
  destruct (le_dec (C * totalTasks e) (completedTasks e * T)) as [Le|Gt].
  - exists e. split; [now left | exact Le].
  - destruct l as [|e' l'].
    + simpl in H. exfalso. nia.
    + destruct IH as [x [Hx Lx]]; [discriminate | nia |].
      exists x. split; [now right | exact Lx].
Qed.

(** When there is at least one row, the overall progress lies between the
    percentage of some department of the statistics and that of another:
    it is never below all of them nor above all of them. *)
Theorem overall_progress_between_departments (host : DateHost) (fp : Binary64)
    (fields : option (list string)) (data : list Row) :
  data <> [] ->
  let out := processResults host fp fields data in
  exists lo hi,
    In lo (departmentStats out) /\ In hi (departmentStats out)
    /\ (percentage lo <= overallProgress out <= percentage hi)%Z.
Proof.
  intros Ne out.
  pose proof (sum_totalTasks_stats host fp fields data) as ST.
  pose proof (sum_completedTasks_stats host fp fields data) as SC.
  pose proof (tasks_length host fp fields data) as TL.
  pose proof (overallProgress_processResults host fp fields data) as O.
  cbv zeta in ST, SC, O. fold out in ST, SC, TL, O.
  assert (NS : departmentStats out <> []).
  { intros E. rewrite E in ST. simpl in ST. destruct data; [now destruct Ne | discriminate]. }
  assert (PT : (0 < List.length (tasks out))%nat).
  { rewrite TL. destruct data; [now destruct Ne | simpl; lia]. }
  destruct (entry_below_the_average (departmentStats out)
              (List.length (filter doneTask (tasks out)))
              (List.length (tasks out)) NS) as [lo [Hlo Llo]];
    [rewrite ST, SC, TL; lia|].
  destruct (entry_above_the_average (departmentStats out)
              (List.length (filter doneTask (tasks out)))
              (List.length (tasks out)) NS) as [hi [Hhi Lhi]];
    [rewrite ST, SC, TL; lia|].
  exists lo, hi. split; [exact Hlo|]. split; [exact Hhi|].
  destruct (stats_entry_percentage host fp fields data lo Hlo) as [-> _].
  destruct (stats_entry_percentage host fp fields data hi Hhi) as [-> _].
  assert (Plo : (0 < totalTasks lo)%nat).
  { unfold out in Hlo. rewrite departmentStats_processResults in Hlo.
    apply filter_In in Hlo as [_ P]. now apply Nat.ltb_lt. }
  assert (Phi : (0 < totalTasks hi)%nat).
  { unfold out in Hhi. rewrite departmentStats_processResults in Hhi.
    apply filter_In in Hhi as [_ P]. now apply Nat.ltb_lt. }
  rewrite O. split; apply percent_ratio_mono; auto; lia.
Qed.

Lemma overall_progress_between_departments_witness :
  let out := processResults Reference.strict Reference.exact None
               Scenario.twoDepartments in
  overallProgress out = 60%Z
  /\ exists lo hi,
       In lo (departmentStats out) /\ In hi (departmentStats out)
       /\ (percentage lo <= 60 <= percentage hi)%Z.
Proof.
  intros out.
  assert (O : overallProgress out = 60%Z) by (vm_compute; reflexivity).
  split; [exact O|]. rewrite <- O.
  apply (overall_progress_between_departments Reference.strict Reference.exact
           None Scenario.twoDepartments).
  discriminate.
Defined.
